(** * Audio file manager: key-resolution cache and background download queue

    A shallow embedding of [src/src/audio_file_manager.cpp] (with the
    configuration of [src/include/audio_file_manager.h]) and the properties
    of its locator codec, staleness check, resolver, download queue and
    refresh controller.

    Conventions of the embedding.
    - A C string is the [string] of its bytes before the terminating NUL;
      a pointer argument is modelled by the string it points to, so the
      null-pointer guards of the source have no counterpart (every caller
      in the module passes a non-null pointer, and the registry strings
      come from [strdup]).
    - [unsigned long] is the 32-bit type of the ESP32 target (the source
      itself speaks of the 32-bit overflow of [millis()]): a [Z] in
      [0, 2^32) with the wrap-around written out.
    - The module-level statics and the outside world (card, network,
      clock) are the fields of one record [Env]; every function of the
      source is a state-passing function on it. *)

From Stdlib Require Import ZArith Ascii String List Lia DecimalString.
From stdpp Require Import base strings list gmap.

Local Open Scope Z_scope.

(** ** Configuration (the defaults of audio_file_manager.h) *)

Definition AUDIO_JSON_FILE : string := "/audio_files.json".
Definition CACHE_TIMESTAMP_FILE : string := "/known_cache_time.txt".
Definition CACHE_VALIDITY_HOURS : Z := 24 * 7.
Definition MAX_KNOWN_SEQUENCES : nat := 50.
Definition MAX_HTTP_RESPONSE_SIZE : Z := 8192.
Definition AUDIO_FILES_DIR : string := "/audio".
Definition MAX_DOWNLOAD_QUEUE : nat := 20.
Definition MAX_FILENAME_LENGTH : nat := 64.
Definition KNOWN_FILES_URL : string :=
  "https://github.com/jeff-hamm/bowie-phone/sample-sequence.json".
Definition DOWNLOAD_QUEUE_CHECK_INTERVAL_MS : Z := 1000.

(** ** C strings and machine integers *)

Definition strlen (s : string) : nat := String.length s.

(** The first [n] bytes of [s]: what a bounded copy keeps. *)
Fixpoint strtake (n : nat) (s : string) : string :=
  match n, s with
  | S n', String c r => String c (strtake n' r)
  | _, _ => ""
  end.

(** [strncpy(dst, src, size - 1); dst[size - 1] = 0] *)
Definition strncpy_field (size : nat) (src : string) : string :=
  strtake (size - 1) src.

(** [snprintf(dst, size, ...)] of an already formatted text: at most
    [size - 1] bytes are stored. *)
Definition snprintf (size : nat) (formatted : string) : string :=
  strtake (size - 1) formatted.

(** [strchr]: the suffix starting at the first occurrence of [c]. *)
Fixpoint strchr (s : string) (c : ascii) : option string :=
  match s with
  | "" => None
  | String a r => if Ascii.eqb a c then Some s else strchr r c
  end.

(** [strrchr]: the suffix starting at the last occurrence of [c]. *)
Fixpoint strrchr (s : string) (c : ascii) : option string :=
  match s with
  | "" => None
  | String a r =>
      match strrchr r c with
      | Some t => Some t
      | None => if Ascii.eqb a c then Some s else None
      end
  end.

(** [strncmp(s, p, strlen p) == 0] *)
Definition has_prefix (p s : string) : bool := String.prefix p s.

Definition byte_of (c : ascii) : Z := Z.of_nat (nat_of_ascii c).

(** [isalnum] in the C locale. *)
Definition isalnum (c : ascii) : bool :=
  let n := byte_of c in
  ((48 <=? n) && (n <=? 57)) || ((65 <=? n) && (n <=? 90))
  || ((97 <=? n) && (n <=? 122)).

Definition ULONG_MAX : Z := 4294967295.
Definition wrap32 (z : Z) : Z := z mod 2 ^ 32.

Definition hex_digit (n : Z) : ascii :=
  nth (Z.to_nat n)
    ["0"; "1"; "2"; "3"; "4"; "5"; "6"; "7"; "8"; "9";
     "a"; "b"; "c"; "d"; "e"; "f"]%char "0"%char.

(** [%08lx] of a 32-bit value: eight lower-case hexadecimal digits. *)
Definition hex8 (h : Z) : string :=
  string_of_list_ascii
    (map (fun k => hex_digit (Z.land (Z.shiftr h (4 * k)) 15))
         [7; 6; 5; 4; 3; 2; 1; 0]).

(** [%d] of a non-negative [int]. *)
Definition dec (n : nat) : string := NilZero.string_of_uint (Nat.to_uint n).

(** ** The locator codec: pure part *)

(** [lastSlash ? lastSlash + 1 : url] *)
Definition urlFilename (url : string) : string :=
  match strrchr url "/" with
  | Some (String _ r) => r
  | _ => url
  end.

(** The cleaning loop of [urlToFilename]:
    [for (i = 0; urlFilename[i] && j < MAX_FILENAME_LENGTH - 1; i++)];
    the argument is the text from index [i] on, [j] the write position. *)
Fixpoint clean_loop (src : string) (j : nat) : string :=
  match src with
  | "" => ""
  | String c r =>
      if bool_decide (j < MAX_FILENAME_LENGTH - 1)%nat then
        if isalnum c || Ascii.eqb c "." || Ascii.eqb c "-" || Ascii.eqb c "_"
        then String c (clean_loop r (S j))
        else if Ascii.eqb c " " then String "_" (clean_loop r (S j))
        else clean_loop r j
      else ""
  end.

(** The cleaning loop without its bound on [j]. *)
Fixpoint sanitize (src : string) : string :=
  match src with
  | "" => ""
  | String c r =>
      if isalnum c || Ascii.eqb c "." || Ascii.eqb c "-" || Ascii.eqb c "_"
      then String c (sanitize r)
      else if Ascii.eqb c " " then String "_" (sanitize r)
      else sanitize r
  end.

(** [strlen(urlFilename) > 0 && strchr(urlFilename, '.')] *)
Definition has_extension (url : string) : bool :=
  bool_decide (0 < strlen (urlFilename url))%nat
  && bool_decide (is_Some (strchr (urlFilename url) ".")).

(** [hash = ((hash << 5) + hash) + url[i]] over [unsigned long];
    [char] is unsigned on the target. *)
Fixpoint djb2 (hash : Z) (url : string) : Z :=
  match url with
  | "" => hash
  | String c r =>
      djb2 (wrap32 (wrap32 (wrap32 (Z.shiftl hash 5) + hash) + byte_of c)) r
  end.

Definition url_hash (url : string) : Z := djb2 5381 url.

(** ["audio_%08lx.mp3"] and ["audio_%08lx_%d.mp3"] *)
Definition baseFilename (hash : Z) : string :=
  snprintf MAX_FILENAME_LENGTH ("audio_" +:+ hex8 hash +:+ ".mp3").
Definition counterFilename (hash : Z) (counter : nat) : string :=
  snprintf MAX_FILENAME_LENGTH
    ("audio_" +:+ hex8 hash +:+ "_" +:+ dec counter +:+ ".mp3").

(** ["%s/%s", AUDIO_FILES_DIR, filename] into a buffer of 128 bytes. *)
Definition audioPath (filename : string) : string :=
  snprintf 128 (AUDIO_FILES_DIR +:+ "/" +:+ filename).

(** ** Data model *)

(** [struct AudioFile]: one known key of the registry. *)
Record AudioFile := {
  audioKey : string;
  description : string;
  type : string;
  path : string;
}.

(** [struct AudioDownloadItem]: one queued fetch. The three texts live in
    buffers of 256, 128 and 64 bytes. *)
Record AudioDownloadItem := {
  url : string;
  localPath : string;
  item_description : string;
  inProgress : bool;
}.

#[global] Instance AudioFile_inhabited : Inhabited AudioFile :=
  populate {| audioKey := ""; description := ""; type := ""; path := "" |}.
#[global] Instance AudioDownloadItem_inhabited : Inhabited AudioDownloadItem :=
  populate {| url := ""; localPath := ""; item_description := "";
              inProgress := false |}.

Inductive CardType := CARD_NONE | CARD_MMC | CARD_SD | CARD_SDHC | CARD_UNKNOWN.

(** What the transfer contract answers for one GET: the status code,
    [getSize()] (-1 when unknown) and the chunks the stream hands out, in
    order, before the connection closes. *)
Record HttpResponse := {
  http_code : Z;
  http_size : Z;
  http_chunks : list string;
}.

(** The statics of the module, then the collaborators it consults: the
    network signal, the clock, the card (regular files with their content,
    directories, whether [mkdir] succeeds, the paths that cannot be opened
    for writing), the remote servers and the trace of the GET requests
    made so far. *)
Record Env := {
  knownFiles : list AudioFile;
  knownSequenceCount : nat;
  lastCacheTime : Z;
  sdCardInitialized : bool;
  downloadQueue : list AudioDownloadItem;
  downloadQueueCount : nat;
  downloadQueueIndex : nat;
  lastDownloadCheck : Z;
  wifi_connected : bool;
  millis : Z;
  sd_begin : bool;
  sd_cardType : CardType;
  sd_files : gmap string string;
  sd_dirs : gset string;
  sd_mkdir_ok : bool;
  sd_readonly : gset string;
  http_server : gmap string HttpResponse;
  http_requests : list string;
}.

Definition set_knownFiles (v : list AudioFile) (e : Env) : Env :=
  {| knownFiles := v; knownSequenceCount := knownSequenceCount e;
     lastCacheTime := lastCacheTime e;
     sdCardInitialized := sdCardInitialized e;
     downloadQueue := downloadQueue e;
     downloadQueueCount := downloadQueueCount e;
     downloadQueueIndex := downloadQueueIndex e;
     lastDownloadCheck := lastDownloadCheck e;
     wifi_connected := wifi_connected e; millis := millis e;
     sd_begin := sd_begin e; sd_cardType := sd_cardType e;
     sd_files := sd_files e; sd_dirs := sd_dirs e;
     sd_mkdir_ok := sd_mkdir_ok e; sd_readonly := sd_readonly e;
     http_server := http_server e; http_requests := http_requests e |}.

Definition set_knownSequenceCount (v : nat) (e : Env) : Env :=
  {| knownFiles := knownFiles e; knownSequenceCount := v;
     lastCacheTime := lastCacheTime e;
     sdCardInitialized := sdCardInitialized e;
     downloadQueue := downloadQueue e;
     downloadQueueCount := downloadQueueCount e;
     downloadQueueIndex := downloadQueueIndex e;
     lastDownloadCheck := lastDownloadCheck e;
     wifi_connected := wifi_connected e; millis := millis e;
     sd_begin := sd_begin e; sd_cardType := sd_cardType e;
     sd_files := sd_files e; sd_dirs := sd_dirs e;
     sd_mkdir_ok := sd_mkdir_ok e; sd_readonly := sd_readonly e;
     http_server := http_server e; http_requests := http_requests e |}.

Definition set_lastCacheTime (v : Z) (e : Env) : Env :=
  {| knownFiles := knownFiles e; knownSequenceCount := knownSequenceCount e;
     lastCacheTime := v; sdCardInitialized := sdCardInitialized e;
     downloadQueue := downloadQueue e;
     downloadQueueCount := downloadQueueCount e;
     downloadQueueIndex := downloadQueueIndex e;
     lastDownloadCheck := lastDownloadCheck e;
     wifi_connected := wifi_connected e; millis := millis e;
     sd_begin := sd_begin e; sd_cardType := sd_cardType e;
     sd_files := sd_files e; sd_dirs := sd_dirs e;
     sd_mkdir_ok := sd_mkdir_ok e; sd_readonly := sd_readonly e;
     http_server := http_server e; http_requests := http_requests e |}.

Definition set_sdCardInitialized (v : bool) (e : Env) : Env :=
  {| knownFiles := knownFiles e; knownSequenceCount := knownSequenceCount e;
     lastCacheTime := lastCacheTime e; sdCardInitialized := v;
     downloadQueue := downloadQueue e;
     downloadQueueCount := downloadQueueCount e;
     downloadQueueIndex := downloadQueueIndex e;
     lastDownloadCheck := lastDownloadCheck e;
     wifi_connected := wifi_connected e; millis := millis e;
     sd_begin := sd_begin e; sd_cardType := sd_cardType e;
     sd_files := sd_files e; sd_dirs := sd_dirs e;
     sd_mkdir_ok := sd_mkdir_ok e; sd_readonly := sd_readonly e;
     http_server := http_server e; http_requests := http_requests e |}.

Definition set_downloadQueue (v : list AudioDownloadItem) (e : Env) : Env :=
  {| knownFiles := knownFiles e; knownSequenceCount := knownSequenceCount e;
     lastCacheTime := lastCacheTime e;
     sdCardInitialized := sdCardInitialized e; downloadQueue := v;
     downloadQueueCount := downloadQueueCount e;
     downloadQueueIndex := downloadQueueIndex e;
     lastDownloadCheck := lastDownloadCheck e;
     wifi_connected := wifi_connected e; millis := millis e;
     sd_begin := sd_begin e; sd_cardType := sd_cardType e;
     sd_files := sd_files e; sd_dirs := sd_dirs e;
     sd_mkdir_ok := sd_mkdir_ok e; sd_readonly := sd_readonly e;
     http_server := http_server e; http_requests := http_requests e |}.

Definition set_downloadQueueCount (v : nat) (e : Env) : Env :=
  {| knownFiles := knownFiles e; knownSequenceCount := knownSequenceCount e;
     lastCacheTime := lastCacheTime e;
     sdCardInitialized := sdCardInitialized e;
     downloadQueue := downloadQueue e; downloadQueueCount := v;
     downloadQueueIndex := downloadQueueIndex e;
     lastDownloadCheck := lastDownloadCheck e;
     wifi_connected := wifi_connected e; millis := millis e;
     sd_begin := sd_begin e; sd_cardType := sd_cardType e;
     sd_files := sd_files e; sd_dirs := sd_dirs e;
     sd_mkdir_ok := sd_mkdir_ok e; sd_readonly := sd_readonly e;
     http_server := http_server e; http_requests := http_requests e |}.

Definition set_downloadQueueIndex (v : nat) (e : Env) : Env :=
  {| knownFiles := knownFiles e; knownSequenceCount := knownSequenceCount e;
     lastCacheTime := lastCacheTime e;
     sdCardInitialized := sdCardInitialized e;
     downloadQueue := downloadQueue e;
     downloadQueueCount := downloadQueueCount e; downloadQueueIndex := v;
     lastDownloadCheck := lastDownloadCheck e;
     wifi_connected := wifi_connected e; millis := millis e;
     sd_begin := sd_begin e; sd_cardType := sd_cardType e;
     sd_files := sd_files e; sd_dirs := sd_dirs e;
     sd_mkdir_ok := sd_mkdir_ok e; sd_readonly := sd_readonly e;
     http_server := http_server e; http_requests := http_requests e |}.

Definition set_lastDownloadCheck (v : Z) (e : Env) : Env :=
  {| knownFiles := knownFiles e; knownSequenceCount := knownSequenceCount e;
     lastCacheTime := lastCacheTime e;
     sdCardInitialized := sdCardInitialized e;
     downloadQueue := downloadQueue e;
     downloadQueueCount := downloadQueueCount e;
     downloadQueueIndex := downloadQueueIndex e; lastDownloadCheck := v;
     wifi_connected := wifi_connected e; millis := millis e;
     sd_begin := sd_begin e; sd_cardType := sd_cardType e;
     sd_files := sd_files e; sd_dirs := sd_dirs e;
     sd_mkdir_ok := sd_mkdir_ok e; sd_readonly := sd_readonly e;
     http_server := http_server e; http_requests := http_requests e |}.

Definition set_sd_files (v : gmap string string) (e : Env) : Env :=
  {| knownFiles := knownFiles e; knownSequenceCount := knownSequenceCount e;
     lastCacheTime := lastCacheTime e;
     sdCardInitialized := sdCardInitialized e;
     downloadQueue := downloadQueue e;
     downloadQueueCount := downloadQueueCount e;
     downloadQueueIndex := downloadQueueIndex e;
     lastDownloadCheck := lastDownloadCheck e;
     wifi_connected := wifi_connected e; millis := millis e;
     sd_begin := sd_begin e; sd_cardType := sd_cardType e; sd_files := v;
     sd_dirs := sd_dirs e; sd_mkdir_ok := sd_mkdir_ok e;
     sd_readonly := sd_readonly e; http_server := http_server e;
     http_requests := http_requests e |}.

Definition set_sd_dirs (v : gset string) (e : Env) : Env :=
  {| knownFiles := knownFiles e; knownSequenceCount := knownSequenceCount e;
     lastCacheTime := lastCacheTime e;
     sdCardInitialized := sdCardInitialized e;
     downloadQueue := downloadQueue e;
     downloadQueueCount := downloadQueueCount e;
     downloadQueueIndex := downloadQueueIndex e;
     lastDownloadCheck := lastDownloadCheck e;
     wifi_connected := wifi_connected e; millis := millis e;
     sd_begin := sd_begin e; sd_cardType := sd_cardType e;
     sd_files := sd_files e; sd_dirs := v; sd_mkdir_ok := sd_mkdir_ok e;
     sd_readonly := sd_readonly e; http_server := http_server e;
     http_requests := http_requests e |}.

Definition set_http_requests (v : list string) (e : Env) : Env :=
  {| knownFiles := knownFiles e; knownSequenceCount := knownSequenceCount e;
     lastCacheTime := lastCacheTime e;
     sdCardInitialized := sdCardInitialized e;
     downloadQueue := downloadQueue e;
     downloadQueueCount := downloadQueueCount e;
     downloadQueueIndex := downloadQueueIndex e;
     lastDownloadCheck := lastDownloadCheck e;
     wifi_connected := wifi_connected e; millis := millis e;
     sd_begin := sd_begin e; sd_cardType := sd_cardType e;
     sd_files := sd_files e; sd_dirs := sd_dirs e;
     sd_mkdir_ok := sd_mkdir_ok e; sd_readonly := sd_readonly e;
     http_server := http_server e; http_requests := v |}.

Definition set_millis (v : Z) (e : Env) : Env :=
  {| knownFiles := knownFiles e; knownSequenceCount := knownSequenceCount e;
     lastCacheTime := lastCacheTime e;
     sdCardInitialized := sdCardInitialized e;
     downloadQueue := downloadQueue e;
     downloadQueueCount := downloadQueueCount e;
     downloadQueueIndex := downloadQueueIndex e;
     lastDownloadCheck := lastDownloadCheck e;
     wifi_connected := wifi_connected e; millis := v; sd_begin := sd_begin e;
     sd_cardType := sd_cardType e; sd_files := sd_files e;
     sd_dirs := sd_dirs e; sd_mkdir_ok := sd_mkdir_ok e;
     sd_readonly := sd_readonly e; http_server := http_server e;
     http_requests := http_requests e |}.

Definition set_wifi_connected (v : bool) (e : Env) : Env :=
  {| knownFiles := knownFiles e; knownSequenceCount := knownSequenceCount e;
     lastCacheTime := lastCacheTime e;
     sdCardInitialized := sdCardInitialized e;
     downloadQueue := downloadQueue e;
     downloadQueueCount := downloadQueueCount e;
     downloadQueueIndex := downloadQueueIndex e;
     lastDownloadCheck := lastDownloadCheck e; wifi_connected := v;
     millis := millis e; sd_begin := sd_begin e;
     sd_cardType := sd_cardType e; sd_files := sd_files e;
     sd_dirs := sd_dirs e; sd_mkdir_ok := sd_mkdir_ok e;
     sd_readonly := sd_readonly e; http_server := http_server e;
     http_requests := http_requests e |}.

Definition set_http_server (v : gmap string HttpResponse) (e : Env) : Env :=
  {| knownFiles := knownFiles e; knownSequenceCount := knownSequenceCount e;
     lastCacheTime := lastCacheTime e;
     sdCardInitialized := sdCardInitialized e;
     downloadQueue := downloadQueue e;
     downloadQueueCount := downloadQueueCount e;
     downloadQueueIndex := downloadQueueIndex e;
     lastDownloadCheck := lastDownloadCheck e;
     wifi_connected := wifi_connected e; millis := millis e;
     sd_begin := sd_begin e; sd_cardType := sd_cardType e;
     sd_files := sd_files e; sd_dirs := sd_dirs e;
     sd_mkdir_ok := sd_mkdir_ok e; sd_readonly := sd_readonly e;
     http_server := v; http_requests := http_requests e |}.

Definition set_sd_begin (v : bool) (e : Env) : Env :=
  {| knownFiles := knownFiles e; knownSequenceCount := knownSequenceCount e;
     lastCacheTime := lastCacheTime e;
     sdCardInitialized := sdCardInitialized e;
     downloadQueue := downloadQueue e;
     downloadQueueCount := downloadQueueCount e;
     downloadQueueIndex := downloadQueueIndex e;
     lastDownloadCheck := lastDownloadCheck e;
     wifi_connected := wifi_connected e; millis := millis e; sd_begin := v;
     sd_cardType := sd_cardType e; sd_files := sd_files e;
     sd_dirs := sd_dirs e; sd_mkdir_ok := sd_mkdir_ok e;
     sd_readonly := sd_readonly e; http_server := http_server e;
     http_requests := http_requests e |}.

(** ** State passing *)

Definition M (A : Type) : Type := Env -> A * Env.
Definition ret {A} (a : A) : M A := fun e => (a, e).
Definition bind {A B} (c : M A) (k : A -> M B) : M B :=
  fun e => let (a, e') := c e in k a e'.
Definition gets {A} (f : Env -> A) : M A := fun e => (f e, e).
Definition modify (f : Env -> Env) : M unit := fun e => (tt, f e).

Notation "x <- c ;; k" := (bind c (fun x => k))
  (at level 100, c at next level, right associativity).
Notation "c ;;; k" := (bind c (fun _ => k))
  (at level 100, right associativity).

(** ** The card *)

(** [initializeSDCard]: [SD.begin] and the card type are consulted until
    the first success, which is remembered. *)
Definition initializeSDCard : M bool := fun e =>
  if sdCardInitialized e then (true, e)
  else if negb (sd_begin e) then (false, e)
  else match sd_cardType e with
       | CARD_NONE => (false, e)
       | _ => (true, set_sdCardInitialized true e)
       end.

(** [SD.exists(path)] *)
Definition SD_exists (p : string) : M bool :=
  gets (fun e => bool_decide (is_Some (sd_files e !! p))
                 || bool_decide (p ∈ sd_dirs e)).

(** [SD.open(path, FILE_READ)]: the content when the file is there. *)
Definition SD_open_read (p : string) : M (option string) :=
  gets (fun e => sd_files e !! p).

(** [SD.open(path, FILE_WRITE)]: whether the file can be created. *)
Definition SD_open_write (p : string) : M bool :=
  gets (fun e => bool_decide (p ∉ sd_readonly e)).

(** The content of a file opened with [FILE_WRITE] once it is closed. *)
Definition SD_store (p content : string) : M unit :=
  modify (fun e => set_sd_files (<[p := content]> (sd_files e)) e).

(** [SD.mkdir(path)] *)
Definition SD_mkdir (p : string) : M bool := fun e =>
  if sd_mkdir_ok e then (true, set_sd_dirs ({[p]} ∪ sd_dirs e) e)
  else (false, e).

(** ** The locator codec on the card *)

(** [for (int counter = 1; counter < 1000; counter++)]: [remaining]
    iterations are left, the counter is [1000 - remaining]. The result is
    the first suffixed name that is not on the card. *)
Fixpoint collision_loop (hash : Z) (remaining : nat) : M (option string) :=
  match remaining with
  | O => ret None
  | S remaining' =>
      let filename := counterFilename hash (1000 - remaining) in
      taken <- SD_exists (audioPath filename) ;;
      if negb taken then ret (Some filename)
      else collision_loop hash remaining'
  end.

(** The second half of [urlToFilename]: a name from the hash of the whole
    locator, with a counter when the base name is taken. *)
Definition hashed_filename (url : string) : M (option string) :=
  let hash := url_hash url in
  ready <- initializeSDCard ;;
  if ready then
    taken <- SD_exists (audioPath (baseFilename hash)) ;;
    if taken then
      found <- collision_loop hash 999 ;;
      match found with
      | Some filename => ret (Some filename)
      | None => ret (Some (baseFilename hash))
      end
    else ret (Some (baseFilename hash))
  else ret (Some (baseFilename hash)).

(** [urlToFilename]: [Some filename] stands for [true] with the buffer
    filled, [None] for [false]. *)
Definition urlToFilename (url : string) : M (option string) :=
  if has_extension url then
    let filename := clean_loop (urlFilename url) 0 in
    if bool_decide (0 < strlen filename)%nat then ret (Some filename)
    else hashed_filename url
  else hashed_filename url.

(** [getLocalAudioPath] *)
Definition getLocalAudioPath (url : string) : M (option string) :=
  name <- urlToFilename url ;;
  match name with
  | None => ret None
  | Some filename => ret (Some (audioPath filename))
  end.

(** [audioFileExists] *)
Definition audioFileExists (url : string) : M bool :=
  ready <- initializeSDCard ;;
  if negb ready then ret false
  else
    p <- getLocalAudioPath url ;;
    match p with
    | None => ret false
    | Some localPath => SD_exists localPath
    end.

(** ** The download queue *)

Definition item_set_url (v : string) (it : AudioDownloadItem) :=
  {| url := v; localPath := localPath it;
     item_description := item_description it; inProgress := inProgress it |}.
Definition item_set_localPath (v : string) (it : AudioDownloadItem) :=
  {| url := url it; localPath := v;
     item_description := item_description it; inProgress := inProgress it |}.
Definition item_set_description (v : string) (it : AudioDownloadItem) :=
  {| url := url it; localPath := localPath it;
     item_description := v; inProgress := inProgress it |}.
Definition item_set_inProgress (v : bool) (it : AudioDownloadItem) :=
  {| url := url it; localPath := localPath it;
     item_description := item_description it; inProgress := v |}.

(** An assignment through [item = &downloadQueue[i]]. *)
Definition update_item (i : nat)
    (f : AudioDownloadItem -> AudioDownloadItem) : M unit :=
  modify (fun e =>
    set_downloadQueue (<[i := f (downloadQueue e !!! i)]> (downloadQueue e)) e).

(** The duplicate scan of [addToDownloadQueue]:
    [strcmp(downloadQueue[i].url, url) == 0] for some
    [i < downloadQueueCount]. *)
Definition url_queued (url0 : string) (e : Env) : bool :=
  existsb (fun it => String.eqb (url it) url0)
          (take (downloadQueueCount e) (downloadQueue e)).

(** [addToDownloadQueue] *)
Definition addToDownloadQueue (url0 description0 : string) : M bool :=
  count <- gets downloadQueueCount ;;
  if bool_decide (MAX_DOWNLOAD_QUEUE ≤ count)%nat then ret false
  else
    queued <- gets (url_queued url0) ;;
    if queued then ret true
    else
      update_item count (item_set_url (strncpy_field 256 url0)) ;;;
      p <- getLocalAudioPath url0 ;;
      match p with
      | None => ret false
      | Some lp =>
          update_item count (item_set_localPath lp) ;;;
          update_item count
            (item_set_description (strncpy_field 64 description0)) ;;;
          update_item count (item_set_inProgress false) ;;;
          modify (fun e =>
            set_downloadQueueCount (S (downloadQueueCount e)) e) ;;;
          ret true
      end.

(** The answer to a GET for a locator no server of the world knows:
    the connection is refused. *)
Definition connection_refused : HttpResponse :=
  {| http_code := -1; http_size := -1; http_chunks := [] |}.

(** [http.begin(url); http.GET()]: the request is traced. *)
Definition http_GET (url0 : string) : M HttpResponse := fun e =>
  (default connection_refused (http_server e !! url0),
   set_http_requests (http_requests e ++ [url0]) e).

(** The chunk loop of [processDownloadQueue]:
    [while (http.connected() && (contentLength > 0 || contentLength == -1))].
    The connection is open as long as chunks are left; the result is the
    content of the written file. *)
Fixpoint download_loop (contentLength : Z) (chunks : list string)
    (file : string) : string :=
  match chunks with
  | [] => file
  | chunk :: rest =>
      if (0 <? contentLength) || (contentLength =? -1) then
        let bytesRead := Z.of_nat (strlen chunk) in
        if 0 <? bytesRead then
          download_loop
            (if 0 <? contentLength then contentLength - bytesRead
             else contentLength)
            rest (file +:+ chunk)
        else download_loop contentLength rest file
      else file
  end.

(** [item->inProgress = false; downloadQueueIndex++] *)
Definition skip_item (idx : nat) : M unit :=
  update_item idx (item_set_inProgress false) ;;;
  modify (fun e => set_downloadQueueIndex (S (downloadQueueIndex e)) e).

(** [processDownloadQueue] *)
Definition processDownloadQueue : M bool :=
  idx <- gets downloadQueueIndex ;;
  count <- gets downloadQueueCount ;;
  if bool_decide (count ≤ idx)%nat then ret false
  else
    wifi <- gets wifi_connected ;;
    if negb wifi then ret false
    else
      ready <- initializeSDCard ;;
      if negb ready then ret false
      else
        item <- gets (fun e => downloadQueue e !!! idx) ;;
        if inProgress item then ret false
        else
          update_item idx (item_set_inProgress true) ;;;
          dir <- SD_exists AUDIO_FILES_DIR ;;
          made <- (if dir then ret true else SD_mkdir AUDIO_FILES_DIR) ;;
          if negb made then skip_item idx ;;; ret false
          else
            response <- http_GET (url item) ;;
            let httpCode := http_code response in
            if httpCode =? 200 then
              audioFile <- SD_open_write (localPath item) ;;
              if negb audioFile then skip_item idx ;;; ret false
              else
                SD_store (localPath item)
                  (download_loop (http_size response)
                     (http_chunks response) "") ;;;
                skip_item idx ;;;
                ret (httpCode =? 200)
            else
              skip_item idx ;;;
              ret (httpCode =? 200).

(** [processAudioDownloadQueue]: the rate limit in front of the drive
    step; the difference is taken over [unsigned long]. *)
Definition processAudioDownloadQueue : M bool :=
  now <- gets millis ;;
  last <- gets lastDownloadCheck ;;
  if wrap32 (now - last) <? DOWNLOAD_QUEUE_CHECK_INTERVAL_MS then ret false
  else
    modify (set_lastDownloadCheck now) ;;;
    processDownloadQueue.

Definition getDownloadQueueCount (e : Env) : Z :=
  Z.of_nat (downloadQueueCount e) - Z.of_nat (downloadQueueIndex e).

Definition getTotalDownloadQueueSize (e : Env) : nat := downloadQueueCount e.

Definition isDownloadQueueEmpty (e : Env) : bool :=
  bool_decide (downloadQueueCount e ≤ downloadQueueIndex e)%nat.

(** [clearDownloadQueue] *)
Definition clearDownloadQueue : M unit :=
  modify (fun e => set_downloadQueueIndex 0 (set_downloadQueueCount 0 e)).

(** ** The cache resolver *)

(** The linear search of [processAudioKey] over the first
    [knownSequenceCount] records. *)
Definition find_key (key : string) (e : Env) : option AudioFile :=
  List.find (fun f => String.eqb (audioKey f) key)
            (take (knownSequenceCount e) (knownFiles e)).

(** [processAudioKey]: [Some p] is the returned path, [None] is
    [nullptr]. *)
Definition processAudioKey (key : string) : M (option string) :=
  found <- gets (find_key key) ;;
  match found with
  | None => ret None
  | Some f =>
      if String.eqb (type f) "audio" then
        if bool_decide (strlen (path f) = 0)%nat then ret None
        else if has_prefix "http://" (path f) || has_prefix "https://" (path f)
        then
          cached <- audioFileExists (path f) ;;
          if cached then getLocalAudioPath (path f)
          else
            addToDownloadQueue (path f) (description f) ;;;
            ret None
        else ret (Some (path f))
      else if String.eqb (type f) "service" then ret None
      else if String.eqb (type f) "shortcut" then ret None
      else if String.eqb (type f) "url" then ret None
      else ret None
  end.

(** ** Cache age *)

(** [CACHE_VALIDITY_HOURS * 60 * 60 * 1000UL] *)
Definition maxAge : Z := wrap32 (CACHE_VALIDITY_HOURS * 60 * 60 * 1000).

(** The age computation of [isCacheStale] over [unsigned long]. *)
Definition cacheAge (savedTime currentTime : Z) : Z :=
  if savedTime <=? currentTime then wrap32 (currentTime - savedTime)
  else wrap32 (wrap32 (wrap32 (ULONG_MAX - savedTime) + currentTime) + 1).

(** [print(millis())]: the decimal digits of an [unsigned long]. *)
Definition print_ulong (z : Z) : string :=
  NilZero.string_of_uint (N.to_uint (Z.to_N z)).

(** ** The registry store and the refresh controller *)

(** One member of the parsed document: the three optional texts of
    [kv.value().as<JsonObject>()]. *)
Record JsonEntry := {
  json_description : option string;
  json_type : option string;
  json_path : option string;
}.

(** [seqData["description"] | "Unknown"] and its siblings, [strdup]ed. *)
Definition record_of (key : string) (seqData : JsonEntry) : AudioFile :=
  {| audioKey := key;
     description := default "Unknown" (json_description seqData);
     type := default "unknown" (json_type seqData);
     path := default "" (json_path seqData) |}.

Section Registry.

(** The structured-text codec and the number reader are collaborators with
    a fixed interface: [deserializeJson] followed by [as<JsonObject>()]
    gives the members in document order or fails, [serializeJson] renders
    the records of a document, [String_toInt] is [String::toInt]. *)
Variable deserializeJson : string -> option (list (string * JsonEntry)).
Variable serializeJson : list AudioFile -> string.
Variable String_toInt : string -> Z.

(** [isCacheStale] *)
Definition isCacheStale : M bool :=
  count <- gets knownSequenceCount ;;
  if bool_decide (count = 0)%nat then ret true
  else
    ready <- initializeSDCard ;;
    if negb ready then ret false
    else
      timestampFile <- SD_open_read CACHE_TIMESTAMP_FILE ;;
      match timestampFile with
      | None => ret true
      | Some timestampStr =>
          let savedTime := wrap32 (String_toInt timestampStr) in
          currentTime <- gets millis ;;
          ret (maxAge <? cacheAge savedTime currentTime)
      end.

(** [saveKnownSequencesToSDCard] *)
Definition saveKnownSequencesToSDCard : M bool :=
  ready <- initializeSDCard ;;
  if negb ready then ret false
  else
    records <- gets (fun e => take (knownSequenceCount e) (knownFiles e)) ;;
    sequenceFile <- SD_open_write AUDIO_JSON_FILE ;;
    if negb sequenceFile then ret false
    else
      let text := serializeJson records in
      SD_store AUDIO_JSON_FILE text ;;;
      if bool_decide (strlen text = 0)%nat then ret false
      else
        timestampFile <- SD_open_write CACHE_TIMESTAMP_FILE ;;
        (if timestampFile then
           now <- gets millis ;;
           SD_store CACHE_TIMESTAMP_FILE (print_ulong now) ;;;
           modify (set_lastCacheTime now)
         else ret tt) ;;;
        ret true.

(** The loading loop shared by the two readers: one record per member
    until [MAX_KNOWN_SEQUENCES] is reached. *)
Fixpoint load_records (root : list (string * JsonEntry)) : M unit :=
  match root with
  | [] => ret tt
  | (key, seqData) :: rest =>
      count <- gets knownSequenceCount ;;
      if bool_decide (MAX_KNOWN_SEQUENCES ≤ count)%nat then ret tt
      else
        modify (fun e =>
          set_knownSequenceCount (S count)
            (set_knownFiles
               (<[count := record_of key seqData]> (knownFiles e)) e)) ;;;
        load_records rest
  end.

(** [loadKnownSequencesFromSDCard] *)
Definition loadKnownSequencesFromSDCard : M bool :=
  ready <- initializeSDCard ;;
  if negb ready then ret false
  else
    present <- SD_exists AUDIO_JSON_FILE ;;
    if negb present then ret false
    else
      sequenceFile <- SD_open_read AUDIO_JSON_FILE ;;
      match sequenceFile with
      | None => ret false
      | Some jsonString =>
          if bool_decide (strlen jsonString = 0)%nat then ret false
          else
            timestampFile <- SD_open_read CACHE_TIMESTAMP_FILE ;;
            modify (set_lastCacheTime
                      match timestampFile with
                      | Some timestampStr =>
                          wrap32 (String_toInt timestampStr)
                      | None => 0
                      end) ;;;
            match deserializeJson jsonString with
            | None => ret false
            | Some root =>
                modify (set_knownSequenceCount 0) ;;;
                load_records root ;;;
                ret true
            end
      end.

(** [http.getString()]: the whole body. *)
Definition getString (response : HttpResponse) : string :=
  fold_right String.append "" (http_chunks response).

(** [downloadAudio] *)
Definition downloadAudio : M bool :=
  wifi <- gets wifi_connected ;;
  if negb wifi then ret false
  else
    stale <- isCacheStale ;;
    if negb stale then ret true
    else
      response <- http_GET KNOWN_FILES_URL ;;
      if negb (http_code response =? 200) then ret false
      else
        let payload := getString response in
        if MAX_HTTP_RESPONSE_SIZE <? Z.of_nat (strlen payload) then ret false
        else
          match deserializeJson payload with
          | None => ret false
          | Some root =>
              modify (set_knownSequenceCount 0) ;;;
              load_records root ;;;
              saveKnownSequencesToSDCard ;;;
              ret true
          end.

End Registry.

(** ** Notions used in the statements *)

(** Whether [initializeSDCard] succeeds in [e]. *)
Definition sd_ready (e : Env) : bool :=
  sdCardInitialized e
  || (sd_begin e && match sd_cardType e with CARD_NONE => false | _ => true end).

(** The environment after a call of [initializeSDCard]. *)
Definition mark_ready (e : Env) : Env :=
  if sd_ready e then set_sdCardInitialized true e else e.

(** [SD.exists] as a function of the environment. *)
Definition exists_on (e : Env) (p : string) : bool := fst (SD_exists p e).

(** The item the cursor points at. *)
Definition cursor_item (e : Env) : AudioDownloadItem :=
  downloadQueue e !!! downloadQueueIndex e.

(** The drive step gets as far as marking the item at the cursor. *)
Definition attempted (e : Env) : bool :=
  bool_decide (downloadQueueIndex e < downloadQueueCount e)%nat
  && wifi_connected e && sd_ready e
  && negb (inProgress (cursor_item e)).

(** The audio directory is there or can be made. *)
Definition dir_ready (e : Env) : bool :=
  exists_on e AUDIO_FILES_DIR || sd_mkdir_ok e.

(** The answer the world gives to a GET of [u]. *)
Definition response_of (e : Env) (u : string) : HttpResponse :=
  default connection_refused (http_server e !! u).

(** Two environments show the same card to the codec. *)
Definition same_card (e e' : Env) : Prop :=
  sd_files e = sd_files e' /\ sd_dirs e = sd_dirs e'
  /\ sd_ready e = sd_ready e'.

(** The identifier and the destination the codec computes for a locator
    in an environment. *)
Definition filename_of (url0 : string) (e : Env) : string :=
  default "" (fst (urlToFilename url0 e)).
Definition local_path (url0 : string) (e : Env) : string :=
  default "" (fst (getLocalAudioPath url0 e)).

(** The entry a successful enqueue writes, and the environment after it:
    the entry at position [downloadQueueCount], the count one higher, the
    card initialised if the codec consulted it. *)
Definition new_item (url0 description0 : string) (e : Env)
    : AudioDownloadItem :=
  {| url := strncpy_field 256 url0;
     localPath := local_path url0 e;
     item_description := strncpy_field 64 description0;
     inProgress := false |}.

Definition enqueued (url0 description0 : string) (e : Env) : Env :=
  set_downloadQueueCount (S (downloadQueueCount e))
    (set_downloadQueue
       (<[downloadQueueCount e := new_item url0 description0 e]>
          (downloadQueue e))
       (if has_extension url0 then e else mark_ready e)).

(** The locators stored at the indices below [downloadQueueCount]. *)
Definition queued_urls (e : Env) : list string :=
  url <$> take (downloadQueueCount e) (downloadQueue e).

(** ** Sample environments *)

(** The statics at start-up (zeroed arrays, nothing initialised) in a
    world with a working card, an audio directory and a network. *)
Definition env0 : Env :=
  {| knownFiles := replicate MAX_KNOWN_SEQUENCES inhabitant;
     knownSequenceCount := 0; lastCacheTime := 0;
     sdCardInitialized := false;
     downloadQueue := replicate MAX_DOWNLOAD_QUEUE inhabitant;
     downloadQueueCount := 0; downloadQueueIndex := 0;
     lastDownloadCheck := 0;
     wifi_connected := true; millis := 5000;
     sd_begin := true; sd_cardType := CARD_SDHC;
     sd_files := ∅; sd_dirs := {[AUDIO_FILES_DIR]};
     sd_mkdir_ok := true; sd_readonly := ∅;
     http_server := ∅; http_requests := [] |}.

(** Twenty distinct locators enqueued one after the other. *)
Definition sample_url (k : nat) : string := "http://h/" +:+ dec k +:+ ".mp3".

Definition enqueue_all (urls : list string) (e : Env) : Env :=
  fold_left (fun e0 u => snd (addToDownloadQueue u "clip" e0)) urls e.

Definition env_full : Env := enqueue_all (map sample_url (seq 1 20)) env0.

(** A locator of 309 bytes: longer than the 255 the queue keeps. *)
Definition long_url : string :=
  "http://h/aaaaaaaaaaaaaaaaaaaaaaaaaaaaaaaaaaaaaaaaaaaaaaaaaaaaaaaaaaaaaaaaaaaaaaaaaaaaaaaaaaaaaaaaaaaaaaaaaaaaaaaaaaaaaaaaaaaaaaaaaaaaaaaaaaaaaaaaaaaaaaaaaaaaaaaaaaaaaaaaaaaaaaaaaaaaaaaaaaaaaaaaaaaaaaaaaaaaaaaaaaaaaaaaaaaaaaaaaaaaaaaaaaaaaaaaaaaaaaaaaaaaaaaaaaaaaaaaaaaaaaaaaaaaaaaaaaaaaaaaaaaaaaaaaaaaaaaaaaaa".

(** One pending item whose server answers 404. *)
Definition not_found : HttpResponse :=
  {| http_code := 404; http_size := 9; http_chunks := ["Not Found"] |}.

Definition env_404 : Env :=
  snd (addToDownloadQueue (sample_url 1) "clip"
         (set_http_server {[sample_url 1 := not_found]} env0)).

(** One pending item whose server answers 200 with two chunks. *)
Definition found_clip : HttpResponse :=
  {| http_code := 200; http_size := 8; http_chunks := ["ID3."; "data"] |}.

Definition env_200 : Env :=
  snd (addToDownloadQueue (sample_url 1) "clip"
         (set_http_server {[sample_url 1 := found_clip]} env0)).

(** Two locators whose final segments differ only after byte 63. *)
Definition long_name_mp3 : string :=
  "http://h/aaaaaaaaaaaaaaaaaaaaaaaaaaaaaaaaaaaaaaaaaaaaaaaaaaaaaaaaaaaaaaaaaaaaaa.mp3".
Definition long_name_wav : string :=
  "http://h/aaaaaaaaaaaaaaaaaaaaaaaaaaaaaaaaaaaaaaaaaaaaaaaaaaaaaaaaaaaaaaaaaaaaaa.wav".

(** A number reader for the examples: the leading decimal digits,
    saturating at [LONG_MAX] as [strtol] does. *)
Fixpoint digits_value (s : string) (acc : Z) : Z :=
  match s with
  | "" => acc
  | String c r =>
      let d := byte_of c - 48 in
      if (0 <=? d) && (d <=? 9) then digits_value r (10 * acc + d) else acc
  end.

Definition sample_toInt (s : string) : Z :=
  Z.min (digits_value s 0) 2147483647.

(** A codec for the examples: it knows the document with the single key
    123 and the empty document, and takes every other text for
    malformed. *)
Definition sample_entry : JsonEntry :=
  {| json_description := Some "A clip"; json_type := Some "audio";
     json_path := Some "https://x/a.mp3" |}.

Definition sample_root : list (string * JsonEntry) := [("123", sample_entry)].

Definition sample_text : string :=
  "{123:{description:A clip,type:audio,path:https://x/a.mp3}}".

Definition sample_deserialize (s : string)
    : option (list (string * JsonEntry)) :=
  if String.eqb s sample_text then Some sample_root
  else if String.eqb s "{}" then Some []
  else None.

Definition sample_serialize (records : list AudioFile) : string :=
  match records with
  | [] => "{}"
  | _ => sample_text
  end.

(** The registry holds the key 123. *)
Definition env_one_key : Env := snd (load_records sample_root env0).

(** The same registry when no card answers. *)
Definition env_no_card : Env := set_sd_begin false env_one_key.

(** The registry file on the card is cut off in the middle. *)
Definition env_bad_file : Env :=
  set_sd_files {[AUDIO_JSON_FILE := "{123:{descr"]} env_one_key.

(** The server answers the registry request with a cut-off document. *)
Definition env_bad_reply : Env :=
  set_http_server
    {[KNOWN_FILES_URL :=
        {| http_code := 200; http_size := 11;
           http_chunks := ["{123:"; "{descr"] |}]}
    env_one_key.

(** The server answers the registry request with the sample document. *)
Definition env_refresh : Env :=
  set_http_server
    {[KNOWN_FILES_URL :=
        {| http_code := 200; http_size := -1;
           http_chunks := [sample_text] |}]}
    env0.

(** The server answers the registry request with the empty document. *)
Definition env_refresh_empty : Env :=
  set_http_server
    {[KNOWN_FILES_URL :=
        {| http_code := 200; http_size := 2; http_chunks := ["{}"] |}]}
    env0.

(** The world of [env_refresh] with the clock past 2^31 ms (about 34.7
    days after start-up). *)
Definition env_refresh_late : Env := set_millis 3000000000 env_refresh.

(** The registry with the key 123, its clip on a server. *)
Definition env_resolve : Env :=
  set_http_server {["https://x/a.mp3" := found_clip]} env_one_key.

(** The same registry in front of a full queue. *)
Definition env_resolve_full : Env :=
  enqueue_all (map sample_url (seq 1 20)) env_resolve.

(** A registry whose only locator has no dot in its final segment. *)
Definition stream_entry : JsonEntry :=
  {| json_description := Some "A stream"; json_type := Some "audio";
     json_path := Some "https://x/stream" |}.

Definition env_stream : Env :=
  set_http_server {["https://x/stream" := found_clip]}
    (snd (load_records [("456", stream_entry)] env0)).

(** ** More of the manager *)

(** [hasAudioKey] *)
Definition hasAudioKey (key : string) (e : Env) : bool :=
  if bool_decide (knownSequenceCount e = 0)%nat then false
  else existsb (fun f => String.eqb (audioKey f) key)
         (take (knownSequenceCount e) (knownFiles e)).

(** [getAudioKeyCount] *)
Definition getAudioKeyCount (e : Env) : nat := knownSequenceCount e.

(** [SD.remove(path)]: a regular file is removed unless it is among the
    paths that cannot be written. *)
Definition SD_remove (p : string) : M bool := fun e =>
  match sd_files e !! p with
  | Some _ =>
      if bool_decide (p ∈ sd_readonly e) then (false, e)
      else (true, set_sd_files (delete p (sd_files e)) e)
  | None => (false, e)
  end.

(** [clearAudioKeys]; the two removal flags only choose a log line. *)
Definition clearAudioKeys : M unit :=
  modify (fun e => set_lastCacheTime 0 (set_knownSequenceCount 0 e)) ;;;
  ready <- initializeSDCard ;;
  if ready then
    sequences <- SD_exists AUDIO_JSON_FILE ;;
    sequencesRemoved <-
      (if sequences then SD_remove AUDIO_JSON_FILE else ret true) ;;
    timestamp <- SD_exists CACHE_TIMESTAMP_FILE ;;
    timestampRemoved <-
      (if timestamp then SD_remove CACHE_TIMESTAMP_FILE else ret true) ;;
    ret tt
  else ret tt.

Section RegistryLifecycle.

Variable deserializeJson : string -> option (list (string * JsonEntry)).
Variable String_toInt : string -> Z.

(** [initializeAudioFileManager]; [listAudioKeys] only prints. *)
Definition initializeAudioFileManager : M unit :=
  modify (fun e =>
    set_sdCardInitialized false
      (set_lastCacheTime 0 (set_knownSequenceCount 0 e))) ;;;
  loaded <- loadKnownSequencesFromSDCard deserializeJson String_toInt ;;
  if loaded then
    stale <- isCacheStale String_toInt ;;
    ret tt
  else ret tt.

End RegistryLifecycle.

(** The records of a document, as the loading loop stores them. *)
Definition records_of (root : list (string * JsonEntry)) : list AudioFile :=
  map (fun kv => record_of (fst kv) (snd kv)) root.

(** The registry: the records below [knownSequenceCount]. *)
Definition registry (e : Env) : list AudioFile :=
  take (knownSequenceCount e) (knownFiles e).

(** The card after an attempt to remove a file. *)
Definition unlink (p : string) (e : Env) : Env :=
  if bool_decide (p ∈ sd_readonly e) then e
  else set_sd_files (delete p (sd_files e)) e.

(** Whether a card answers [SD.begin] at start-up. *)
Definition card_present (e : Env) : bool :=
  sd_begin e && match sd_cardType e with CARD_NONE => false | _ => true end.

(** The module state at the start of [initializeAudioFileManager]. *)
Definition reset_manager (e : Env) : Env :=
  set_sdCardInitialized false
    (set_lastCacheTime 0 (set_knownSequenceCount 0 e)).

(** ** More notions used in the statements *)

(** The bytes the cleaning loop lets through. *)
Definition safe_char (c : ascii) : bool :=
  isalnum c || Ascii.eqb c "." || Ascii.eqb c "-" || Ascii.eqb c "_".

Fixpoint safe_name (s : string) : bool :=
  match s with
  | "" => true
  | String c r => safe_char c && safe_name r
  end.

(** The drive step called [n] times in a row, the world standing still. *)
Fixpoint drive (n : nat) (e : Env) : Env :=
  match n with
  | O => e
  | S n' => drive n' (snd (processDownloadQueue e))
  end.

(** The entries between the cursor and the count. *)
Definition pending (e : Env) : list AudioDownloadItem :=
  drop (downloadQueueIndex e) (take (downloadQueueCount e) (downloadQueue e)).

(** The status column of [listDownloadQueue]. *)
Inductive ItemStatus : Type := Downloaded | InProgress | Pending.

Definition item_status (i : nat) (e : Env) : ItemStatus :=
  if bool_decide (i < downloadQueueIndex e)%nat then Downloaded
  else if inProgress (downloadQueue e !!! i) then InProgress
  else Pending.

(** [listDownloadQueue]: the rows it prints, one per entry below the
    count, with status, description, locator and destination. *)
Definition listDownloadQueue (e : Env)
    : list (ItemStatus * AudioDownloadItem) :=
  if bool_decide (downloadQueueCount e = 0)%nat then []
  else map (fun i => (item_status i e, downloadQueue e !!! i))
           (seq 0 (downloadQueueCount e)).

(** ** The interface as a whole *)

(** The calls of the header that change the module state. *)
Inductive Call : Type :=
  | call_initializeAudioFileManager
  | call_downloadAudio
  | call_processAudioKey (key : string)
  | call_clearAudioKeys
  | call_processAudioDownloadQueue
  | call_clearDownloadQueue.

(** The statics of the module are the same in two environments: between
    two calls the world may change (clock, network, card, servers), the
    statics may not. *)
Definition same_statics (e e' : Env) : Prop :=
  knownFiles e' = knownFiles e
  /\ knownSequenceCount e' = knownSequenceCount e
  /\ lastCacheTime e' = lastCacheTime e
  /\ sdCardInitialized e' = sdCardInitialized e
  /\ downloadQueue e' = downloadQueue e
  /\ downloadQueueCount e' = downloadQueueCount e
  /\ downloadQueueIndex e' = downloadQueueIndex e
  /\ lastDownloadCheck e' = lastDownloadCheck e.

(** The statics as the loader leaves them: zeroed arrays and counters. *)
Definition booted (e : Env) : Prop :=
  knownFiles e = replicate MAX_KNOWN_SEQUENCES inhabitant
  /\ knownSequenceCount e = 0%nat
  /\ lastCacheTime e = 0
  /\ sdCardInitialized e = false
  /\ downloadQueue e = replicate MAX_DOWNLOAD_QUEUE inhabitant
  /\ downloadQueueCount e = 0%nat
  /\ downloadQueueIndex e = 0%nat
  /\ lastDownloadCheck e = 0.

(** What holds of the statics between calls. *)
Definition consistent (e : Env) : Prop :=
  (downloadQueueIndex e <= downloadQueueCount e <= MAX_DOWNLOAD_QUEUE)%nat
  /\ length (downloadQueue e) = MAX_DOWNLOAD_QUEUE
  /\ Forall (fun item => inProgress item = false) (downloadQueue e)
  /\ (knownSequenceCount e <= MAX_KNOWN_SEQUENCES)%nat
  /\ length (knownFiles e) = MAX_KNOWN_SEQUENCES.

Section Interface.

Variable deserializeJson : string -> option (list (string * JsonEntry)).
Variable serializeJson : list AudioFile -> string.
Variable String_toInt : string -> Z.

Definition run (c : Call) (e : Env) : Env :=
  match c with
  | call_initializeAudioFileManager =>
      snd (initializeAudioFileManager deserializeJson String_toInt e)
  | call_downloadAudio =>
      snd (downloadAudio deserializeJson serializeJson String_toInt e)
  | call_processAudioKey key => snd (processAudioKey key e)
  | call_clearAudioKeys => snd (clearAudioKeys e)
  | call_processAudioDownloadQueue => snd (processAudioDownloadQueue e)
  | call_clearDownloadQueue => snd (clearDownloadQueue e)
  end.

(** The environments a program can be in that only goes through the
    header. *)
Inductive reachable : Env -> Prop :=
  | reachable_boot e : booted e -> reachable e
  | reachable_call c e : reachable e -> reachable (run c e)
  | reachable_world e e' : reachable e -> same_statics e e' -> reachable e'.

End Interface.

(** ** More sample environments *)

(** A registry with a local clip, a record of another kind and a record
    without a locator. *)
Definition local_entry : JsonEntry :=
  {| json_description := Some "On the card"; json_type := Some "audio";
     json_path := Some "/local/a.mp3" |}.
Definition service_entry : JsonEntry :=
  {| json_description := Some "Operator"; json_type := Some "service";
     json_path := Some "https://x/operator" |}.
Definition bare_entry : JsonEntry :=
  {| json_description := None; json_type := None; json_path := None |}.

Definition env_kinds : Env :=
  snd (load_records
         [("123", local_entry); ("0", service_entry); ("9", bare_entry)]
         env0).

(** The registry with the key 123 saved on the card. *)
Definition env_saved : Env :=
  snd (saveKnownSequencesToSDCard sample_serialize env_one_key).

(** The same registry in memory, the mark file write-protected and holding
    an old mark. *)
Definition env_mark_locked : Env :=
  {| knownFiles := knownFiles env_one_key;
     knownSequenceCount := knownSequenceCount env_one_key;
     lastCacheTime := 7; sdCardInitialized := false;
     downloadQueue := downloadQueue env_one_key;
     downloadQueueCount := 0; downloadQueueIndex := 0;
     lastDownloadCheck := 0;
     wifi_connected := true; millis := 5000;
     sd_begin := true; sd_cardType := CARD_SDHC;
     sd_files := {[CACHE_TIMESTAMP_FILE := "7"]};
     sd_dirs := {[AUDIO_FILES_DIR]};
     sd_mkdir_ok := true; sd_readonly := {[CACHE_TIMESTAMP_FILE]};
     http_server := ∅; http_requests := [] |}.

(** The server answers the registry request with status 404. *)
Definition env_refresh_404 : Env :=
  set_http_server {[KNOWN_FILES_URL := not_found]} env_one_key.

(** A session on the sample world: refresh, resolve the key 123, let the
    queue run once. *)
Definition session : list Call :=
  [call_downloadAudio; call_processAudioKey "123";
   call_processAudioDownloadQueue].

Definition env_session : Env :=
  fold_left
    (fun e c => run sample_deserialize sample_serialize sample_toInt c e)
    session env_refresh.

(** * Player and game

    [src/src/audio_file_player.cpp] and the game of [src/src/main.ino] on
    top of the manager. The AudioTools player object is not part of the
    repository: its state is an abstract type and its methods are
    parameters, so every property holds for any behaviour of the library.
    The volume functions work on [float] and are left out. *)

(** [YES_SOUND_KEY], [NO_SOUND_KEY], [LOCKED_IN_SOUND_KEY],
    [GAME_TIMEOUT_MS] and the key numbers of main.ino. *)
Definition YES_SOUND_KEY : string := "yes".
Definition NO_SOUND_KEY : string := "no".
Definition LOCKED_IN_SOUND_KEY : string := "locked_in".
Definition GAME_TIMEOUT_MS : Z := 60000.
Definition PLAYER_1_YES : Z := 1.
Definition PLAYER_2_YES : Z := 2.
Definition PLAYER_1_NO : Z := 3.
Definition PLAYER_2_NO : Z := 4.

(** [struct ButtonPress] *)
Record ButtonPress := {
  timestamp : Z;
  value : bool;
  hasPressed : bool;
}.

(** [enum GameState] *)
Inductive GameState : Type :=
  | WAITING_FOR_PLAYERS
  | GAME_COMPLETE
  | PLAYING_SOUND.

(** The statics of the player and of the game next to those of the
    manager; [audioPlayer = None] is the null pointer. *)
Record App (AP : Type) := {
  manager : Env;
  audioPlayer : option AP;
  isPlayingAudio : bool;
  audioStartTime : Z;
  player1LastPress : ButtonPress;
  player2LastPress : ButtonPress;
  gameState : GameState;
  firstPressTime : Z;
}.

Arguments manager {AP} _.
Arguments audioPlayer {AP} _.
Arguments isPlayingAudio {AP} _.
Arguments audioStartTime {AP} _.
Arguments player1LastPress {AP} _.
Arguments player2LastPress {AP} _.
Arguments gameState {AP} _.
Arguments firstPressTime {AP} _.

(** [(long)x] of a 32-bit [unsigned long]. *)
Definition to_long (z : Z) : Z := if z <? 2 ^ 31 then z else z - 2 ^ 32.

(** [LONG_MIN] of the 32-bit [long]. *)
Definition LONG_MIN : Z := - 2 ^ 31.

(** [abs(x)] at [long]. The negation of [LONG_MIN] does not fit the
    type: a signed overflow, which the language leaves undefined. There is
    no result then. *)
Definition abs_long (x : Z) : option Z :=
  if x =? LONG_MIN then None else Some (Z.abs x).

(** [unsigned long timeDiff = abs((long)(a - b))]: the difference is taken
    over [unsigned long], read as a [long], and the absolute value is stored
    in an [unsigned long] again. *)
Definition timeDiff (a b : Z) : option Z :=
  match abs_long (to_long (wrap32 (a - b))) with
  | Some d => Some (wrap32 d)
  | None => None
  end.

Section PlayerAndGame.

Context {AP : Type}.

(** [AudioPlayer::playPath], [copy], [isActive], [end] of AudioTools and
    [kit.getKey] of the board. *)
Variable playPath : string -> AP -> AP.
Variable copy : AP -> AP.
Variable isActive : AP -> bool.
Variable player_end : AP -> AP.
Variable getKey : Z -> Z.

Definition set_manager (v : Env) (a : App AP) : App AP :=
  {| manager := v; audioPlayer := audioPlayer a;
     isPlayingAudio := isPlayingAudio a; audioStartTime := audioStartTime a;
     player1LastPress := player1LastPress a;
     player2LastPress := player2LastPress a;
     gameState := gameState a; firstPressTime := firstPressTime a |}.

Definition set_audioPlayer (v : option AP) (a : App AP) : App AP :=
  {| manager := manager a; audioPlayer := v;
     isPlayingAudio := isPlayingAudio a; audioStartTime := audioStartTime a;
     player1LastPress := player1LastPress a;
     player2LastPress := player2LastPress a;
     gameState := gameState a; firstPressTime := firstPressTime a |}.

Definition set_isPlayingAudio (v : bool) (a : App AP) : App AP :=
  {| manager := manager a; audioPlayer := audioPlayer a;
     isPlayingAudio := v; audioStartTime := audioStartTime a;
     player1LastPress := player1LastPress a;
     player2LastPress := player2LastPress a;
     gameState := gameState a; firstPressTime := firstPressTime a |}.

Definition set_audioStartTime (v : Z) (a : App AP) : App AP :=
  {| manager := manager a; audioPlayer := audioPlayer a;
     isPlayingAudio := isPlayingAudio a; audioStartTime := v;
     player1LastPress := player1LastPress a;
     player2LastPress := player2LastPress a;
     gameState := gameState a; firstPressTime := firstPressTime a |}.

Definition set_player1LastPress (v : ButtonPress) (a : App AP) : App AP :=
  {| manager := manager a; audioPlayer := audioPlayer a;
     isPlayingAudio := isPlayingAudio a; audioStartTime := audioStartTime a;
     player1LastPress := v; player2LastPress := player2LastPress a;
     gameState := gameState a; firstPressTime := firstPressTime a |}.

Definition set_player2LastPress (v : ButtonPress) (a : App AP) : App AP :=
  {| manager := manager a; audioPlayer := audioPlayer a;
     isPlayingAudio := isPlayingAudio a; audioStartTime := audioStartTime a;
     player1LastPress := player1LastPress a; player2LastPress := v;
     gameState := gameState a; firstPressTime := firstPressTime a |}.

Definition set_gameState (v : GameState) (a : App AP) : App AP :=
  {| manager := manager a; audioPlayer := audioPlayer a;
     isPlayingAudio := isPlayingAudio a; audioStartTime := audioStartTime a;
     player1LastPress := player1LastPress a;
     player2LastPress := player2LastPress a;
     gameState := v; firstPressTime := firstPressTime a |}.

Definition set_firstPressTime (v : Z) (a : App AP) : App AP :=
  {| manager := manager a; audioPlayer := audioPlayer a;
     isPlayingAudio := isPlayingAudio a; audioStartTime := audioStartTime a;
     player1LastPress := player1LastPress a;
     player2LastPress := player2LastPress a;
     gameState := gameState a; firstPressTime := v |}.

(** [startAudioPlayback] *)
Definition startAudioPlayback (filePath : string) (a : App AP)
    : bool * App AP :=
  match audioPlayer a with
  | None => (false, a)
  | Some player =>
      if isPlayingAudio a then (false, a)
      else
        (true,
         set_audioStartTime (millis (manager a))
           (set_isPlayingAudio true
              (set_audioPlayer (Some (playPath filePath player)) a)))
  end.

(** [stopAudioPlayback] *)
Definition stopAudioPlayback (a : App AP) : App AP :=
  match audioPlayer a with
  | None => a
  | Some player =>
      let a1 :=
        if isActive player then set_audioPlayer (Some (player_end player)) a
        else a in
      if negb (isPlayingAudio a1) then a1 else set_isPlayingAudio false a1
  end.

(** [isAudioPlaying] *)
Definition isAudioPlaying (a : App AP) : bool := isPlayingAudio a.

(** [processAudioFile] *)
Definition processAudioFile (a : App AP) : bool * App AP :=
  match audioPlayer a with
  | None => (false, a)
  | Some player =>
      if negb (isPlayingAudio a) then (false, a)
      else
        let a1 := set_audioPlayer (Some (copy player)) a in
        if negb (isActive (copy player)) then (false, stopAudioPlayback a1)
        else (true, a1)
  end.

(** [playAudioByKey] *)
Definition playAudioByKey (key : string) (a : App AP) : bool * App AP :=
  if negb (hasAudioKey key (manager a)) then (false, a)
  else
    let (filePath, e') := processAudioKey key (manager a) in
    let a1 := set_manager e' a in
    match filePath with
    | None => (false, a1)
    | Some p => startAudioPlayback p a1
    end.

(** [resetGame] *)
Definition resetGame (a : App AP) : App AP :=
  set_gameState WAITING_FOR_PLAYERS
    (set_firstPressTime 0
       (set_player2LastPress
          {| timestamp := 0; value := false; hasPressed := false |}
          (set_player1LastPress
             {| timestamp := 0; value := false; hasPressed := false |} a))).

(** [buttonPressed]; the [active] flag and [ptr] are not read. *)
Definition buttonPressed (active : bool) (pin : Z) (a : App AP) : App AP :=
  match gameState a with
  | PLAYING_SOUND => a
  | _ =>
      let now := millis (manager a) in
      let wasFirstPress :=
        negb (hasPressed (player1LastPress a))
        && negb (hasPressed (player2LastPress a)) in
      let a1 := if wasFirstPress then set_firstPressTime now a else a in
      let a2 :=
        if getKey PLAYER_1_YES =? pin then
          set_player1LastPress
            {| timestamp := now; value := true; hasPressed := true |} a1
        else if getKey PLAYER_2_YES =? pin then
          set_player2LastPress
            {| timestamp := now; value := true; hasPressed := true |} a1
        else if getKey PLAYER_1_NO =? pin then
          set_player1LastPress
            {| timestamp := now; value := false; hasPressed := true |} a1
        else if getKey PLAYER_2_NO =? pin then
          set_player2LastPress
            {| timestamp := now; value := false; hasPressed := true |} a1
        else a1 in
      if wasFirstPress
         && negb (hasPressed (player1LastPress a2)
                  && hasPressed (player2LastPress a2))
      then snd (playAudioByKey LOCKED_IN_SOUND_KEY a2)
      else a2
  end.

(** [processGame]. The result is [None] where the behaviour of the
    function is undefined: both players said yes and [abs] is applied to
    [LONG_MIN]. *)
Definition processGame (a : App AP) : option (App AP) :=
  match gameState a with
  | WAITING_FOR_PLAYERS =>
      if hasPressed (player1LastPress a) && hasPressed (player2LastPress a)
      then
        let a1 :=
          if negb (value (player1LastPress a))
             || negb (value (player2LastPress a))
          then Some (snd (playAudioByKey NO_SOUND_KEY a))
          else
            match timeDiff (timestamp (player1LastPress a))
                           (timestamp (player2LastPress a)) with
            | None => None
            | Some d =>
                if d <=? GAME_TIMEOUT_MS
                then Some (snd (playAudioByKey YES_SOUND_KEY a))
                else Some (snd (playAudioByKey NO_SOUND_KEY a))
            end in
        match a1 with
        | Some a2 => Some (set_gameState PLAYING_SOUND a2)
        | None => None
        end
      else if (hasPressed (player1LastPress a)
               || hasPressed (player2LastPress a))
              && (0 <? firstPressTime a)
      then
        let elapsed := wrap32 (millis (manager a) - firstPressTime a) in
        if GAME_TIMEOUT_MS <? elapsed
        then Some (set_gameState PLAYING_SOUND
                     (snd (playAudioByKey NO_SOUND_KEY a)))
        else Some a
      else Some a
  | PLAYING_SOUND => Some (if negb (isAudioPlaying a) then resetGame a else a)
  | GAME_COMPLETE => Some a
  end.

(** The sound [processGame] asks for when both players have answered:
    the key handed to [playAudioByKey] on each path of that branch, and
    none where the branch has no defined behaviour. *)
Definition verdict (a : App AP) : option string :=
  if negb (value (player1LastPress a)) || negb (value (player2LastPress a))
  then Some NO_SOUND_KEY
  else
    match timeDiff (timestamp (player1LastPress a))
                   (timestamp (player2LastPress a)) with
    | None => None
    | Some d => Some (if d <=? GAME_TIMEOUT_MS then YES_SOUND_KEY
                      else NO_SOUND_KEY)
    end.

End PlayerAndGame.

(** The distance of two readings of the 32-bit clock, the shorter way
    round. *)
Definition clock_distance (a b : Z) : Z :=
  Z.min (wrap32 (a - b)) (wrap32 (b - a)).

(** The game statics are the same in two states. *)
Definition same_game {AP} (a a' : App AP) : Prop :=
  player1LastPress a' = player1LastPress a
  /\ player2LastPress a' = player2LastPress a
  /\ gameState a' = gameState a
  /\ firstPressTime a' = firstPressTime a.

(** The player statics are the same in two states. *)
Definition same_player {AP} (a a' : App AP) : Prop :=
  audioPlayer a' = audioPlayer a
  /\ isPlayingAudio a' = isPlayingAudio a
  /\ audioStartTime a' = audioStartTime a.

(** ** A sample player and sample games *)

(** A stand-in for the library: a track lasts two copies. *)
Record Deck := { deck_track : option string; deck_frames : nat }.

Definition deck_playPath (p : string) (k : Deck) : Deck :=
  {| deck_track := Some p; deck_frames := 2 |}.
Definition deck_copy (k : Deck) : Deck :=
  {| deck_track := deck_track k; deck_frames := pred (deck_frames k) |}.
Definition deck_isActive (k : Deck) : bool :=
  bool_decide (0 < deck_frames k)%nat.
Definition deck_end (k : Deck) : Deck :=
  {| deck_track := deck_track k; deck_frames := 0 |}.
Definition board_getKey (k : Z) : Z := 30 + k.

Definition sound (p : string) : JsonEntry :=
  {| json_description := Some "Game sound"; json_type := Some "audio";
     json_path := Some p |}.

(** The three game sounds as local files. *)
Definition env_sounds : Env :=
  snd (load_records
         [(YES_SOUND_KEY, sound "/sounds/yes.mp3");
          (NO_SOUND_KEY, sound "/sounds/no.mp3");
          (LOCKED_IN_SOUND_KEY, sound "/sounds/locked.mp3")] env0).

Definition no_press : ButtonPress :=
  {| timestamp := 0; value := false; hasPressed := false |}.

(** A fresh round. *)
Definition app_fresh : App Deck :=
  {| manager := env_sounds;
     audioPlayer := Some {| deck_track := None; deck_frames := 0 |};
     isPlayingAudio := false; audioStartTime := 0;
     player1LastPress := no_press; player2LastPress := no_press;
     gameState := WAITING_FOR_PLAYERS; firstPressTime := 0 |}.

(** Both players said yes, 796 ms apart across the wraparound of the
    clock. *)
Definition app_both_yes : App Deck :=
  {| manager := set_millis 600 env_sounds;
     audioPlayer := Some {| deck_track := None; deck_frames := 0 |};
     isPlayingAudio := false; audioStartTime := 0;
     player1LastPress :=
       {| timestamp := 4294967000; value := true; hasPressed := true |};
     player2LastPress :=
       {| timestamp := 500; value := true; hasPressed := true |};
     gameState := WAITING_FOR_PLAYERS; firstPressTime := 4294967000 |}.

(** Both players said yes, half the clock circle apart. *)
Definition app_half_circle : App Deck :=
  {| manager := set_millis 2147484200 env_sounds;
     audioPlayer := Some {| deck_track := None; deck_frames := 0 |};
     isPlayingAudio := false; audioStartTime := 0;
     player1LastPress :=
       {| timestamp := 2147484148; value := true; hasPressed := true |};
     player2LastPress :=
       {| timestamp := 500; value := true; hasPressed := true |};
     gameState := WAITING_FOR_PLAYERS; firstPressTime := 500 |}.

(** The YES sound of [app_both_yes] has been started. *)
Definition app_yes_playing : App Deck :=
  set_gameState PLAYING_SOUND
    (snd (playAudioByKey deck_playPath YES_SOUND_KEY app_both_yes)).

(** Player 1 said yes at 5000, the clock shows 70000. *)
Definition app_one_late : App Deck :=
  {| manager := set_millis 70000 env_sounds;
     audioPlayer := Some {| deck_track := None; deck_frames := 0 |};
     isPlayingAudio := false; audioStartTime := 0;
     player1LastPress :=
       {| timestamp := 5000; value := true; hasPressed := true |};
     player2LastPress := no_press;
     gameState := WAITING_FOR_PLAYERS; firstPressTime := 5000 |}.

(** * The log buffer

    [LoggerClass] of [src/unnamed/part_000] (logging.cpp, with the sizes of
    logging.h): a [Print] that forwards to the serial port and keeps the
    last lines in a ring of [LOG_BUFFER_SIZE] messages. *)

Definition LOG_BUFFER_SIZE : nat := 100.
Definition MAX_LOG_MESSAGE_LENGTH : nat := 256.

(** The object. [serialPrint] is [None] for the null pointer and holds
    what the attached [Print] has been sent otherwise. [messageBuffer] is
    the content of the first [bufferPos] bytes of the array (the byte
    after them is the NUL the code keeps there). [log_millis] is the
    clock. *)
Record LoggerClass := {
  serialPrint : option string;
  logBuffer : list string;
  logIndex : nat;
  logCount : nat;
  messageBuffer : string;
  log_millis : Z;
}.

Definition bufferPos (l : LoggerClass) : nat := strlen (messageBuffer l).

(** [String] of a character array: the bytes before the first NUL. *)
Fixpoint c_str (s : string) : string :=
  match s with
  | "" => ""
  | String c r => if Ascii.eqb c "000" then "" else String c (c_str r)
  end.

(** [byte == '\n' || byte == '\r'] *)
Definition is_newline (c : ascii) : bool :=
  Ascii.eqb c "010" || Ascii.eqb c "013".

Definition set_logEntries (buffer : list string) (index count : nat)
    (l : LoggerClass) : LoggerClass :=
  {| serialPrint := serialPrint l; logBuffer := buffer; logIndex := index;
     logCount := count; messageBuffer := messageBuffer l;
     log_millis := log_millis l |}.

Definition set_messageBuffer (v : string) (l : LoggerClass) : LoggerClass :=
  {| serialPrint := serialPrint l; logBuffer := logBuffer l;
     logIndex := logIndex l; logCount := logCount l; messageBuffer := v;
     log_millis := log_millis l |}.

Definition set_serialPrint (v : option string) (l : LoggerClass)
    : LoggerClass :=
  {| serialPrint := v; logBuffer := logBuffer l; logIndex := logIndex l;
     logCount := logCount l; messageBuffer := messageBuffer l;
     log_millis := log_millis l |}.

(** The constructor. *)
Definition Logger_new (now : Z) : LoggerClass :=
  {| serialPrint := None; logBuffer := replicate LOG_BUFFER_SIZE "";
     logIndex := 0; logCount := 0; messageBuffer := ""; log_millis := now |}.

(** [addLogger]; [sent] is what the object has been sent so far. *)
Definition addLogger (sent : string) (l : LoggerClass) : LoggerClass :=
  set_serialPrint (Some sent) l.

(** [addMessageToBuffer] *)
Definition addMessageToBuffer (message : string) (l : LoggerClass)
    : LoggerClass :=
  set_logEntries (<[logIndex l := message]> (logBuffer l))
    ((logIndex l + 1) mod LOG_BUFFER_SIZE)
    (if bool_decide (logCount l < LOG_BUFFER_SIZE)%nat then S (logCount l)
     else logCount l)
    l.

(** [String(millis()) + "ms: " + String(messageBuffer)] *)
Definition timestamped (now : Z) (text : string) : string :=
  print_ulong now +:+ "ms: " +:+ c_str text.

(** The buffering half of [write(uint8_t)]. *)
Definition buffer_byte (byte : ascii) (l : LoggerClass) : LoggerClass :=
  if bool_decide (bufferPos l < MAX_LOG_MESSAGE_LENGTH - 1)%nat then
    let l1 := set_messageBuffer (messageBuffer l +:+ String byte "") l in
    if is_newline byte then
      let l2 :=
        if bool_decide (1 < bufferPos l1)%nat then
          addMessageToBuffer
            (timestamped (log_millis l1)
               (strtake (bufferPos l1 - 1) (messageBuffer l1)))
            l1
        else l1 in
      set_messageBuffer "" l2
    else l1
  else
    set_messageBuffer (String byte "")
      (addMessageToBuffer (timestamped (log_millis l) (messageBuffer l)) l).

(** [write(uint8_t)]; the attached object is taken to accept the byte
    and answer 1. *)
Definition write (byte : ascii) (l : LoggerClass) : nat * LoggerClass :=
  let (result, l1) :=
    match serialPrint l with
    | Some sent => (1%nat, set_serialPrint (Some (sent +:+ String byte "")) l)
    | None => (0%nat, l)
    end in
  (result, buffer_byte byte l1).

(** The loop of the block [write], its body written out as in the
    source. *)
Fixpoint write_loop (buffer : string) (l : LoggerClass) : LoggerClass :=
  match buffer with
  | "" => l
  | String byte rest =>
      write_loop rest
        (if bool_decide (bufferPos l < MAX_LOG_MESSAGE_LENGTH - 1)%nat then
           let l1 := set_messageBuffer (messageBuffer l +:+ String byte "") l in
           if is_newline byte then
             let l2 :=
               if bool_decide (1 < bufferPos l1)%nat then
                 addMessageToBuffer
                   (timestamped (log_millis l1)
                      (strtake (bufferPos l1 - 1) (messageBuffer l1)))
                   l1
               else l1 in
             set_messageBuffer "" l2
           else l1
         else
           set_messageBuffer (String byte "")
             (addMessageToBuffer
                (timestamped (log_millis l) (messageBuffer l)) l))
  end.

(** [write] of a block of [size] bytes. *)
Definition write_block (buffer : string) (l : LoggerClass)
    : nat * LoggerClass :=
  let (result, l1) :=
    match serialPrint l with
    | Some sent => (strlen buffer, set_serialPrint (Some (sent +:+ buffer)) l)
    | None => (0%nat, l)
    end in
  (result, write_loop buffer l1).

(** The messages in the order of the loops of [getLogsAsHtml] and
    [getLogsAsJson]. *)
Definition log_order (l : LoggerClass) : list string :=
  let start :=
    if bool_decide (logCount l < LOG_BUFFER_SIZE)%nat then 0%nat
    else logIndex l in
  map (fun i =>
         logBuffer l !!! ((start + logCount l - 1 - i) mod LOG_BUFFER_SIZE)%nat)
      (seq 0 (logCount l)).

(** [clearLogs] *)
Definition clearLogs (l : LoggerClass) : LoggerClass :=
  set_messageBuffer "" (set_logEntries (logBuffer l) 0 0 l).

(** [getLogCount] *)
Definition getLogCount (l : LoggerClass) : nat := logCount l.

(** One byte after the other through [write(uint8_t)]. *)
Fixpoint write_each (buffer : string) (l : LoggerClass) : LoggerClass :=
  match buffer with
  | "" => l
  | String byte rest => write_each rest (snd (write byte l))
  end.

(** What holds of a logger between calls. *)
Definition ring_ok (l : LoggerClass) : Prop :=
  length (logBuffer l) = LOG_BUFFER_SIZE
  /\ (logIndex l < LOG_BUFFER_SIZE)%nat
  /\ (logCount l <= LOG_BUFFER_SIZE)%nat
  /\ ((logCount l < LOG_BUFFER_SIZE)%nat -> logIndex l = logCount l)
  /\ (bufferPos l < MAX_LOG_MESSAGE_LENGTH)%nat.

(** No line end in a text. *)
Fixpoint one_line (s : string) : bool :=
  match s with
  | "" => true
  | String c r => negb (is_newline c) && one_line r
  end.

(** The calls on the logger, and the clock moving. *)
Inductive LogCall : Type :=
  | log_addLogger (sent : string)
  | log_write (byte : ascii)
  | log_write_block (buffer : string)
  | log_clearLogs
  | log_clock (now : Z).

Definition log_run (c : LogCall) (l : LoggerClass) : LoggerClass :=
  match c with
  | log_addLogger sent => addLogger sent l
  | log_write byte => snd (write byte l)
  | log_write_block buffer => snd (write_block buffer l)
  | log_clearLogs => clearLogs l
  | log_clock now =>
      {| serialPrint := serialPrint l; logBuffer := logBuffer l;
         logIndex := logIndex l; logCount := logCount l;
         messageBuffer := messageBuffer l; log_millis := now |}
  end.

(** A logger whose ring has been through the hundredth message twice and
    a fresh one with the serial port attached. *)
Definition numbered (n : nat) : list string := map dec (seq 1 n).

Definition logger_wrapped : LoggerClass :=
  fold_left (fun l m => addMessageToBuffer m l) (numbered 250)
    (Logger_new 0).

Definition logger_serial : LoggerClass := addLogger "" (Logger_new 1234).

(** * The WiFi loop

    [handleWiFiLoop], [startConfigPortalSafe], [connectToWiFi] and
    [initWiFi] of [src/src/wifi_manager.cpp]. The radio, the stored
    credentials and the services (DNS, web server, OTA) are the world:
    the radio by its mode and status, the services by the trace of the
    calls made to them. Log output is not modelled. *)

Inductive WiFiMode : Type := WIFI_OFF | WIFI_STA | WIFI_AP | WIFI_AP_STA.

Inductive WifiEvent : Type :=
  | ev_portal_request          (* dnsServer.processNextRequest(); server.handleClient() *)
  | ev_portal_reminder         (* the five-minute reminder *)
  | ev_connected_callback      (* wifiConnectedCallback() *)
  | ev_ota_begin               (* ArduinoOTA.begin() *)
  | ev_ota_end                 (* ArduinoOTA.end() *)
  | ev_ota_handle              (* ArduinoOTA.handle() *)
  | ev_wifi_begin (ssid : string)  (* WiFi.begin(ssid, password) *)
  | ev_server_begin.           (* dnsServer.start(...); server.begin() *)

(** The statics of the module and of [handleWiFiLoop], then the world:
    the mode and status of the radio, the clock, the stored SSID (empty
    when none is stored, [None] when the preferences cannot be opened),
    the answers the radio will give to [WiFi.mode(WIFI_AP)] and to
    [WiFi.softAP] in turn (a refusal when none is left), and the trace.
    The mode of the radio changes through [WiFi.mode] only. *)
Record Wifi := {
  isConfigMode : bool;
  portalStartTime : Z;
  wifiConnectedCallback : bool;
  connectionLogged : bool;
  otaStarted : bool;
  connectionStartTime : Z;
  radio_mode : WiFiMode;
  radio_connected : bool;
  radio_millis : Z;
  stored_ssid : option string;
  mode_AP_answers : list bool;
  softAP_answers : list bool;
  wifi_events : list WifiEvent;
}.

Definition set_isConfigMode (v : bool) (w : Wifi) : Wifi :=
  {| isConfigMode := v; portalStartTime := portalStartTime w;
     wifiConnectedCallback := wifiConnectedCallback w;
     connectionLogged := connectionLogged w; otaStarted := otaStarted w;
     connectionStartTime := connectionStartTime w;
     radio_mode := radio_mode w; radio_connected := radio_connected w;
     radio_millis := radio_millis w; stored_ssid := stored_ssid w;
     mode_AP_answers := mode_AP_answers w;
     softAP_answers := softAP_answers w; wifi_events := wifi_events w |}.

Definition set_portalStartTime (v : Z) (w : Wifi) : Wifi :=
  {| isConfigMode := isConfigMode w; portalStartTime := v;
     wifiConnectedCallback := wifiConnectedCallback w;
     connectionLogged := connectionLogged w; otaStarted := otaStarted w;
     connectionStartTime := connectionStartTime w;
     radio_mode := radio_mode w; radio_connected := radio_connected w;
     radio_millis := radio_millis w; stored_ssid := stored_ssid w;
     mode_AP_answers := mode_AP_answers w;
     softAP_answers := softAP_answers w; wifi_events := wifi_events w |}.

Definition set_wifiConnectedCallback (v : bool) (w : Wifi) : Wifi :=
  {| isConfigMode := isConfigMode w; portalStartTime := portalStartTime w;
     wifiConnectedCallback := v;
     connectionLogged := connectionLogged w; otaStarted := otaStarted w;
     connectionStartTime := connectionStartTime w;
     radio_mode := radio_mode w; radio_connected := radio_connected w;
     radio_millis := radio_millis w; stored_ssid := stored_ssid w;
     mode_AP_answers := mode_AP_answers w;
     softAP_answers := softAP_answers w; wifi_events := wifi_events w |}.

Definition set_connectionLogged (v : bool) (w : Wifi) : Wifi :=
  {| isConfigMode := isConfigMode w; portalStartTime := portalStartTime w;
     wifiConnectedCallback := wifiConnectedCallback w;
     connectionLogged := v; otaStarted := otaStarted w;
     connectionStartTime := connectionStartTime w;
     radio_mode := radio_mode w; radio_connected := radio_connected w;
     radio_millis := radio_millis w; stored_ssid := stored_ssid w;
     mode_AP_answers := mode_AP_answers w;
     softAP_answers := softAP_answers w; wifi_events := wifi_events w |}.

Definition set_otaStarted (v : bool) (w : Wifi) : Wifi :=
  {| isConfigMode := isConfigMode w; portalStartTime := portalStartTime w;
     wifiConnectedCallback := wifiConnectedCallback w;
     connectionLogged := connectionLogged w; otaStarted := v;
     connectionStartTime := connectionStartTime w;
     radio_mode := radio_mode w; radio_connected := radio_connected w;
     radio_millis := radio_millis w; stored_ssid := stored_ssid w;
     mode_AP_answers := mode_AP_answers w;
     softAP_answers := softAP_answers w; wifi_events := wifi_events w |}.

Definition set_connectionStartTime (v : Z) (w : Wifi) : Wifi :=
  {| isConfigMode := isConfigMode w; portalStartTime := portalStartTime w;
     wifiConnectedCallback := wifiConnectedCallback w;
     connectionLogged := connectionLogged w; otaStarted := otaStarted w;
     connectionStartTime := v;
     radio_mode := radio_mode w; radio_connected := radio_connected w;
     radio_millis := radio_millis w; stored_ssid := stored_ssid w;
     mode_AP_answers := mode_AP_answers w;
     softAP_answers := softAP_answers w; wifi_events := wifi_events w |}.

(** The world side: the radio, the clock, the answers, the trace. *)
Definition set_radio (mode : WiFiMode) (connected : bool) (w : Wifi) : Wifi :=
  {| isConfigMode := isConfigMode w; portalStartTime := portalStartTime w;
     wifiConnectedCallback := wifiConnectedCallback w;
     connectionLogged := connectionLogged w; otaStarted := otaStarted w;
     connectionStartTime := connectionStartTime w;
     radio_mode := mode; radio_connected := connected;
     radio_millis := radio_millis w; stored_ssid := stored_ssid w;
     mode_AP_answers := mode_AP_answers w;
     softAP_answers := softAP_answers w; wifi_events := wifi_events w |}.

Definition set_radio_millis (v : Z) (w : Wifi) : Wifi :=
  {| isConfigMode := isConfigMode w; portalStartTime := portalStartTime w;
     wifiConnectedCallback := wifiConnectedCallback w;
     connectionLogged := connectionLogged w; otaStarted := otaStarted w;
     connectionStartTime := connectionStartTime w;
     radio_mode := radio_mode w; radio_connected := radio_connected w;
     radio_millis := v; stored_ssid := stored_ssid w;
     mode_AP_answers := mode_AP_answers w;
     softAP_answers := softAP_answers w; wifi_events := wifi_events w |}.

Definition set_answers (mode_AP softAP : list bool) (w : Wifi) : Wifi :=
  {| isConfigMode := isConfigMode w; portalStartTime := portalStartTime w;
     wifiConnectedCallback := wifiConnectedCallback w;
     connectionLogged := connectionLogged w; otaStarted := otaStarted w;
     connectionStartTime := connectionStartTime w;
     radio_mode := radio_mode w; radio_connected := radio_connected w;
     radio_millis := radio_millis w; stored_ssid := stored_ssid w;
     mode_AP_answers := mode_AP; softAP_answers := softAP;
     wifi_events := wifi_events w |}.

Definition emit (ev : WifiEvent) (w : Wifi) : Wifi :=
  {| isConfigMode := isConfigMode w; portalStartTime := portalStartTime w;
     wifiConnectedCallback := wifiConnectedCallback w;
     connectionLogged := connectionLogged w; otaStarted := otaStarted w;
     connectionStartTime := connectionStartTime w;
     radio_mode := radio_mode w; radio_connected := radio_connected w;
     radio_millis := radio_millis w; stored_ssid := stored_ssid w;
     mode_AP_answers := mode_AP_answers w;
     softAP_answers := softAP_answers w;
     wifi_events := wifi_events w ++ [ev] |}.

(** [delay(ms)]: the clock moves on by [ms]. *)
Definition delay (ms : Z) (w : Wifi) : Wifi :=
  set_radio_millis (wrap32 (radio_millis w + ms)) w.

(** [startOTA], [stopOTA] *)
Definition startOTA (w : Wifi) : Wifi := emit ev_ota_begin w.
Definition stopOTA (w : Wifi) : Wifi := emit ev_ota_end w.

(** [connectToWiFi]: the connection is only started; the result is
    [false] on every path. *)
Definition connectToWiFi (w : Wifi) : bool * Wifi :=
  match stored_ssid w with
  | None => (false, w)
  | Some ssid =>
      if bool_decide (strlen ssid = 0)%nat then (false, w)
      else
        (false,
         emit (ev_wifi_begin ssid) (set_radio WIFI_STA (radio_connected w) w))
  end.

(** [initWiFi] *)
Definition initWiFi (onConnected : bool) (w : Wifi) : Wifi :=
  set_isConfigMode false
    (snd (connectToWiFi (set_wifiConnectedCallback onConnected w))).

(** [for (retry = 0; retry < 3; retry++)] around [WiFi.mode(WIFI_AP)]:
    [left] tries are left; a refused try costs a second. *)
Fixpoint mode_AP_loop (left : nat) (w : Wifi) : bool * Wifi :=
  match left with
  | O => (false, w)
  | S left' =>
      match mode_AP_answers w with
      | true :: answers =>
          (true,
           set_radio WIFI_AP (radio_connected w)
             (set_answers answers (softAP_answers w) w))
      | false :: answers =>
          mode_AP_loop left'
            (delay 1000 (set_answers answers (softAP_answers w) w))
      | [] => mode_AP_loop left' (delay 1000 w)
      end
  end.

(** The same loop around [WiFi.softAP]; success sets [isConfigMode]. *)
Fixpoint softAP_loop (left : nat) (w : Wifi) : bool * Wifi :=
  match left with
  | O => (false, w)
  | S left' =>
      match softAP_answers w with
      | true :: answers =>
          (true,
           set_isConfigMode true (set_answers (mode_AP_answers w) answers w))
      | false :: answers =>
          softAP_loop left'
            (delay 1000 (set_answers (mode_AP_answers w) answers w))
      | [] => softAP_loop left' (delay 1000 w)
      end
  end.

(** [startConfigPortalSafe] *)
Definition startConfigPortalSafe (w : Wifi) : bool * Wifi :=
  let w1 := delay 2000 (set_radio WIFI_OFF false w) in
  let (mode_ok, w2) := mode_AP_loop 3 w1 in
  if negb mode_ok then (false, w2)
  else
    let (ap_ok, w3) := softAP_loop 3 (delay 1000 w2) in
    if negb ap_ok then (false, w3)
    else (true, emit ev_server_begin (delay 1000 w3)).

(** [handleWiFiLoop] *)
Definition handleWiFiLoop (w : Wifi) : Wifi :=
  let w1 :=
    if isConfigMode w then
      let w2 := emit ev_portal_request w in
      let w3 :=
        if negb (otaStarted w2) then set_otaStarted true (startOTA w2)
        else w2 in
      if (0 <? portalStartTime w3)
         && (wrap32 (radio_millis w3 - portalStartTime w3) mod 300000 =? 0)
      then emit ev_portal_reminder w3
      else w3
    else
      match radio_mode w with
      | WIFI_STA =>
          if radio_connected w && negb (connectionLogged w) then
            let w2 :=
              if wifiConnectedCallback w then emit ev_connected_callback w
              else w in
            let w3 :=
              if negb (otaStarted w2) then set_otaStarted true (startOTA w2)
              else w2 in
            set_connectionLogged true w3
          else if negb (radio_connected w) && (connectionStartTime w =? 0)
          then set_connectionStartTime (radio_millis w) w
          else if negb (radio_connected w) && (0 <? connectionStartTime w)
                  && (30000 <? wrap32 (radio_millis w - connectionStartTime w))
          then
            let w2 :=
              if otaStarted w then set_otaStarted false (stopOTA w) else w in
            let w3 := set_connectionLogged false
                        (set_connectionStartTime 0 w2) in
            let (started, w4) := startConfigPortalSafe w3 in
            if started then set_portalStartTime (radio_millis w4) w4 else w4
          else w
      | _ => w
      end in
  if otaStarted w1 && (radio_connected w1 || isConfigMode w1)
  then emit ev_ota_handle w1
  else w1.

(** The world between two calls of the loop: the status of the radio and
    the clock change, nothing else does. *)
Definition radio_step (connected : bool) (now : Z) (w : Wifi) : Wifi :=
  set_radio_millis now (set_radio (radio_mode w) connected w).

(** The loop called once for each reading of the world. *)
Definition wifi_loops (readings : list (bool * Z)) (w : Wifi) : Wifi :=
  fold_left (fun w r => handleWiFiLoop (radio_step (fst r) (snd r) w))
    readings w.

(** The module after [initWiFi] with stored credentials. *)
Definition wifi_boot : Wifi :=
  initWiFi true
    {| isConfigMode := false; portalStartTime := 0;
       wifiConnectedCallback := false; connectionLogged := false;
       otaStarted := false; connectionStartTime := 0;
       radio_mode := WIFI_OFF; radio_connected := false; radio_millis := 5000;
       stored_ssid := Some "home"; mode_AP_answers := [false; true];
       softAP_answers := [true]; wifi_events := [] |}.

(** What a start of the portal leaves alone. *)
Definition same_link (w w' : Wifi) : Prop :=
  portalStartTime w' = portalStartTime w
  /\ wifiConnectedCallback w' = wifiConnectedCallback w
  /\ connectionLogged w' = connectionLogged w
  /\ otaStarted w' = otaStarted w
  /\ connectionStartTime w' = connectionStartTime w.

(** The loop has nothing left to do: no portal, no station mode, no
    OTA. *)
Definition wifi_idle (w : Wifi) : Prop :=
  isConfigMode w = false /\ radio_mode w <> WIFI_STA /\ otaStarted w = false.

(** The connection comes up three seconds after the first loop and is
    found down at 40 s. *)
Definition wifi_dropped : Wifi :=
  radio_step false 40000 (wifi_loops [(false, 6000); (true, 8000)] wifi_boot).

(** * Properties *)

(** Closed facts about the sample environments are settled by evaluating
    the model. *)
Ltac by_computation :=
  cbv zeta; repeat match goal with |- _ /\ _ => split end;
  vm_compute; reflexivity.

Example urlFilename_ex : urlFilename "https://x/a.mp3" = "a.mp3".
Proof. reflexivity. Qed.
Example clean_ex : clean_loop "my song (1).mp3" 0 = "my_song_1.mp3".
Proof. reflexivity. Qed.
Example hash_ex :
  baseFilename (url_hash "https://x/stream") = "audio_8d0dd443.mp3".
Proof. vm_compute. reflexivity. Qed.

(** ** Machine arithmetic *)

Lemma wrap32_small z : 0 <= z < 2 ^ 32 -> wrap32 z = z.
Proof. intros H. unfold wrap32. apply Z.mod_small. exact H. Qed.

Lemma maxAge_value : maxAge = 604800000.
Proof. reflexivity. Qed.



(** ** C strings *)

Lemma strlen_strtake n s : (strlen (strtake n s) <= n)%nat.
Proof.
  unfold strlen. revert s.
  induction n as [| n IH]; intros [| c r]; simpl; try lia.
  specialize (IH r). lia.
Qed.

Lemma strtake_all n s : (strlen s <= n)%nat -> strtake n s = s.
Proof.
  unfold strlen. revert s.
  induction n as [| n IH]; intros [| c r]; simpl; intros H;
    try reflexivity; try lia.
  f_equal. apply IH. lia.
Qed.

Lemma strlen_app s t : strlen (s +:+ t) = (strlen s + strlen t)%nat.
Proof.
  unfold strlen. induction s as [| c r IH]; simpl; [reflexivity |].
  change (String.app r t) with (r +:+ t). rewrite <- IH. reflexivity.
Qed.

Lemma strlen_hex8 h : strlen (hex8 h) = 8%nat.
Proof. reflexivity. Qed.

(** ** The cleaning loop *)

Lemma clean_loop_take s j :
  clean_loop s j = strtake (MAX_FILENAME_LENGTH - 1 - j) (sanitize s).
Proof.
  revert j. induction s as [| c r IH]; intros j; simpl.
  - destruct (63 - j)%nat; reflexivity.
  - case_bool_decide as Hj.
    + destruct (isalnum c || Ascii.eqb c "." || Ascii.eqb c "-"
                || Ascii.eqb c "_") eqn:Hk.
      * rewrite IH. change (MAX_FILENAME_LENGTH - 1)%nat with 63%nat in *.
        replace (63 - j)%nat with (S (63 - S j)) by lia. reflexivity.
      * destruct (Ascii.eqb c " ").
        -- rewrite IH. change (MAX_FILENAME_LENGTH - 1)%nat with 63%nat in *.
           replace (63 - j)%nat with (S (63 - S j)) by lia. reflexivity.
        -- apply IH.
    + change (MAX_FILENAME_LENGTH - 1)%nat with 63%nat in *.
      replace (63 - j)%nat with 0%nat by lia. reflexivity.
Qed.

Lemma strlen_clean_loop s :
  (strlen (clean_loop s 0) <= MAX_FILENAME_LENGTH - 1)%nat.
Proof.
  rewrite clean_loop_take. etransitivity; [apply strlen_strtake | lia].
Qed.

(** A dot survives the cleaning, so the cleaned name of a final segment
    with a dot is never empty. *)
Lemma clean_loop_nonempty s :
  is_Some (strchr s ".") -> (0 < strlen (clean_loop s 0))%nat.
Proof.
  induction s as [| c r IH]; simpl; intros H.
  - destruct H as [x Hx]. discriminate.
  - destruct (isalnum c || Ascii.eqb c "." || Ascii.eqb c "-"
              || Ascii.eqb c "_") eqn:Hk.
    + simpl. lia.
    + destruct (Ascii.eqb c " "); [simpl; lia |].
      apply IH. destruct (Ascii.eqb c ".") eqn:Hdot; [| exact H].
      rewrite ?orb_true_r in Hk. simpl in Hk. discriminate.
Qed.

Lemma collision_loop_S h n :
  collision_loop h (S n)
    = (taken <- SD_exists (audioPath (counterFilename h (1000 - S n))) ;;
       if negb taken then ret (Some (counterFilename h (1000 - S n)))
       else collision_loop h n).
Proof. reflexivity. Qed.

(** From here on the codec is reasoned about through its lemmas: its
    loops are not to be unrolled by simplification. *)
#[global] Arguments strtake : simpl never.
#[global] Arguments collision_loop : simpl never.
#[global] Arguments djb2 : simpl never.
#[global] Arguments hex8 : simpl never.
#[global] Arguments dec : simpl never.
#[global] Arguments audioPath : simpl never.
#[global] Arguments local_path : simpl never.
#[global] Arguments filename_of : simpl never.
#[global] Arguments wrap32 : simpl never.
#[global] Arguments cacheAge : simpl never.
#[global] Arguments print_ulong : simpl never.
#[global] Arguments download_loop : simpl never.
#[global] Arguments AUDIO_JSON_FILE : simpl never.
#[global] Arguments CACHE_TIMESTAMP_FILE : simpl never.
#[global] Arguments KNOWN_FILES_URL : simpl never.
#[global] Arguments AUDIO_FILES_DIR : simpl never.

(** ** The card *)

Lemma set_sdCardInitialized_same e :
  sdCardInitialized e = true -> set_sdCardInitialized true e = e.
Proof. destruct e; simpl; intros ->; reflexivity. Qed.

Lemma initializeSDCard_spec e :
  initializeSDCard e = (sd_ready e, mark_ready e).
Proof.
  unfold initializeSDCard, mark_ready, sd_ready.
  destruct (sdCardInitialized e) eqn:Hi; simpl.
  - rewrite set_sdCardInitialized_same by exact Hi. reflexivity.
  - destruct (sd_begin e); simpl; [| reflexivity].
    destruct (sd_cardType e); reflexivity.
Qed.

Lemma mark_ready_proj {A} (f : Env -> A) e :
  (forall b e0, f (set_sdCardInitialized b e0) = f e0) ->
  f (mark_ready e) = f e.
Proof. intros H. unfold mark_ready. destruct (sd_ready e); auto. Qed.

Lemma sd_ready_mark e : sd_ready (mark_ready e) = sd_ready e.
Proof.
  unfold mark_ready. destruct (sd_ready e) eqn:H; [reflexivity | exact H].
Qed.

Lemma mark_ready_idem e : mark_ready (mark_ready e) = mark_ready e.
Proof.
  unfold mark_ready at 1. rewrite sd_ready_mark.
  unfold mark_ready. destruct (sd_ready e); reflexivity.
Qed.

Lemma same_card_mark e : same_card e (mark_ready e).
Proof.
  unfold same_card. rewrite sd_ready_mark.
  rewrite !(mark_ready_proj _ e) by reflexivity. auto.
Qed.

Lemma same_card_sym e e' : same_card e e' -> same_card e' e.
Proof. unfold same_card. intuition congruence. Qed.

Lemma same_card_trans e1 e2 e3 :
  same_card e1 e2 -> same_card e2 e3 -> same_card e1 e3.
Proof. unfold same_card. intuition congruence. Qed.

Lemma exists_on_same e e' p :
  same_card e e' -> exists_on e p = exists_on e' p.
Proof.
  intros (Hf & Hd & _). unfold exists_on, SD_exists, gets. simpl.
  rewrite Hf, Hd. reflexivity.
Qed.

Lemma SD_exists_spec p e : SD_exists p e = (exists_on e p, e).
Proof. reflexivity. Qed.

(** ** The locator codec *)

Lemma collision_loop_spec h n e :
  collision_loop h n e = (fst (collision_loop h n e), e).
Proof.
  induction n as [| n IH]; [reflexivity |].
  rewrite collision_loop_S. unfold bind. rewrite SD_exists_spec.
  destruct (exists_on e _); simpl; [exact IH | reflexivity].
Qed.

Lemma collision_loop_same h n e e' :
  same_card e e' ->
  fst (collision_loop h n e) = fst (collision_loop h n e').
Proof.
  intros Hs. induction n as [| n IH]; [reflexivity |].
  rewrite collision_loop_S. unfold bind. rewrite !SD_exists_spec.
  rewrite (exists_on_same e e' _ Hs).
  destruct (exists_on e' _); simpl; [exact IH | reflexivity].
Qed.

Lemma strlen_snprintf n s : (strlen (snprintf n s) <= n - 1)%nat.
Proof. apply strlen_strtake. Qed.

Lemma collision_loop_len h n e f :
  fst (collision_loop h n e) = Some f ->
  (strlen f <= MAX_FILENAME_LENGTH - 1)%nat.
Proof.
  induction n as [| n IH]; [discriminate |].
  rewrite collision_loop_S. unfold bind. rewrite SD_exists_spec.
  destruct (exists_on e _); simpl; [exact IH |].
  intros [= <-]. apply strlen_snprintf.
Qed.

Lemma hashed_filename_spec url0 e :
  hashed_filename url0 e = (fst (hashed_filename url0 e), mark_ready e)
  /\ exists f, fst (hashed_filename url0 e) = Some f
       /\ (strlen f <= MAX_FILENAME_LENGTH - 1)%nat.
Proof.
  unfold hashed_filename, bind. rewrite initializeSDCard_spec.
  destruct (sd_ready e).
  - rewrite SD_exists_spec. destruct (exists_on (mark_ready e) _).
    + rewrite collision_loop_spec.
      destruct (fst (collision_loop _ _ _)) as [f |] eqn:Hf; simpl.
      * split; [reflexivity |]. exists f. split; [reflexivity |].
        eapply collision_loop_len; exact Hf.
      * split; [reflexivity |]. eexists. split; [reflexivity |].
        apply strlen_snprintf.
    + simpl. split; [reflexivity |]. eexists. split; [reflexivity |].
      apply strlen_snprintf.
  - simpl. split; [reflexivity |]. eexists. split; [reflexivity |].
    apply strlen_snprintf.
Qed.

Lemma hashed_filename_same url0 e e' :
  same_card e e' ->
  fst (hashed_filename url0 e) = fst (hashed_filename url0 e').
Proof.
  intros Hs. unfold hashed_filename, bind. rewrite !initializeSDCard_spec.
  destruct Hs as (Hf & Hd & Hr). rewrite <- Hr.
  assert (Hm : same_card (mark_ready e) (mark_ready e')).
  { eapply same_card_trans; [apply same_card_sym, same_card_mark |].
    eapply same_card_trans; [| apply same_card_mark].
    unfold same_card; auto. }
  destruct (sd_ready e); [| reflexivity].
  rewrite !SD_exists_spec. rewrite (exists_on_same _ _ _ Hm).
  destruct (exists_on (mark_ready e') _); [| reflexivity].
  rewrite (collision_loop_spec _ _ (mark_ready e)).
  rewrite (collision_loop_spec _ _ (mark_ready e')).
  rewrite (collision_loop_same _ _ _ _ Hm).
  destruct (fst (collision_loop _ _ _)); reflexivity.
Qed.

Lemma has_extension_clean url0 :
  has_extension url0 = true ->
  (0 < strlen (clean_loop (urlFilename url0) 0))%nat.
Proof.
  unfold has_extension. intros H. apply andb_true_iff in H as [_ H].
  apply bool_decide_eq_true in H. apply clean_loop_nonempty. exact H.
Qed.

(** [urlToFilename] always succeeds; its identifier has at most
    [MAX_FILENAME_LENGTH - 1] bytes. *)
Lemma urlToFilename_spec url0 e :
  urlToFilename url0 e
    = (Some (filename_of url0 e),
       if has_extension url0 then e else mark_ready e)
  /\ (strlen (filename_of url0 e) <= MAX_FILENAME_LENGTH - 1)%nat.
Proof.
  unfold filename_of, urlToFilename.
  destruct (has_extension url0) eqn:Hx.
  - pose proof (has_extension_clean _ Hx) as Hn.
    rewrite bool_decide_eq_true_2 by exact Hn. simpl.
    split; [reflexivity | apply strlen_clean_loop].
  - destruct (hashed_filename_spec url0 e) as (Hh & f & Hf & Hl).
    rewrite Hh, Hf. simpl. split; [reflexivity | exact Hl].
Qed.

Lemma filename_of_ext url0 e :
  has_extension url0 = true ->
  filename_of url0 e = clean_loop (urlFilename url0) 0.
Proof.
  intros Hx. unfold filename_of, urlToFilename. rewrite Hx.
  rewrite bool_decide_eq_true_2 by (apply has_extension_clean; exact Hx).
  reflexivity.
Qed.

Lemma filename_of_same url0 e e' :
  same_card e e' -> filename_of url0 e = filename_of url0 e'.
Proof.
  intros Hs. unfold filename_of, urlToFilename.
  destruct (has_extension url0) eqn:Hx.
  - rewrite bool_decide_eq_true_2 by (apply has_extension_clean; exact Hx).
    reflexivity.
  - rewrite (hashed_filename_same _ _ _ Hs). reflexivity.
Qed.

(** The path buffer of 128 bytes holds the directory and any identifier
    of the codec without truncation. *)
Lemma audioPath_fits f :
  (strlen f <= MAX_FILENAME_LENGTH - 1)%nat ->
  audioPath f = AUDIO_FILES_DIR +:+ "/" +:+ f.
Proof.
  intros H. unfold audioPath, snprintf. apply strtake_all.
  rewrite !strlen_app. change (strlen AUDIO_FILES_DIR) with 6%nat.
  change (strlen "/") with 1%nat.
  change (MAX_FILENAME_LENGTH - 1)%nat with 63%nat in H. lia.
Qed.

Lemma getLocalAudioPath_spec url0 e :
  getLocalAudioPath url0 e
    = (Some (local_path url0 e),
       if has_extension url0 then e else mark_ready e)
  /\ local_path url0 e = audioPath (filename_of url0 e).
Proof.
  unfold local_path, getLocalAudioPath, bind.
  destruct (urlToFilename_spec url0 e) as [-> _]. simpl. auto.
Qed.

Lemma local_path_same url0 e e' :
  same_card e e' -> local_path url0 e = local_path url0 e'.
Proof.
  intros Hs.
  destruct (getLocalAudioPath_spec url0 e) as [_ ->].
  destruct (getLocalAudioPath_spec url0 e') as [_ ->].
  rewrite (filename_of_same _ _ _ Hs). reflexivity.
Qed.

Lemma audioFileExists_spec url0 e :
  audioFileExists url0 e
    = (sd_ready e && exists_on e (local_path url0 e), mark_ready e).
Proof.
  unfold audioFileExists, bind. rewrite initializeSDCard_spec.
  destruct (sd_ready e) eqn:Hr; simpl; [| reflexivity].
  destruct (getLocalAudioPath_spec url0 (mark_ready e)) as [-> _].
  rewrite SD_exists_spec.
  rewrite <- (local_path_same url0 e (mark_ready e)) by apply same_card_mark.
  assert (He : (if has_extension url0 then mark_ready e
                else mark_ready (mark_ready e)) = mark_ready e).
  { destruct (has_extension url0); [reflexivity | apply mark_ready_idem]. }
  rewrite He.
  rewrite <- (exists_on_same e (mark_ready e)) by apply same_card_mark.
  reflexivity.
Qed.

(** ** Enqueue *)

Lemma addToDownloadQueue_full url0 d e :
  (MAX_DOWNLOAD_QUEUE <= downloadQueueCount e)%nat ->
  addToDownloadQueue url0 d e = (false, e).
Proof.
  intros H. unfold addToDownloadQueue, bind, gets. simpl.
  rewrite bool_decide_eq_true_2 by exact H. reflexivity.
Qed.

Lemma addToDownloadQueue_queued url0 d e :
  (downloadQueueCount e < MAX_DOWNLOAD_QUEUE)%nat ->
  url_queued url0 e = true ->
  addToDownloadQueue url0 d e = (true, e).
Proof.
  intros H Hq. unfold addToDownloadQueue, bind, gets. simpl.
  rewrite bool_decide_eq_false_2 by lia. rewrite Hq. reflexivity.
Qed.

(** The four assignments through [item] amount to one store. *)
Lemma item_stores (q : list AudioDownloadItem) c u lp d :
  let q1 := <[c := item_set_url u (q !!! c)]> q in
  let q2 := <[c := item_set_localPath lp (q1 !!! c)]> q1 in
  let q3 := <[c := item_set_description d (q2 !!! c)]> q2 in
  <[c := item_set_inProgress false (q3 !!! c)]> q3
    = <[c := {| url := u; localPath := lp; item_description := d;
                inProgress := false |}]> q.
Proof.
  simpl. destruct (decide (c < length q)%nat) as [Hlt | Hge].
  - rewrite !list_lookup_total_insert_eq
      by (rewrite ?length_insert; exact Hlt).
    rewrite !list_insert_insert_eq. reflexivity.
  - rewrite !(list_insert_ge q) by lia. reflexivity.
Qed.

Lemma downloadQueue_set q e : downloadQueue (set_downloadQueue q e) = q.
Proof. reflexivity. Qed.

Lemma set_downloadQueue_set q q' e :
  set_downloadQueue q (set_downloadQueue q' e) = set_downloadQueue q e.
Proof. reflexivity. Qed.

Lemma sd_ready_set_downloadQueue q e :
  sd_ready (set_downloadQueue q e) = sd_ready e.
Proof. reflexivity. Qed.

Lemma mark_ready_set_downloadQueue q e :
  mark_ready (set_downloadQueue q e) = set_downloadQueue q (mark_ready e).
Proof.
  unfold mark_ready. rewrite sd_ready_set_downloadQueue.
  destruct (sd_ready e); reflexivity.
Qed.

Lemma addToDownloadQueue_new url0 d e :
  (downloadQueueCount e < MAX_DOWNLOAD_QUEUE)%nat ->
  url_queued url0 e = false ->
  addToDownloadQueue url0 d e = (true, enqueued url0 d e).
Proof.
  intros H Hq. unfold addToDownloadQueue, bind, gets.
  cbn beta iota. rewrite bool_decide_eq_false_2 by lia. rewrite Hq.
  unfold update_item, modify, ret. cbn beta iota.
  set (c := downloadQueueCount e). set (q := downloadQueue e).
  set (q1 := <[c := item_set_url (strncpy_field 256 url0) (q !!! c)]> q).
  destruct (getLocalAudioPath_spec url0 (set_downloadQueue q1 e)) as [-> _].
  rewrite (local_path_same url0 (set_downloadQueue q1 e) e)
    by (unfold same_card; auto).
  cbn beta iota. f_equal. unfold enqueued, new_item. fold c q.
  set (eb := if has_extension url0 then e else mark_ready e).
  assert (He2 : (if has_extension url0 then set_downloadQueue q1 e
                 else mark_ready (set_downloadQueue q1 e))
                = set_downloadQueue q1 eb).
  { unfold eb. destruct (has_extension url0);
      [reflexivity | apply mark_ready_set_downloadQueue]. }
  rewrite He2. rewrite !set_downloadQueue_set, !downloadQueue_set.
  unfold q1. rewrite item_stores.
  assert (Hc : downloadQueueCount (set_downloadQueue
                 (<[c := {| url := strncpy_field 256 url0;
                            localPath := local_path url0 e;
                            item_description := strncpy_field 64 d;
                            inProgress := false |}]> q) eb) = c).
  { unfold eb, c. destruct (has_extension url0); [reflexivity |].
    apply (mark_ready_proj downloadQueueCount). reflexivity. }
  rewrite Hc. reflexivity.
Qed.

Lemma downloadQueueCount_enqueued url0 d e :
  downloadQueueCount (enqueued url0 d e) = S (downloadQueueCount e).
Proof. reflexivity. Qed.

Lemma downloadQueue_enqueued url0 d e :
  downloadQueue (enqueued url0 d e)
    = <[downloadQueueCount e := new_item url0 d e]> (downloadQueue e).
Proof. reflexivity. Qed.

(** The three cases of [addToDownloadQueue]. *)
Lemma addToDownloadQueue_cases url0 d e :
  addToDownloadQueue url0 d e
    = if bool_decide (MAX_DOWNLOAD_QUEUE <= downloadQueueCount e)%nat
      then (false, e)
      else if url_queued url0 e then (true, e)
      else (true, enqueued url0 d e).
Proof.
  case_bool_decide as Hc.
  - apply addToDownloadQueue_full. exact Hc.
  - destruct (url_queued url0 e) eqn:Hq.
    + apply addToDownloadQueue_queued; [lia | exact Hq].
    + apply addToDownloadQueue_new; [lia | exact Hq].
Qed.

(** A locator that fits the 256-byte field is found by the duplicate scan
    once it has been stored. *)
Lemma url_queued_enqueued url0 d e :
  (strlen url0 <= 255)%nat ->
  (downloadQueueCount e < length (downloadQueue e))%nat ->
  url_queued url0 (enqueued url0 d e) = true.
Proof.
  intros Hlen Hc. unfold url_queued.
  rewrite downloadQueueCount_enqueued, downloadQueue_enqueued.
  apply existsb_exists. exists (new_item url0 d e). split.
  - apply list_elem_of_In.
    apply (list_elem_of_lookup_2 _ (downloadQueueCount e)).
    rewrite lookup_take_lt by lia. apply list_lookup_insert_eq. exact Hc.
  - simpl. unfold strncpy_field. rewrite strtake_all by (simpl; lia).
    apply String.eqb_refl.
Qed.

(** C8. Enqueuing into a queue that holds [MAX_DOWNLOAD_QUEUE] entries
    reports failure and changes nothing: the entries, the count and the
    cursor are the ones before the call, so the count stays at the
    capacity; from a count within the capacity no enqueue leads beyond
    it. *)
Theorem enqueue_capacity_ceiling url0 d e :
  (downloadQueueCount e <= MAX_DOWNLOAD_QUEUE)%nat ->
  (downloadQueueCount (snd (addToDownloadQueue url0 d e))
     <= MAX_DOWNLOAD_QUEUE)%nat
  /\ (downloadQueueCount e = MAX_DOWNLOAD_QUEUE ->
      addToDownloadQueue url0 d e = (false, e)).
Proof.
  intros Hle. split.
  - rewrite addToDownloadQueue_cases. case_bool_decide as Hc; [exact Hle |].
    destruct (url_queued url0 e); simpl; lia.
  - intros Heq. apply addToDownloadQueue_full. lia.
Qed.

Lemma enqueue_capacity_ceiling_witness :
  (downloadQueueCount env_full <= MAX_DOWNLOAD_QUEUE)%nat
  /\ downloadQueueCount env_full = MAX_DOWNLOAD_QUEUE
  /\ addToDownloadQueue (sample_url 21) "clip" env_full = (false, env_full).
Proof.
  assert (H1 : (downloadQueueCount env_full <= MAX_DOWNLOAD_QUEUE)%nat)
    by (vm_compute; lia).
  assert (H2 : downloadQueueCount env_full = MAX_DOWNLOAD_QUEUE)
    by (vm_compute; reflexivity).
  split; [exact H1 | split; [exact H2 |]].
  apply (enqueue_capacity_ceiling (sample_url 21) "clip" env_full H1). exact H2.
Defined.

Example capacity_ceiling_run :
  let e21 := enqueue_all (map sample_url (seq 1 21)) env0 in
  downloadQueueCount e21 = MAX_DOWNLOAD_QUEUE
  /\ url_queued (sample_url 20) e21 = true
  /\ url_queued (sample_url 21) e21 = false.
Proof. by_computation. Qed.

(** C3 (as stated) fails on a full queue: a locator that is present is
    turned away with a failure. *)
Lemma enqueue_present_full_queue_fails :
  url_queued (sample_url 1) env_full = true
  /\ fst (addToDownloadQueue (sample_url 1) "clip" env_full) = false.
Proof. by_computation. Qed.

(** C3 (amended). Enqueuing a locator that is present changes nothing;
    it reports success below the capacity and failure at the capacity.
    Enqueuing twice a locator of at most 255 bytes that is not present, in
    a queue with room for two more entries, adds exactly one entry, and
    the second call reports success. *)
Theorem enqueue_idempotent_below_capacity url0 d d' e :
  (url_queued url0 e = true ->
     ((downloadQueueCount e < MAX_DOWNLOAD_QUEUE)%nat ->
        addToDownloadQueue url0 d e = (true, e))
     /\ ((MAX_DOWNLOAD_QUEUE <= downloadQueueCount e)%nat ->
        addToDownloadQueue url0 d e = (false, e)))
  /\ (url_queued url0 e = false ->
      (strlen url0 <= 255)%nat ->
      length (downloadQueue e) = MAX_DOWNLOAD_QUEUE ->
      (S (downloadQueueCount e) < MAX_DOWNLOAD_QUEUE)%nat ->
      let e1 := snd (addToDownloadQueue url0 d e) in
      fst (addToDownloadQueue url0 d e) = true
      /\ downloadQueueCount e1 = S (downloadQueueCount e)
      /\ addToDownloadQueue url0 d' e1 = (true, e1)).
Proof.
  split.
  - intros Hq. split; intros Hc.
    + apply addToDownloadQueue_queued; assumption.
    + apply addToDownloadQueue_full; assumption.
  - intros Hn Hlen Harr Hc. simpl.
    rewrite (addToDownloadQueue_new url0 d e) by (lia || exact Hn). simpl.
    split; [reflexivity | split; [reflexivity |]].
    apply addToDownloadQueue_queued.
    + rewrite downloadQueueCount_enqueued. exact Hc.
    + apply url_queued_enqueued; [exact Hlen | lia].
Qed.

Lemma enqueue_idempotent_below_capacity_witness :
  url_queued (sample_url 1) env0 = false
  /\ (strlen (sample_url 1) <= 255)%nat
  /\ length (downloadQueue env0) = MAX_DOWNLOAD_QUEUE
  /\ (S (downloadQueueCount env0) < MAX_DOWNLOAD_QUEUE)%nat
  /\ (let e1 := snd (addToDownloadQueue (sample_url 1) "clip" env0) in
      fst (addToDownloadQueue (sample_url 1) "clip" env0) = true
      /\ downloadQueueCount e1 = S (downloadQueueCount env0)
      /\ addToDownloadQueue (sample_url 1) "again" e1 = (true, e1)).
Proof.
  assert (H1 : url_queued (sample_url 1) env0 = false) by reflexivity.
  assert (H2 : (strlen (sample_url 1) <= 255)%nat) by (vm_compute; lia).
  assert (H3 : length (downloadQueue env0) = MAX_DOWNLOAD_QUEUE)
    by reflexivity.
  assert (H4 : (S (downloadQueueCount env0) < MAX_DOWNLOAD_QUEUE)%nat)
    by (vm_compute; lia).
  repeat (split; [assumption |]).
  exact (proj2 (enqueue_idempotent_below_capacity
                  (sample_url 1) "clip" "again" env0) H1 H2 H3 H4).
Defined.

(** C10 at a locator longer than the 255 bytes of the [url] field: the
    stored copy is cut, the duplicate scan compares it with the full
    locator and never matches, and the second enqueue stores the same
    text again at the next index. *)
Lemma long_locator_enqueued_twice :
  let e1 := snd (addToDownloadQueue long_url "clip" env0) in
  let e2 := snd (addToDownloadQueue long_url "clip" e1) in
  url_queued long_url e1 = false
  /\ fst (addToDownloadQueue long_url "clip" e1) = true
  /\ downloadQueueCount e2 = 2%nat
  /\ url (downloadQueue e2 !!! 0%nat) = url (downloadQueue e2 !!! 1%nat).
Proof. by_computation. Qed.

(** ** The drive step *)

Lemma update_item_spec i f e :
  update_item i f e
    = (tt, set_downloadQueue
             (<[i := f (downloadQueue e !!! i)]> (downloadQueue e)) e).
Proof. reflexivity. Qed.

(** C1 (as stated) fails when the download of the item at the cursor
    fails: the item is processed (one GET, the cursor moves on) and the
    step returns [false]. *)
Lemma drive_step_false_after_failed_download :
  attempted env_404 = true
  /\ fst (processDownloadQueue env_404) = false
  /\ downloadQueueIndex (snd (processDownloadQueue env_404))
       = S (downloadQueueIndex env_404)
  /\ http_requests (snd (processDownloadQueue env_404)) = [sample_url 1].
Proof. by_computation. Qed.

Example drive_step_downloads :
  fst (processDownloadQueue env_200) = true
  /\ sd_files (snd (processDownloadQueue env_200)) !! "/audio/1.mp3"
       = Some "ID3.data".
Proof. by_computation. Qed.

(** C1 (amended). When nothing is attempted (cursor at the end, network
    or card unavailable, item already in progress) the drive step returns
    [false], makes no request and leaves cursor and queue as they are.
    When the item at the cursor is attempted the cursor advances by one
    whatever the outcome, and the step returns [true] exactly when the
    audio directory is there or could be made, the GET answered 200 and
    the destination file could be opened for writing; after a failed
    attempt it returns [false]. The wrapper returns [false] without
    running the step when less than the check interval has passed since
    the last check, and is the step otherwise. *)
Theorem drive_step_result e :
  let r := fst (processDownloadQueue e) in
  let e' := snd (processDownloadQueue e) in
  (attempted e = false ->
     r = false
     /\ downloadQueueIndex e' = downloadQueueIndex e
     /\ downloadQueueCount e' = downloadQueueCount e
     /\ downloadQueue e' = downloadQueue e
     /\ http_requests e' = http_requests e)
  /\ (attempted e = true ->
     downloadQueueIndex e' = S (downloadQueueIndex e)
     /\ downloadQueueCount e' = downloadQueueCount e
     /\ r = dir_ready e
            && (http_code (response_of e (url (cursor_item e))) =? 200)
            && bool_decide (localPath (cursor_item e) ∉ sd_readonly e))
  /\ processAudioDownloadQueue e
     = if wrap32 (millis e - lastDownloadCheck e)
          <? DOWNLOAD_QUEUE_CHECK_INTERVAL_MS
       then (false, e)
       else processDownloadQueue (set_lastDownloadCheck (millis e) e).
Proof.
  cbn zeta. apply and_assoc. split;
    [| unfold processAudioDownloadQueue, bind, gets, modify, ret;
       destruct (wrap32 _ <? _); reflexivity].
  unfold attempted, dir_ready, cursor_item, response_of.
  unfold processDownloadQueue, bind, gets, ret. cbn beta iota.
  destruct (decide (downloadQueueCount e <= downloadQueueIndex e)%nat)
    as [Hge | Hlt].
  - rewrite (bool_decide_eq_true_2 _ Hge).
    rewrite bool_decide_eq_false_2 by lia. simpl.
    split; [auto | discriminate].
  - rewrite (bool_decide_eq_false_2 _ Hlt).
    rewrite bool_decide_eq_true_2 by lia. cbn beta iota.
    destruct (wifi_connected e) eqn:Hw; simpl; [| split; [auto | discriminate]].
    rewrite initializeSDCard_spec. unfold mark_ready.
    destruct (sd_ready e) eqn:Hr; simpl; [| split; [auto | discriminate]].
    destruct (inProgress (downloadQueue e !!! downloadQueueIndex e)) eqn:Hp;
      simpl; [split; [auto | discriminate] |].
    split; [discriminate | intros _].
    unfold skip_item, bind, modify, SD_mkdir, SD_open_write, SD_store, http_GET,
      gets, modify, ret, update_item, SD_exists, exists_on, gets, modify.
    simpl.
    destruct (bool_decide (is_Some (sd_files e !! AUDIO_FILES_DIR))
              || bool_decide (AUDIO_FILES_DIR ∈ sd_dirs e)) eqn:Hd; simpl.
    + destruct (http_code _ =? 200) eqn:Hc; simpl; [| auto].
      destruct (bool_decide (_ ∉ sd_readonly e)); simpl; auto.
    + destruct (sd_mkdir_ok e) eqn:Hm; simpl; [| auto].
      destruct (http_code _ =? 200) eqn:Hc; simpl; [| auto].
      destruct (bool_decide (_ ∉ sd_readonly e)); simpl; auto.
Qed.

(** ** Distinct locators in the queue *)

Lemma url_queued_spec u e : url_queued u e = true <-> u ∈ queued_urls e.
Proof.
  unfold url_queued, queued_urls. rewrite existsb_exists. split.
  - intros (x & Hin & Heq). apply String.eqb_eq in Heq.
    apply list_elem_of_fmap. exists x.
    split; [symmetry; exact Heq | apply list_elem_of_In; exact Hin].
  - intros H. apply list_elem_of_fmap in H as (x & -> & Hin).
    exists x. split; [apply list_elem_of_In; exact Hin |].
    apply String.eqb_refl.
Qed.

Lemma queued_urls_enqueued u d e :
  (downloadQueueCount e < length (downloadQueue e))%nat ->
  queued_urls (enqueued u d e) = queued_urls e ++ [strncpy_field 256 u].
Proof.
  intros Hc. unfold queued_urls.
  rewrite downloadQueueCount_enqueued, downloadQueue_enqueued.
  rewrite (take_S_r _ _ (new_item u d e))
    by (apply list_lookup_insert_eq; exact Hc).
  rewrite take_insert_ge by lia. rewrite fmap_app. reflexivity.
Qed.

(** For the locators the [url] field holds in full, an enqueue keeps the
    stored locators pairwise distinct. *)
Lemma enqueue_keeps_distinct u d e :
  (strlen u <= 255)%nat ->
  length (downloadQueue e) = MAX_DOWNLOAD_QUEUE ->
  NoDup (queued_urls e) ->
  NoDup (queued_urls (snd (addToDownloadQueue u d e))).
Proof.
  intros Hlen Harr Hnd. rewrite addToDownloadQueue_cases.
  case_bool_decide as Hc; [exact Hnd |].
  destruct (url_queued u e) eqn:Hq; [exact Hnd |]. simpl.
  rewrite queued_urls_enqueued by lia.
  unfold strncpy_field. rewrite strtake_all by (simpl; lia).
  apply NoDup_app. split; [exact Hnd |]. split; [| apply NoDup_singleton].
  intros x Hx Hx'. apply list_elem_of_singleton in Hx'. subst x.
  apply url_queued_spec in Hx. congruence.
Qed.

Lemma fmap_url_insert (q : list AudioDownloadItem) i b :
  url <$> <[i := item_set_inProgress b (q !!! i)]> q = url <$> q.
Proof.
  rewrite list_fmap_insert. apply list_insert_id'. intros Hlt.
  rewrite length_fmap in Hlt. rewrite list_lookup_fmap.
  rewrite (list_lookup_lookup_total_lt q i Hlt). reflexivity.
Qed.

(** The drive step changes no stored locator and no count. *)
Lemma drive_step_keeps_urls e :
  queued_urls (snd (processDownloadQueue e)) = queued_urls e.
Proof.
  unfold queued_urls, processDownloadQueue, bind, gets, ret. cbn beta iota.
  case_bool_decide as Hidx; [reflexivity |].
  destruct (wifi_connected e) eqn:Hw; simpl; [| reflexivity].
  rewrite initializeSDCard_spec. unfold mark_ready.
  destruct (sd_ready e) eqn:Hr; simpl; [| reflexivity].
  destruct (inProgress (downloadQueue e !!! downloadQueueIndex e)) eqn:Hp;
    simpl; [reflexivity |].
  unfold skip_item, bind, modify, SD_mkdir, SD_open_write, SD_store, http_GET,
    gets, modify, ret, update_item, SD_exists, exists_on, gets, modify.
  simpl.
  destruct (bool_decide (is_Some (sd_files e !! AUDIO_FILES_DIR))
            || bool_decide (AUDIO_FILES_DIR ∈ sd_dirs e)); simpl;
    [| destruct (sd_mkdir_ok e); simpl];
    try (destruct (http_code _ =? 200); simpl;
         [destruct (bool_decide (_ ∉ sd_readonly e)); simpl |]);
    rewrite !fmap_take, !fmap_url_insert; reflexivity.
Qed.

Lemma clear_empties_urls e :
  queued_urls (snd (clearDownloadQueue e)) = [].
Proof. reflexivity. Qed.

(** ** The locator codec: output *)

(** C5 (as stated) fails for a final segment of more than 63 bytes: the
    codec reports success with the first 63 bytes of the identifier, which
    drops the extension and sends two different locators to one path. *)
Lemma codec_truncates_long_identifier :
  (MAX_FILENAME_LENGTH - 1 < strlen (sanitize (urlFilename long_name_mp3)))%nat
  /\ sanitize (urlFilename long_name_mp3)
       <> sanitize (urlFilename long_name_wav)
  /\ fst (getLocalAudioPath long_name_mp3 env0)
       = Some ("/audio/" +:+ strtake 63 (sanitize (urlFilename long_name_mp3)))
  /\ fst (getLocalAudioPath long_name_mp3 env0)
       = fst (getLocalAudioPath long_name_wav env0).
Proof.
  split; [vm_compute; lia |].
  split; [intros H; vm_compute in H; discriminate |].
  split; vm_compute; reflexivity.
Qed.

(** C5 (amended). The codec always reports success, and its output is
    [{audio-directory}/{identifier}] for an identifier of at most
    [MAX_FILENAME_LENGTH - 1] bytes, which the path buffer holds in full.
    For a final segment with a dot the identifier is the first
    [MAX_FILENAME_LENGTH - 1] bytes of the cleaned segment: a longer one is
    cut, not refused. *)
Theorem locator_codec_output url0 e :
  exists filename e',
    urlToFilename url0 e = (Some filename, e')
    /\ getLocalAudioPath url0 e
         = (Some (AUDIO_FILES_DIR +:+ "/" +:+ filename), e')
    /\ (strlen filename <= MAX_FILENAME_LENGTH - 1)%nat
    /\ (has_extension url0 = true ->
        filename
          = strtake (MAX_FILENAME_LENGTH - 1) (sanitize (urlFilename url0))).
Proof.
  exists (filename_of url0 e),
         (if has_extension url0 then e else mark_ready e).
  destruct (urlToFilename_spec url0 e) as [Hu Hl].
  destruct (getLocalAudioPath_spec url0 e) as [Hg Hp].
  split; [exact Hu |]. split; [| split; [exact Hl |]].
  - rewrite Hg, Hp. rewrite audioPath_fits by exact Hl. reflexivity.
  - intros Hx. rewrite filename_of_ext by exact Hx.
    rewrite clean_loop_take. rewrite Nat.sub_0_r. reflexivity.
Qed.

Lemma locator_codec_output_witness :
  has_extension "https://x/a.mp3" = true
  /\ exists filename e',
       urlToFilename "https://x/a.mp3" env0 = (Some filename, e')
       /\ getLocalAudioPath "https://x/a.mp3" env0
            = (Some (AUDIO_FILES_DIR +:+ "/" +:+ filename), e')
       /\ filename = "a.mp3".
Proof.
  assert (Hx : has_extension "https://x/a.mp3" = true) by reflexivity.
  split; [exact Hx |].
  destruct (locator_codec_output "https://x/a.mp3" env0)
    as (f & e' & Hu & Hg & _ & Hs).
  exists f, e'. split; [exact Hu | split; [exact Hg |]].
  rewrite (Hs Hx). reflexivity.
Defined.

(** ** Staleness, refresh and load *)

Lemma Env_eta e :
  set_knownSequenceCount (knownSequenceCount e)
    (set_knownFiles (knownFiles e) e) = e.
Proof. destruct e; reflexivity. Qed.

(** The loading loop fills the array up to its bound and touches nothing
    but the array and its count. *)
Lemma load_records_spec root e :
  (knownSequenceCount e <= MAX_KNOWN_SEQUENCES)%nat ->
  exists l,
    snd (load_records root e)
      = set_knownSequenceCount
          (Nat.min (knownSequenceCount e + length root) MAX_KNOWN_SEQUENCES)
          (set_knownFiles l e).
Proof.
  revert e. induction root as [| [key seqData] rest IH]; intros e Hc.
  - exists (knownFiles e). simpl. rewrite Nat.add_0_r.
    rewrite Nat.min_l by exact Hc. symmetry. apply Env_eta.
  - cbn [load_records]. unfold bind, gets, modify. simpl.
    case_bool_decide as Hfull; simpl.
    + exists (knownFiles e). rewrite Nat.min_r by lia.
      replace MAX_KNOWN_SEQUENCES with (knownSequenceCount e) at 1 by lia.
      symmetry. apply Env_eta.
    + set (e' := set_knownSequenceCount _ _).
      destruct (IH e') as [l Hl]; [unfold e'; simpl; lia |].
      exists l. rewrite Hl.
      assert (Hcnt : knownSequenceCount e' = S (knownSequenceCount e))
        by reflexivity.
      rewrite Hcnt.
      replace (S (knownSequenceCount e) + length rest)%nat
        with (knownSequenceCount e + length ((key, seqData) :: rest))%nat
        by (simpl; lia).
      reflexivity.
Qed.

Section RegistryProperties.

Variable deserializeJson : string -> option (list (string * JsonEntry)).
Variable serializeJson : list AudioFile -> string.
Variable String_toInt : string -> Z.

Lemma isCacheStale_spec e :
  isCacheStale String_toInt e
    = (bool_decide (knownSequenceCount e = 0)%nat
       || sd_ready e
          && match sd_files e !! CACHE_TIMESTAMP_FILE with
             | None => true
             | Some timestampStr =>
                 maxAge <? cacheAge (wrap32 (String_toInt timestampStr))
                                    (millis e)
             end,
       if bool_decide (knownSequenceCount e = 0)%nat then e
       else mark_ready e).
Proof.
  unfold isCacheStale, bind, gets, ret. simpl.
  case_bool_decide as Hc; simpl; [reflexivity |].
  rewrite initializeSDCard_spec.
  destruct (sd_ready e) eqn:Hr; simpl; [| reflexivity].
  unfold SD_open_read, gets.
  rewrite (mark_ready_proj sd_files) by reflexivity.
  destruct (sd_files e !! CACHE_TIMESTAMP_FILE); [| reflexivity].
  rewrite (mark_ready_proj millis) by reflexivity. reflexivity.
Qed.

(** C4 (amended). The staleness check reports stale exactly when the
    registry is empty, or the card is available and either no mark file
    can be opened or the wraparound-safe age [now - mark] exceeds the
    validity window. With a registry that is not empty and no card
    available the mark cannot be read and the cache is taken for valid. *)
Theorem isCacheStale_exactly e :
  (fst (isCacheStale String_toInt e) = true <->
     knownSequenceCount e = 0%nat
     \/ (sd_ready e = true
         /\ (sd_files e !! CACHE_TIMESTAMP_FILE = None
             \/ exists timestampStr,
                  sd_files e !! CACHE_TIMESTAMP_FILE = Some timestampStr
                  /\ maxAge < cacheAge (wrap32 (String_toInt timestampStr))
                                       (millis e))))
  /\ (knownSequenceCount e <> 0%nat -> sd_ready e = false ->
      fst (isCacheStale String_toInt e) = false).
Proof.
  rewrite isCacheStale_spec. simpl. split.
  - case_bool_decide as Hc; simpl.
    + split; [auto | reflexivity].
    + destruct (sd_ready e); simpl.
      * destruct (sd_files e !! CACHE_TIMESTAMP_FILE) as [t |] eqn:Ht.
        -- rewrite Z.ltb_lt. split.
           ++ intros H. right. split; [reflexivity |]. right. eauto.
           ++ intros [H | [_ [H | (t' & Ht' & H)]]];
                [contradiction | discriminate |].
              injection Ht' as <-. exact H.
        -- split; [auto | reflexivity].
      * split; [discriminate |].
        intros [H | [H _]]; [contradiction | discriminate].
  - intros Hc Hr. rewrite bool_decide_eq_false_2 by exact Hc.
    rewrite Hr. reflexivity.
Qed.

(** With a cache that is not stale, refresh makes no network request and
    leaves the registry as it is; with the network available it reports
    success. *)
Lemma downloadAudio_not_stale e :
  fst (isCacheStale String_toInt e) = false ->
  http_requests
      (snd (downloadAudio deserializeJson serializeJson String_toInt e))
    = http_requests e
  /\ knownFiles
       (snd (downloadAudio deserializeJson serializeJson String_toInt e))
     = knownFiles e
  /\ knownSequenceCount
       (snd (downloadAudio deserializeJson serializeJson String_toInt e))
     = knownSequenceCount e
  /\ (wifi_connected e = true ->
      fst (downloadAudio deserializeJson serializeJson String_toInt e)
        = true).
Proof.
  intros Hs. unfold downloadAudio, bind, gets, ret. simpl.
  destruct (wifi_connected e); simpl; [| auto].
  destruct (isCacheStale String_toInt e) as [stale e1] eqn:Hst.
  simpl in Hs. subst stale. simpl.
  rewrite isCacheStale_spec in Hst. injection Hst as _ <-.
  case_bool_decide; [auto |].
  rewrite !(mark_ready_proj _ e) by reflexivity. auto.
Qed.

(** C9. A parse error, on the registry file of the card or on the reply
    of the server, makes the operation report failure and leaves the
    record array and its count as they were. *)
Theorem parse_error_keeps_registry e :
  (forall jsonString,
     sd_files e !! AUDIO_JSON_FILE = Some jsonString ->
     deserializeJson jsonString = None ->
     let r := loadKnownSequencesFromSDCard deserializeJson String_toInt e in
     fst r = false
     /\ knownFiles (snd r) = knownFiles e
     /\ knownSequenceCount (snd r) = knownSequenceCount e)
  /\ (wifi_connected e = true ->
      fst (isCacheStale String_toInt e) = true ->
      deserializeJson (getString (response_of e KNOWN_FILES_URL)) = None ->
      let r := downloadAudio deserializeJson serializeJson String_toInt e in
      fst r = false
      /\ knownFiles (snd r) = knownFiles e
      /\ knownSequenceCount (snd r) = knownSequenceCount e).
Proof.
  split.
  - intros jsonString Hf Hp.
    assert (H : exists e',
      loadKnownSequencesFromSDCard deserializeJson String_toInt e
        = (false, e')
      /\ knownFiles e' = knownFiles e
      /\ knownSequenceCount e' = knownSequenceCount e).
    { unfold loadKnownSequencesFromSDCard, bind, gets, ret, modify,
        SD_exists, SD_open_read, gets.
      rewrite initializeSDCard_spec. unfold mark_ready.
      destruct (sd_ready e) eqn:Hr; simpl; [| eauto].
      destruct (bool_decide (is_Some _) || bool_decide (_ ∈ sd_dirs e));
        simpl; [| eauto].
      rewrite Hf.
      destruct (bool_decide (strlen jsonString = 0%nat)); simpl; [eauto |].
      rewrite Hp. simpl. eauto. }
    destruct H as (e' & -> & Hk & Hc). simpl. auto.
  - intros Hw Hs Hp.
    assert (H : exists e',
      downloadAudio deserializeJson serializeJson String_toInt e = (false, e')
      /\ knownFiles e' = knownFiles e
      /\ knownSequenceCount e' = knownSequenceCount e).
    { unfold downloadAudio, bind, gets, ret. rewrite Hw. simpl.
      rewrite isCacheStale_spec in *. simpl in Hs. rewrite Hs.
      unfold response_of in Hp. unfold http_GET. simpl.
      assert (Hea : (if bool_decide (knownSequenceCount e = 0)%nat then e
                     else mark_ready e) = e
                    \/ (if bool_decide (knownSequenceCount e = 0)%nat then e
                        else mark_ready e) = set_sdCardInitialized true e).
      { unfold mark_ready. case_bool_decide; [auto |].
        destruct (sd_ready e); auto. }
      destruct Hea as [-> | ->]; simpl;
        (destruct (http_code _ =? 200); simpl; [| eauto]);
        (destruct (MAX_HTTP_RESPONSE_SIZE <? _); simpl; [eauto |]);
        rewrite Hp; simpl; eauto. }
    destruct H as (e' & -> & Hk & Hc). simpl. auto.
Qed.

(** A save on an available card whose two files can be written. *)
Lemma saveKnownSequencesToSDCard_ok e :
  sd_ready e = true ->
  AUDIO_JSON_FILE ∉ sd_readonly e ->
  CACHE_TIMESTAMP_FILE ∉ sd_readonly e ->
  (forall records, strlen (serializeJson records) <> 0%nat) ->
  saveKnownSequencesToSDCard serializeJson e
    = (true,
       set_lastCacheTime (millis e)
         (set_sd_files
            (<[CACHE_TIMESTAMP_FILE := print_ulong (millis e)]>
               (<[AUDIO_JSON_FILE :=
                    serializeJson
                      (take (knownSequenceCount e) (knownFiles e))]>
                  (sd_files e)))
            (set_sdCardInitialized true e))).
Proof.
  intros Hr Hj Ht Hser.
  unfold saveKnownSequencesToSDCard, bind, gets, ret, modify, SD_open_write,
    SD_store, gets, modify.
  rewrite initializeSDCard_spec. unfold mark_ready. rewrite Hr. simpl.
  rewrite bool_decide_eq_true_2 by exact Hj. simpl.
  rewrite bool_decide_eq_false_2 by apply Hser. simpl.
  rewrite bool_decide_eq_true_2 by exact Ht. simpl. reflexivity.
Qed.

(** A refresh that fetched a registry with at least one record and could
    write both files is followed, within the validity window, by a refresh
    that makes no request. *)
Lemma refresh_twice e0 root t2 w :
  wifi_connected e0 = true ->
  fst (isCacheStale String_toInt e0) = true ->
  http_code (response_of e0 KNOWN_FILES_URL) = 200 ->
  Z.of_nat (strlen (getString (response_of e0 KNOWN_FILES_URL)))
    <= MAX_HTTP_RESPONSE_SIZE ->
  deserializeJson (getString (response_of e0 KNOWN_FILES_URL)) = Some root ->
  root <> [] ->
  sd_ready e0 = true ->
  AUDIO_JSON_FILE ∉ sd_readonly e0 ->
  CACHE_TIMESTAMP_FILE ∉ sd_readonly e0 ->
  (forall records, strlen (serializeJson records) <> 0%nat) ->
  wrap32 (String_toInt (print_ulong (millis e0))) = millis e0 ->
  cacheAge (millis e0) t2 <= maxAge ->
  let r1 := downloadAudio deserializeJson serializeJson String_toInt e0 in
  let e2 := set_millis t2 (set_wifi_connected w (snd r1)) in
  let r2 := downloadAudio deserializeJson serializeJson String_toInt e2 in
  fst r1 = true
  /\ http_requests (snd r1) = http_requests e0 ++ [KNOWN_FILES_URL]
  /\ http_requests (snd r2) = http_requests (snd r1)
  /\ (w = true -> fst r2 = true).
Proof.
  intros Hw Hs Hcode Hsize Hparse Hroot Hr Hj Ht Hser Hrt Hage.
  set (r1 := downloadAudio deserializeJson serializeJson String_toInt e0).
  assert (H1 : fst r1 = true
    /\ http_requests (snd r1) = http_requests e0 ++ [KNOWN_FILES_URL]
    /\ knownSequenceCount (snd r1) <> 0%nat
    /\ sdCardInitialized (snd r1) = true
    /\ sd_files (snd r1) !! CACHE_TIMESTAMP_FILE
         = Some (print_ulong (millis e0))).
  { unfold r1, downloadAudio, bind, gets, ret. rewrite Hw. simpl.
    rewrite isCacheStale_spec in *. simpl in Hs. rewrite Hs.
    unfold response_of in *. unfold http_GET. simpl.
    assert (Hea : (if bool_decide (knownSequenceCount e0 = 0)%nat then e0
                   else mark_ready e0) = e0
                  \/ (if bool_decide (knownSequenceCount e0 = 0)%nat then e0
                      else mark_ready e0) = set_sdCardInitialized true e0).
    { unfold mark_ready. rewrite Hr. case_bool_decide; auto. }
    assert (Hn : Nat.min (0 + length root) MAX_KNOWN_SEQUENCES <> 0%nat).
    { destruct root; [contradiction | simpl; unfold MAX_KNOWN_SEQUENCES].
      lia. }
    destruct Hea as [-> | ->]; simpl; rewrite Hcode; simpl;
      rewrite (proj2 (Z.ltb_ge _ _)) by exact Hsize; rewrite Hparse;
      unfold modify; simpl.
    all: match goal with
         | |- context [load_records ?rt ?ec] =>
             destruct (load_records_spec rt ec) as [l Hl];
               [simpl; lia |];
             destruct (load_records rt ec) as [u ed]; simpl in Hl; subst ed
         end.
    all: rewrite saveKnownSequencesToSDCard_ok;
      [| first [exact Hr | reflexivity] | exact Hj | exact Ht | exact Hser].
    all: simpl; rewrite lookup_insert_eq; auto.
  }
  destruct H1 as (Hres & Hreq & Hcount & Hinit & Hmark).
  simpl. fold r1.
  set (e2 := set_millis t2 (set_wifi_connected w (snd r1))).
  assert (Hfresh : fst (isCacheStale String_toInt e2) = false).
  { rewrite isCacheStale_spec. simpl.
    rewrite bool_decide_eq_false_2 by exact Hcount. simpl.
    rewrite Hmark. rewrite Hrt.
    apply andb_false_iff. right. apply Z.ltb_ge. exact Hage. }
  destruct (downloadAudio_not_stale e2 Hfresh) as (Hq & _ & _ & Hok).
  split; [exact Hres |]. split; [exact Hreq |].
  split; [exact Hq |]. intros ->. apply Hok. reflexivity.
Qed.

(** C7 (amended). With a cache that is not stale, refresh makes no
    network request and leaves the registry as it is; with the network
    available it succeeds trivially. After a refresh that fetched a
    registry with at least one record and wrote the registry and the mark
    to the card (card ready, both cache files writable), the mark reading
    back through [String::toInt] as the clock value written, a second
    refresh before the validity window has elapsed makes no request. *)
Theorem refresh_skips_fresh_cache e :
  (fst (isCacheStale String_toInt e) = false ->
   let r := downloadAudio deserializeJson serializeJson String_toInt e in
   http_requests (snd r) = http_requests e
   /\ knownFiles (snd r) = knownFiles e
   /\ knownSequenceCount (snd r) = knownSequenceCount e
   /\ (wifi_connected e = true -> fst r = true))
  /\ (forall root t2 w,
      wifi_connected e = true ->
      fst (isCacheStale String_toInt e) = true ->
      http_code (response_of e KNOWN_FILES_URL) = 200 ->
      Z.of_nat (strlen (getString (response_of e KNOWN_FILES_URL)))
        <= MAX_HTTP_RESPONSE_SIZE ->
      deserializeJson (getString (response_of e KNOWN_FILES_URL))
        = Some root ->
      root <> [] ->
      sd_ready e = true ->
      AUDIO_JSON_FILE ∉ sd_readonly e ->
      CACHE_TIMESTAMP_FILE ∉ sd_readonly e ->
      (forall records, strlen (serializeJson records) <> 0%nat) ->
      wrap32 (String_toInt (print_ulong (millis e))) = millis e ->
      cacheAge (millis e) t2 <= maxAge ->
      let r1 := downloadAudio deserializeJson serializeJson String_toInt e in
      let e2 := set_millis t2 (set_wifi_connected w (snd r1)) in
      let r2 := downloadAudio deserializeJson serializeJson String_toInt e2 in
      fst r1 = true
      /\ http_requests (snd r1) = http_requests e ++ [KNOWN_FILES_URL]
      /\ http_requests (snd r2) = http_requests (snd r1)
      /\ (w = true -> fst r2 = true)).
Proof.
  split.
  - intros Hs. apply downloadAudio_not_stale. exact Hs.
  - intros root t2 w. apply refresh_twice.
Qed.

End RegistryProperties.

(** ** The resolver *)

Lemma has_prefix_nonempty p s :
  p <> "" -> has_prefix p s = true -> strlen s <> 0%nat.
Proof.
  intros Hp H Hs. destruct s; [| discriminate].
  destruct p; [contradiction | discriminate].
Qed.

Lemma new_item_same url0 d e e' :
  same_card e e' -> new_item url0 d e = new_item url0 d e'.
Proof.
  intros Hs. unfold new_item. rewrite (local_path_same _ _ _ Hs). reflexivity.
Qed.

(** What [processAudioKey] does for an audio record with a remote
    locator. *)
Lemma processAudioKey_remote key f e :
  find_key key e = Some f ->
  type f = "audio" ->
  has_prefix "http://" (path f) || has_prefix "https://" (path f) = true ->
  processAudioKey key e
    = if sd_ready e && exists_on e (local_path (path f) e)
      then (Some (local_path (path f) e), mark_ready e)
      else (None,
            snd (addToDownloadQueue (path f) (description f) (mark_ready e))).
Proof.
  intros Hk Ht Hp. unfold processAudioKey, bind, gets, ret. simpl.
  rewrite Hk, Ht. simpl.
  assert (Hn : strlen (path f) <> 0%nat).
  { apply orb_true_iff in Hp as [Hp | Hp];
      eapply has_prefix_nonempty; try exact Hp; discriminate. }
  rewrite bool_decide_eq_false_2 by exact Hn. rewrite Hp.
  rewrite audioFileExists_spec.
  destruct (sd_ready e && exists_on e (local_path (path f) e)).
  - destruct (getLocalAudioPath_spec (path f) (mark_ready e)) as [-> _].
    rewrite <- (local_path_same _ e (mark_ready e)) by apply same_card_mark.
    destruct (has_extension (path f)); [| rewrite mark_ready_idem];
      reflexivity.
  - destruct (addToDownloadQueue _ _ _). reflexivity.
Qed.

(** C2 (as stated) fails in front of a full queue: the key resolves to
    nothing and no task is enqueued for its locator. *)
Lemma resolve_full_queue_enqueues_nothing :
  find_key "123" env_resolve_full
    = Some (record_of "123" sample_entry)
  /\ fst (audioFileExists "https://x/a.mp3" env_resolve_full) = false
  /\ fst (processAudioKey "123" env_resolve_full) = None
  /\ url_queued "https://x/a.mp3"
       (snd (processAudioKey "123" env_resolve_full)) = false
  /\ downloadQueueCount (snd (processAudioKey "123" env_resolve_full))
       = downloadQueueCount env_resolve_full.
Proof. by_computation. Qed.

(** C2 (amended). For an audio record with an http or https locator and
    no file at the computed destination ([audioFileExists] is false),
    resolving the key returns no path; when the queue is below its
    capacity and does not hold the locator, exactly one task is stored at
    the end of the queue (the locator cut to 255 bytes, the computed
    destination, the description cut to 63 bytes, not in progress),
    otherwise the queue is unchanged. Once the card is available and a
    file exists at the computed destination ([audioFileExists] is true),
    resolving the key returns that path and leaves the queue alone; for a
    locator whose final segment has a dot the computed destination does
    not depend on the content of the card. *)
Theorem resolve_remote_then_cached key f e :
  find_key key e = Some f ->
  type f = "audio" ->
  has_prefix "http://" (path f) || has_prefix "https://" (path f) = true ->
  let r := processAudioKey key e in
  fst (audioFileExists (path f) e)
    = sd_ready e && exists_on e (local_path (path f) e)
  /\ (fst (audioFileExists (path f) e) = false ->
      fst r = None
      /\ ((downloadQueueCount e < MAX_DOWNLOAD_QUEUE)%nat ->
          url_queued (path f) e = false ->
          downloadQueueCount (snd r) = S (downloadQueueCount e)
          /\ downloadQueue (snd r)
               = <[downloadQueueCount e :=
                     {| url := strncpy_field 256 (path f);
                        localPath := local_path (path f) e;
                        item_description := strncpy_field 64 (description f);
                        inProgress := false |}]> (downloadQueue e))
      /\ ((MAX_DOWNLOAD_QUEUE <= downloadQueueCount e)%nat
          \/ url_queued (path f) e = true ->
          downloadQueueCount (snd r) = downloadQueueCount e
          /\ downloadQueue (snd r) = downloadQueue e))
  /\ (fst (audioFileExists (path f) e) = true ->
      fst r = Some (local_path (path f) e)
      /\ downloadQueueCount (snd r) = downloadQueueCount e
      /\ downloadQueue (snd r) = downloadQueue e)
  /\ (has_extension (path f) = true ->
      forall e0, local_path (path f) e0 = local_path (path f) e).
Proof.
  intros Hk Ht Hp. cbn zeta.
  rewrite (processAudioKey_remote key f e Hk Ht Hp).
  rewrite audioFileExists_spec. cbn [fst].
  assert (Hcount : downloadQueueCount (mark_ready e) = downloadQueueCount e)
    by (apply mark_ready_proj; reflexivity).
  assert (Hqueue : downloadQueue (mark_ready e) = downloadQueue e)
    by (apply mark_ready_proj; reflexivity).
  assert (Hq : url_queued (path f) (mark_ready e) = url_queued (path f) e)
    by (unfold url_queued; rewrite Hcount, Hqueue; reflexivity).
  split; [reflexivity |]. split; [| split].
  - intros Hn. rewrite Hn. simpl. split; [reflexivity |]. split.
    + intros Hc Hu.
      rewrite addToDownloadQueue_new by (rewrite ?Hcount, ?Hq; assumption).
      simpl. rewrite Hcount, Hqueue.
      rewrite <- (new_item_same _ _ e (mark_ready e)) by apply same_card_mark.
      split; reflexivity.
    + intros [Hc | Hu].
      * rewrite addToDownloadQueue_full by (rewrite Hcount; exact Hc).
        simpl. auto.
      * rewrite addToDownloadQueue_cases. rewrite Hq, Hu, Hcount.
        case_bool_decide; simpl; auto.
  - intros He. rewrite He. simpl. auto.
  - intros Hx e0.
    destruct (getLocalAudioPath_spec (path f) e0) as [_ ->].
    destruct (getLocalAudioPath_spec (path f) e) as [_ ->].
    rewrite !filename_of_ext by exact Hx. reflexivity.
Qed.

(** ** The properties at the sample environments *)

Lemma sample_serialize_nonempty records :
  strlen (sample_serialize records) <> 0%nat.
Proof. destruct records; discriminate. Qed.

Lemma refresh_skips_fresh_cache_witness :
  let r1 := downloadAudio sample_deserialize sample_serialize sample_toInt
              env_refresh in
  let e2 := set_millis 6000 (set_wifi_connected true (snd r1)) in
  let r2 := downloadAudio sample_deserialize sample_serialize sample_toInt
              e2 in
  fst (isCacheStale sample_toInt env_refresh) = true
  /\ cacheAge (millis env_refresh) 6000 <= maxAge
  /\ fst r1 = true
  /\ http_requests (snd r1) = [KNOWN_FILES_URL]
  /\ http_requests (snd r2) = http_requests (snd r1)
  /\ fst r2 = true.
Proof.
  assert (Hs : fst (isCacheStale sample_toInt env_refresh) = true)
    by reflexivity.
  assert (Hage : cacheAge (millis env_refresh) 6000 <= maxAge)
    by (vm_compute; discriminate).
  assert (Hj : AUDIO_JSON_FILE ∉ sd_readonly env_refresh).
  { change (sd_readonly env_refresh) with (∅ : gset string).
    apply not_elem_of_empty. }
  assert (Ht : CACHE_TIMESTAMP_FILE ∉ sd_readonly env_refresh).
  { change (sd_readonly env_refresh) with (∅ : gset string).
    apply not_elem_of_empty. }
  destruct (proj2 (refresh_skips_fresh_cache sample_deserialize
                     sample_serialize sample_toInt env_refresh)
              sample_root 6000 true)
    as (H1 & H2 & H3 & H4);
    try reflexivity; try assumption.
  - discriminate.
  - apply sample_serialize_nonempty.
  - simpl. split; [exact Hs |]. split; [exact Hage |].
    split; [exact H1 |]. split; [exact H2 |]. split; [exact H3 |].
    apply H4. reflexivity.
Defined.

(** C7 (as stated) fails when the registry on the server is empty: the
    first refresh succeeds with one request and leaves the registry empty,
    an empty registry counts as stale whatever the mark says, and the
    second refresh, one second later, makes a second request. *)
Lemma refresh_twice_empty_registry_requests_again :
  let r1 := downloadAudio sample_deserialize sample_serialize sample_toInt
              env_refresh_empty in
  let e2 := set_millis 6000 (snd r1) in
  let r2 := downloadAudio sample_deserialize sample_serialize sample_toInt
              e2 in
  fst r1 = true
  /\ http_requests (snd r1) = [KNOWN_FILES_URL]
  /\ knownSequenceCount (snd r1) = 0%nat
  /\ sd_files (snd r1) !! CACHE_TIMESTAMP_FILE = Some "5000"
  /\ cacheAge 5000 (millis e2) <= maxAge
  /\ fst r2 = true
  /\ http_requests (snd r2) = [KNOWN_FILES_URL; KNOWN_FILES_URL]
  /\ http_requests (snd r2) <> http_requests (snd r1).
Proof.
  cbn zeta.
  repeat (split; [first [by_computation | vm_compute; discriminate] |]).
  vm_compute. discriminate.
Qed.

(** The mark is written with all its digits, but read back through a
    32-bit [long]: a mark of 2^31 ms or more reads back as [LONG_MAX], the
    age of the cache comes out too large, and the second refresh, 100 ms
    after the first, makes a second request. *)
Example refresh_twice_late_clock_run :
  let r1 := downloadAudio sample_deserialize sample_serialize sample_toInt
              env_refresh_late in
  let e2 := set_millis 3000000100 (snd r1) in
  let r2 := downloadAudio sample_deserialize sample_serialize sample_toInt
              e2 in
  print_ulong 3000000000 = "3000000000"
  /\ sd_files (snd r1) !! CACHE_TIMESTAMP_FILE = Some "3000000000"
  /\ wrap32 (sample_toInt "3000000000") = 2147483647
  /\ knownSequenceCount (snd r1) = 1%nat
  /\ fst (isCacheStale sample_toInt e2) = true
  /\ http_requests (snd r2) = [KNOWN_FILES_URL; KNOWN_FILES_URL].
Proof. by_computation. Qed.

(** The decimal digits of the clock, none dropped and none added. *)
Example print_ulong_run :
  print_ulong 0 = "0" /\ print_ulong 5000 = "5000"
  /\ print_ulong 4294967295 = "4294967295".
Proof. by_computation. Qed.

Lemma resolve_remote_then_cached_witness :
  find_key "123" env_resolve = Some (record_of "123" sample_entry)
  /\ fst (audioFileExists "https://x/a.mp3" env_resolve) = false
  /\ fst (processAudioKey "123" env_resolve) = None
  /\ downloadQueueCount (snd (processAudioKey "123" env_resolve)) = 1%nat
  /\ local_path "https://x/a.mp3" env_resolve = "/audio/a.mp3".
Proof.
  assert (Hk : find_key "123" env_resolve
               = Some (record_of "123" sample_entry)) by reflexivity.
  assert (Hn : fst (audioFileExists "https://x/a.mp3" env_resolve) = false)
    by reflexivity.
  destruct (resolve_remote_then_cached "123" (record_of "123" sample_entry)
              env_resolve Hk eq_refl eq_refl) as (_ & Hmiss & _ & _).
  destruct (Hmiss Hn) as (Hres & Hnew & _).
  destruct Hnew as [Hcount _]; [vm_compute; lia | reflexivity |].
  split; [exact Hk |]. split; [exact Hn |]. split; [exact Hres |].
  split; [exact Hcount | reflexivity].
Defined.

(** The remote-then-cached run of the specification: the key resolves to
    nothing and one task is queued; the drive step downloads the file; the
    key then resolves to the destination of the task. *)
Example remote_then_cached_run :
  let e1 := snd (processAudioKey "123" env_resolve) in
  let e2 := snd (processDownloadQueue e1) in
  fst (processAudioKey "123" env_resolve) = None
  /\ downloadQueueCount e1 = 1%nat
  /\ localPath (downloadQueue e1 !!! 0%nat) = "/audio/a.mp3"
  /\ fst (processDownloadQueue e1) = true
  /\ fst (processAudioKey "123" e2) = Some "/audio/a.mp3".
Proof. by_computation. Qed.

(** The same run for a locator without a dot in its final segment: the
    download creates the destination of the task, but the codec, finding
    the hashed name taken, now computes the name with the suffix 1, so the
    key still resolves to nothing. *)
Example hashed_name_run :
  let e1 := snd (processAudioKey "456" env_stream) in
  let e2 := snd (processDownloadQueue e1) in
  localPath (downloadQueue e1 !!! 0%nat) = "/audio/audio_8d0dd443.mp3"
  /\ fst (processDownloadQueue e1) = true
  /\ exists_on e2 "/audio/audio_8d0dd443.mp3" = true
  /\ local_path "https://x/stream" e2 = "/audio/audio_8d0dd443_1.mp3"
  /\ fst (processAudioKey "456" e2) = None.
Proof. by_computation. Qed.

Lemma drive_step_result_witness :
  attempted env_404 = true
  /\ downloadQueueIndex (snd (processDownloadQueue env_404))
       = S (downloadQueueIndex env_404)
  /\ fst (processDownloadQueue env_404) = false.
Proof.
  assert (Ha : attempted env_404 = true) by reflexivity.
  destruct (proj1 (proj2 (drive_step_result env_404)) Ha) as (Hi & _ & Hr).
  split; [exact Ha |]. split; [exact Hi |].
  rewrite Hr. reflexivity.
Defined.

(** C4 (as stated) fails without a card: the mark cannot be read, the
    registry is not empty, and the check reports not stale. *)
Lemma stale_check_without_card :
  knownSequenceCount env_no_card = 1%nat
  /\ sd_ready env_no_card = false
  /\ sd_files env_no_card !! CACHE_TIMESTAMP_FILE = None
  /\ fst (isCacheStale sample_toInt env_no_card) = false.
Proof. by_computation. Qed.

Lemma isCacheStale_exactly_witness :
  knownSequenceCount env_no_card <> 0%nat
  /\ sd_ready env_no_card = false
  /\ fst (isCacheStale sample_toInt env_no_card) = false.
Proof.
  assert (Hc : knownSequenceCount env_no_card <> 0%nat) by discriminate.
  assert (Hr : sd_ready env_no_card = false) by reflexivity.
  split; [exact Hc |]. split; [exact Hr |].
  exact (proj2 (isCacheStale_exactly sample_toInt env_no_card) Hc Hr).
Defined.

Lemma parse_error_keeps_registry_witness :
  sd_files env_bad_file !! AUDIO_JSON_FILE = Some "{123:{descr"
  /\ sample_deserialize "{123:{descr" = None
  /\ fst (loadKnownSequencesFromSDCard sample_deserialize sample_toInt
            env_bad_file) = false
  /\ knownSequenceCount
       (snd (loadKnownSequencesFromSDCard sample_deserialize sample_toInt
               env_bad_file)) = 1%nat
  /\ wifi_connected env_bad_reply = true
  /\ fst (isCacheStale sample_toInt env_bad_reply) = true
  /\ sample_deserialize (getString (response_of env_bad_reply KNOWN_FILES_URL))
       = None
  /\ fst (downloadAudio sample_deserialize sample_serialize sample_toInt
            env_bad_reply) = false
  /\ knownSequenceCount
       (snd (downloadAudio sample_deserialize sample_serialize sample_toInt
               env_bad_reply)) = 1%nat.
Proof.
  assert (Hf : sd_files env_bad_file !! AUDIO_JSON_FILE = Some "{123:{descr")
    by reflexivity.
  assert (Hp : sample_deserialize "{123:{descr" = None) by reflexivity.
  assert (Hw : wifi_connected env_bad_reply = true) by reflexivity.
  assert (Hs : fst (isCacheStale sample_toInt env_bad_reply) = true)
    by reflexivity.
  assert (Hq : sample_deserialize
                 (getString (response_of env_bad_reply KNOWN_FILES_URL))
               = None) by reflexivity.
  destruct (proj1 (parse_error_keeps_registry sample_deserialize
                     sample_serialize sample_toInt env_bad_file)
              _ Hf Hp) as (H1 & _ & H2).
  destruct (proj2 (parse_error_keeps_registry sample_deserialize
                     sample_serialize sample_toInt env_bad_reply)
              Hw Hs Hq) as (H3 & _ & H4).
  repeat (split; [assumption |]). exact H4.
Defined.

(** * Further properties *)

(** Every field but the flag survives [mark_ready]. *)
Ltac mark_fields :=
  rewrite ?(mark_ready_proj http_requests), ?(mark_ready_proj sd_files),
    ?(mark_ready_proj sd_dirs), ?(mark_ready_proj knownFiles),
    ?(mark_ready_proj knownSequenceCount), ?(mark_ready_proj lastCacheTime),
    ?(mark_ready_proj downloadQueue), ?(mark_ready_proj downloadQueueCount),
    ?(mark_ready_proj downloadQueueIndex), ?(mark_ready_proj wifi_connected),
    ?(mark_ready_proj millis), ?(mark_ready_proj sd_readonly),
    ?(mark_ready_proj sd_mkdir_ok), ?(mark_ready_proj http_server),
    ?(mark_ready_proj lastDownloadCheck), ?sd_ready_mark
    by reflexivity.

Ltac mark_fields_in H :=
  rewrite ?(mark_ready_proj http_requests), ?(mark_ready_proj sd_files),
    ?(mark_ready_proj sd_dirs), ?(mark_ready_proj knownFiles),
    ?(mark_ready_proj knownSequenceCount), ?(mark_ready_proj lastCacheTime),
    ?(mark_ready_proj downloadQueue), ?(mark_ready_proj downloadQueueCount),
    ?(mark_ready_proj downloadQueueIndex), ?(mark_ready_proj wifi_connected),
    ?(mark_ready_proj millis), ?(mark_ready_proj sd_readonly),
    ?(mark_ready_proj sd_mkdir_ok), ?(mark_ready_proj http_server),
    ?(mark_ready_proj lastDownloadCheck), ?sd_ready_mark
    in H by reflexivity.

(** ** The resolver outside remote audio *)

Lemma hasAudioKey_find key e :
  hasAudioKey key e = true <-> exists f, find_key key e = Some f.
Proof.
  unfold hasAudioKey, find_key. case_bool_decide as Hc.
  - rewrite Hc. rewrite take_0. simpl. split; [discriminate |].
    intros [f Hf]. discriminate.
  - rewrite existsb_exists. split.
    + intros (x & Hin & Hx).
      destruct (List.find _ _) as [f |] eqn:Hf; [eauto |].
      pose proof (find_none _ _ Hf x Hin) as Hn. simpl in Hn. congruence.
    + intros [f Hf]. apply find_some in Hf as [Hin Hx]. eauto.
Qed.

Lemma has_prefix_empty p : p <> "" -> has_prefix p "" = false.
Proof. destruct p; [contradiction | reflexivity]. Qed.

(** X1. A key [hasAudioKey] does not know, a record of a kind other than
    audio and an audio record without a locator all resolve to no path,
    and the call changes nothing at all. *)
Theorem resolve_nothing_to_play key e :
  (hasAudioKey key e = false -> processAudioKey key e = (None, e))
  /\ (forall f, find_key key e = Some f ->
        type f <> "audio" \/ path f = "" ->
        processAudioKey key e = (None, e)).
Proof.
  split.
  - intros Hh. unfold processAudioKey, bind, gets, ret.
    destruct (find_key key e) as [f |] eqn:Hf; [| reflexivity].
    assert (hasAudioKey key e = true) by (apply hasAudioKey_find; eauto).
    congruence.
  - intros f Hf Hcase. unfold processAudioKey, bind, gets, ret. rewrite Hf.
    destruct (String.eqb (type f) "audio") eqn:Ht.
    + apply String.eqb_eq in Ht. destruct Hcase as [Hn | Hp];
        [contradiction |].
      rewrite Hp. reflexivity.
    + repeat (destruct (String.eqb _ _); try reflexivity).
Qed.

Lemma resolve_nothing_to_play_witness :
  hasAudioKey "77" env_kinds = false
  /\ processAudioKey "77" env_kinds = (None, env_kinds)
  /\ find_key "0" env_kinds = Some (record_of "0" service_entry)
  /\ processAudioKey "0" env_kinds = (None, env_kinds).
Proof.
  assert (H1 : hasAudioKey "77" env_kinds = false) by reflexivity.
  assert (H2 : find_key "0" env_kinds = Some (record_of "0" service_entry))
    by reflexivity.
  split; [exact H1 |].
  split; [exact (proj1 (resolve_nothing_to_play "77" env_kinds) H1) |].
  split; [exact H2 |].
  apply (proj2 (resolve_nothing_to_play "0" env_kinds) _ H2).
  left. discriminate.
Defined.

(** X2. An audio record whose locator is not empty and does not start
    with http:// or https:// resolves to that locator itself; neither the
    card nor the queue is consulted and nothing changes. *)
Theorem resolve_local_path key f e :
  find_key key e = Some f ->
  type f = "audio" ->
  path f <> "" ->
  has_prefix "http://" (path f) = false ->
  has_prefix "https://" (path f) = false ->
  processAudioKey key e = (Some (path f), e).
Proof.
  intros Hf Ht Hn H1 H2. unfold processAudioKey, bind, gets, ret.
  rewrite Hf, Ht. simpl. rewrite H1, H2.
  rewrite bool_decide_eq_false_2; [reflexivity |].
  destruct (path f); [contradiction | discriminate].
Qed.

Lemma resolve_local_path_witness :
  find_key "123" env_kinds = Some (record_of "123" local_entry)
  /\ processAudioKey "123" env_kinds = (Some "/local/a.mp3", env_kinds).
Proof.
  assert (Hf : find_key "123" env_kinds = Some (record_of "123" local_entry))
    by reflexivity.
  split; [exact Hf |].
  apply (resolve_local_path "123" (record_of "123" local_entry) env_kinds Hf);
    [reflexivity | discriminate | reflexivity | reflexivity].
Defined.

(** What an enqueue leaves alone. *)
Lemma addToDownloadQueue_frame u d e :
  let e' := snd (addToDownloadQueue u d e) in
  http_requests e' = http_requests e
  /\ sd_files e' = sd_files e /\ sd_dirs e' = sd_dirs e
  /\ knownFiles e' = knownFiles e
  /\ knownSequenceCount e' = knownSequenceCount e
  /\ downloadQueueIndex e' = downloadQueueIndex e
  /\ wifi_connected e' = wifi_connected e
  /\ sd_ready e' = sd_ready e
  /\ (downloadQueueCount e <= downloadQueueCount e'
      <= S (downloadQueueCount e))%nat.
Proof.
  cbn zeta. rewrite addToDownloadQueue_cases.
  case_bool_decide as Hc; [cbn [snd]; repeat split; lia |].
  destruct (url_queued u e); cbn [snd]; [repeat split; lia |].
  unfold enqueued. destruct (has_extension u); simpl.
  - repeat split; lia.
  - mark_fields. repeat split; try lia.
    unfold sd_ready. simpl. fold (sd_ready (mark_ready e)).
    apply sd_ready_mark.
Qed.

(** The resolver either changes nothing or takes the remote branch. *)
Lemma processAudioKey_branches key e :
  snd (processAudioKey key e) = e
  \/ exists f,
       find_key key e = Some f
       /\ processAudioKey key e
          = if sd_ready e && exists_on e (local_path (path f) e)
            then (Some (local_path (path f) e), mark_ready e)
            else (None,
                  snd (addToDownloadQueue (path f) (description f)
                         (mark_ready e))).
Proof.
  destruct (find_key key e) as [f |] eqn:Hf.
  - destruct (String.eqb (type f) "audio") eqn:Ht.
    + apply String.eqb_eq in Ht.
      destruct (has_prefix "http://" (path f)
                || has_prefix "https://" (path f)) eqn:Hp.
      * right. exists f. split; [reflexivity |].
        apply processAudioKey_remote; assumption.
      * left. unfold processAudioKey, bind, gets, ret. rewrite Hf, Ht.
        simpl. rewrite Hp. case_bool_decide; reflexivity.
    + left. unfold processAudioKey, bind, gets, ret. rewrite Hf, Ht.
      repeat (destruct (String.eqb _ _); try reflexivity).
  - left. unfold processAudioKey, bind, gets, ret. rewrite Hf. reflexivity.
Qed.

(** X3. Resolving a key never makes a request, never writes or removes a
    file or directory, never changes the registry or the cursor; the queue
    count stays or grows by one. *)
Theorem resolve_keeps_world key e :
  let e' := snd (processAudioKey key e) in
  http_requests e' = http_requests e
  /\ sd_files e' = sd_files e /\ sd_dirs e' = sd_dirs e
  /\ knownFiles e' = knownFiles e
  /\ knownSequenceCount e' = knownSequenceCount e
  /\ downloadQueueIndex e' = downloadQueueIndex e
  /\ (downloadQueueCount e <= downloadQueueCount e'
      <= S (downloadQueueCount e))%nat.
Proof.
  cbn zeta. destruct (processAudioKey_branches key e) as [-> | (f & _ & ->)].
  - repeat split; lia.
  - destruct (sd_ready e && exists_on e (local_path (path f) e)); cbn [snd].
    + mark_fields. repeat split; lia.
    + pose proof (addToDownloadQueue_frame (path f) (description f)
                    (mark_ready e)) as H. cbn zeta in H.
      mark_fields_in H.
      destruct H as (H1 & H2 & H3 & H4 & H5 & H6 & _ & _ & H7).
      repeat split; try assumption; lia.
Qed.

(** ** The loading loop *)

Lemma registry_store c r (kf : list AudioFile) :
  (c < length kf)%nat ->
  take (S c) (<[c := r]> kf) = take c kf ++ [r].
Proof.
  intros Hc. rewrite (take_S_r _ _ r) by (apply list_lookup_insert_eq; exact Hc).
  rewrite take_insert_ge by lia. reflexivity.
Qed.

Lemma load_records_from root e :
  (knownSequenceCount e <= MAX_KNOWN_SEQUENCES)%nat ->
  length (knownFiles e) = MAX_KNOWN_SEQUENCES ->
  let e' := snd (load_records root e) in
  registry e'
    = registry e
      ++ take (MAX_KNOWN_SEQUENCES - knownSequenceCount e) (records_of root)
  /\ length (knownFiles e') = MAX_KNOWN_SEQUENCES.
Proof.
  revert e. induction root as [| [key seqData] rest IH]; intros e Hc Hlen.
  - cbn zeta. simpl. rewrite take_nil, app_nil_r. auto.
  - cbn zeta. cbn [load_records]. unfold bind, gets, modify.
    cbn beta iota. case_bool_decide as Hfull; cbn [fst snd].
    + replace (MAX_KNOWN_SEQUENCES - knownSequenceCount e)%nat with 0%nat
        by lia.
      rewrite take_0, app_nil_r. auto.
    + set (e1 := set_knownSequenceCount _ _).
      assert (Hc1 : knownSequenceCount e1 = S (knownSequenceCount e))
        by reflexivity.
      assert (Hk1 : knownFiles e1
                    = <[knownSequenceCount e := record_of key seqData]>
                        (knownFiles e)) by reflexivity.
      destruct (IH e1) as [Hreg Hl];
        [lia | rewrite Hk1, length_insert; exact Hlen |].
      split; [| exact Hl]. rewrite Hreg. unfold registry at 1.
      rewrite Hc1, Hk1. rewrite registry_store by lia.
      rewrite <- app_assoc. f_equal.
      replace (MAX_KNOWN_SEQUENCES - knownSequenceCount e)%nat
        with (S (MAX_KNOWN_SEQUENCES - S (knownSequenceCount e))) by lia.
      reflexivity.
Qed.

(** The loading loop on an empty registry. *)
Lemma load_records_fresh root e :
  knownSequenceCount e = 0%nat ->
  length (knownFiles e) = MAX_KNOWN_SEQUENCES ->
  let e' := snd (load_records root e) in
  registry e' = take MAX_KNOWN_SEQUENCES (records_of root)
  /\ knownSequenceCount e'
     = Nat.min (length root) MAX_KNOWN_SEQUENCES
  /\ length (knownFiles e') = MAX_KNOWN_SEQUENCES.
Proof.
  intros Hc Hlen. cbn zeta.
  destruct (load_records_from root e) as [Hreg Hl]; [lia | exact Hlen |].
  cbn zeta in Hreg, Hl. split; [| split; [| exact Hl]].
  - rewrite Hreg. unfold registry. rewrite Hc, take_0, Nat.sub_0_r.
    reflexivity.
  - destruct (load_records_spec root e) as [l ->]; [lia |].
    rewrite Hc. reflexivity.
Qed.

(** X4. Loading a document into an empty registry stores its members in
    document order, one record per member with the defaults for missing
    texts, and drops every member after the first [MAX_KNOWN_SEQUENCES]. *)
Theorem load_records_registry root e :
  knownSequenceCount e = 0%nat ->
  length (knownFiles e) = MAX_KNOWN_SEQUENCES ->
  let e' := snd (load_records root e) in
  registry e' = take MAX_KNOWN_SEQUENCES (records_of root)
  /\ knownSequenceCount e'
     = Nat.min (length root) MAX_KNOWN_SEQUENCES
  /\ length (knownFiles e') = MAX_KNOWN_SEQUENCES.
Proof.
  intros Hc Hlen. cbn zeta.
  destruct (load_records_from root e) as [Hreg Hl]; [lia | exact Hlen |].
  cbn zeta in Hreg, Hl. split; [| split; [| exact Hl]].
  - rewrite Hreg. unfold registry. rewrite Hc, take_0, Nat.sub_0_r.
    reflexivity.
  - destruct (load_records_spec root e) as [l ->]; [lia |].
    rewrite Hc. reflexivity.
Qed.

Lemma load_records_registry_witness :
  knownSequenceCount env0 = 0%nat
  /\ length (knownFiles env0) = MAX_KNOWN_SEQUENCES
  /\ registry (snd (load_records
                      [("123", local_entry); ("9", bare_entry)] env0))
     = [record_of "123" local_entry;
        {| audioKey := "9"; description := "Unknown"; type := "unknown";
           path := "" |}].
Proof.
  assert (H1 : knownSequenceCount env0 = 0%nat) by reflexivity.
  assert (H2 : length (knownFiles env0) = MAX_KNOWN_SEQUENCES) by reflexivity.
  split; [exact H1 | split; [exact H2 |]].
  rewrite (proj1 (load_records_registry
                    [("123", local_entry); ("9", bare_entry)] env0 H1 H2)).
  reflexivity.
Defined.

(** ** The registry store *)

Section StoreProperties.

Variable deserializeJson : string -> option (list (string * JsonEntry)).
Variable serializeJson : list AudioFile -> string.
Variable String_toInt : string -> Z.

(** The outcomes of a save. *)
Lemma saveKnownSequencesToSDCard_cases e :
  saveKnownSequencesToSDCard serializeJson e
    = if negb (sd_ready e) then (false, e)
      else if bool_decide (AUDIO_JSON_FILE ∈ sd_readonly e)
      then (false, set_sdCardInitialized true e)
      else
        let text := serializeJson (registry e) in
        let e1 := set_sd_files (<[AUDIO_JSON_FILE := text]> (sd_files e))
                    (set_sdCardInitialized true e) in
        if bool_decide (strlen text = 0)%nat then (false, e1)
        else if bool_decide (CACHE_TIMESTAMP_FILE ∈ sd_readonly e)
        then (true, e1)
        else (true,
              set_lastCacheTime (millis e)
                (set_sd_files
                   (<[CACHE_TIMESTAMP_FILE := print_ulong (millis e)]>
                      (<[AUDIO_JSON_FILE := text]> (sd_files e)))
                   (set_sdCardInitialized true e))).
Proof.
  unfold saveKnownSequencesToSDCard, bind, gets, ret, modify, SD_open_write,
    SD_store, gets, modify, registry.
  rewrite initializeSDCard_spec. unfold mark_ready.
  destruct (sd_ready e) eqn:Hr; simpl; [| reflexivity].
  destruct (decide (AUDIO_JSON_FILE ∈ sd_readonly e)) as [Hj | Hj].
  - rewrite (bool_decide_eq_false_2 (_ ∉ _)) by tauto.
    rewrite (bool_decide_eq_true_2 (_ ∈ _)) by exact Hj. reflexivity.
  - rewrite (bool_decide_eq_true_2 (_ ∉ _)) by exact Hj.
    rewrite (bool_decide_eq_false_2 (_ ∈ _)) by exact Hj. simpl.
    destruct (bool_decide (strlen _ = 0%nat)); simpl; [reflexivity |].
    destruct (decide (CACHE_TIMESTAMP_FILE ∈ sd_readonly e)) as [Ht | Ht].
    + rewrite (bool_decide_eq_false_2 (_ ∉ _)) by tauto.
      rewrite (bool_decide_eq_true_2 (_ ∈ _)) by exact Ht. reflexivity.
    + rewrite (bool_decide_eq_true_2 (_ ∉ _)) by exact Ht.
      rewrite (bool_decide_eq_false_2 (_ ∈ _)) by exact Ht. reflexivity.
Qed.

Lemma cache_files_differ : AUDIO_JSON_FILE <> CACHE_TIMESTAMP_FILE.
Proof. unfold AUDIO_JSON_FILE, CACHE_TIMESTAMP_FILE. discriminate. Qed.

(** What a save leaves alone. *)
Lemma saveKnownSequencesToSDCard_frame e :
  let e' := snd (saveKnownSequencesToSDCard serializeJson e) in
  knownFiles e' = knownFiles e
  /\ knownSequenceCount e' = knownSequenceCount e
  /\ downloadQueue e' = downloadQueue e
  /\ downloadQueueCount e' = downloadQueueCount e
  /\ downloadQueueIndex e' = downloadQueueIndex e
  /\ http_requests e' = http_requests e.
Proof.
  cbn zeta. rewrite saveKnownSequencesToSDCard_cases. cbn zeta.
  destruct (sd_ready e); simpl; [| tauto].
  repeat (case_bool_decide; simpl); tauto.
Qed.

(** X5. A save never changes the registry, the queue or the request
    trace. Without a card it fails and writes nothing. With a card, a
    writable registry file and a text that is not empty it succeeds and
    the registry file holds the serialised registry, whether or not the
    mark can be written: an unwritable mark file keeps its old content and
    [lastCacheTime] its old value, a writable one takes the clock
    reading. *)
Theorem save_outcomes e :
  let r := saveKnownSequencesToSDCard serializeJson e in
  (knownFiles (snd r) = knownFiles e
   /\ knownSequenceCount (snd r) = knownSequenceCount e
   /\ downloadQueue (snd r) = downloadQueue e
   /\ downloadQueueCount (snd r) = downloadQueueCount e
   /\ downloadQueueIndex (snd r) = downloadQueueIndex e
   /\ http_requests (snd r) = http_requests e)
  /\ (sd_ready e = false -> r = (false, e))
  /\ (sd_ready e = true ->
      AUDIO_JSON_FILE ∉ sd_readonly e ->
      strlen (serializeJson (registry e)) <> 0%nat ->
      fst r = true
      /\ sd_files (snd r) !! AUDIO_JSON_FILE
         = Some (serializeJson (registry e))
      /\ (CACHE_TIMESTAMP_FILE ∈ sd_readonly e ->
          sd_files (snd r) !! CACHE_TIMESTAMP_FILE
            = sd_files e !! CACHE_TIMESTAMP_FILE
          /\ lastCacheTime (snd r) = lastCacheTime e)
      /\ (CACHE_TIMESTAMP_FILE ∉ sd_readonly e ->
          sd_files (snd r) !! CACHE_TIMESTAMP_FILE
            = Some (print_ulong (millis e))
          /\ lastCacheTime (snd r) = millis e)).
Proof.
  cbn zeta. rewrite saveKnownSequencesToSDCard_cases. cbn zeta.
  split; [| split].
  - rewrite <- saveKnownSequencesToSDCard_cases.
    apply saveKnownSequencesToSDCard_frame.
  - intros ->. reflexivity.
  - intros -> Hj Hn. simpl.
    rewrite (bool_decide_eq_false_2 (_ ∈ _)) by exact Hj.
    rewrite (bool_decide_eq_false_2 (strlen _ = 0%nat)) by exact Hn.
    case_bool_decide as Ht; simpl.
    + split; [reflexivity |]. split; [apply lookup_insert_eq |].
      split; [| tauto]. intros _.
      split; [| reflexivity].
      apply lookup_insert_ne. apply cache_files_differ.
    + split; [reflexivity |]. split.
      * rewrite lookup_insert_ne by (apply not_eq_sym, cache_files_differ).
        apply lookup_insert_eq.
      * split; [tauto |]. intros _.
        split; [apply lookup_insert_eq | reflexivity].
Qed.

(** The mark a load reads back. *)
Lemma loadKnownSequencesFromSDCard_cases e :
  loadKnownSequencesFromSDCard deserializeJson String_toInt e
    = if negb (sd_ready e) then (false, e)
      else
        match sd_files e !! AUDIO_JSON_FILE with
        | None => (false, mark_ready e)
        | Some jsonString =>
            if bool_decide (strlen jsonString = 0)%nat
            then (false, mark_ready e)
            else
              let e1 :=
                set_lastCacheTime
                  match sd_files e !! CACHE_TIMESTAMP_FILE with
                  | Some timestampStr => wrap32 (String_toInt timestampStr)
                  | None => 0
                  end (mark_ready e) in
              match deserializeJson jsonString with
              | None => (false, e1)
              | Some root =>
                  (true, snd (load_records root (set_knownSequenceCount 0 e1)))
              end
        end.
Proof.
  unfold loadKnownSequencesFromSDCard, bind, gets, ret, modify.
  rewrite initializeSDCard_spec.
  destruct (sd_ready e) eqn:Hr; simpl;
    [| unfold mark_ready; rewrite Hr; reflexivity].
  unfold SD_exists, SD_open_read, gets. cbn beta. mark_fields.
  destruct (sd_files e !! AUDIO_JSON_FILE) as [s |] eqn:Hs; simpl.
  - mark_fields. rewrite Hs.
    destruct (bool_decide (strlen s = 0%nat)); simpl; [reflexivity |].
    mark_fields.
    destruct (deserializeJson s) as [root |]; simpl; [| reflexivity].
    destruct (load_records root _) as [[] e2]. reflexivity.
  - destruct (bool_decide _); simpl; mark_fields; rewrite ?Hs; reflexivity.
Qed.

(** X6. Save, then load: when the card is ready, both cache files can be
    written and the codec reads back what it wrote, a later load from a
    card with the same files (the registry in memory may be lost, as after
    a restart) restores exactly the saved registry and reads the mark the
    save wrote. *)
Theorem save_then_load e e2 root :
  sd_ready e = true ->
  AUDIO_JSON_FILE ∉ sd_readonly e ->
  CACHE_TIMESTAMP_FILE ∉ sd_readonly e ->
  (knownSequenceCount e <= MAX_KNOWN_SEQUENCES)%nat ->
  strlen (serializeJson (registry e)) <> 0%nat ->
  deserializeJson (serializeJson (registry e)) = Some root ->
  records_of root = registry e ->
  sd_files e2 = sd_files (snd (saveKnownSequencesToSDCard serializeJson e)) ->
  sd_ready e2 = true ->
  length (knownFiles e2) = MAX_KNOWN_SEQUENCES ->
  let r := loadKnownSequencesFromSDCard deserializeJson String_toInt e2 in
  fst r = true
  /\ registry (snd r) = registry e
  /\ lastCacheTime (snd r)
     = wrap32 (String_toInt (print_ulong (millis e))).
Proof.
  intros Hr Hj Ht Hc Hn Hd Hrec Hf Hr2 Hl2. cbn zeta.
  rewrite saveKnownSequencesToSDCard_cases in Hf. cbn zeta in Hf.
  rewrite Hr in Hf. cbn [negb] in Hf.
  rewrite (bool_decide_eq_false_2 (AUDIO_JSON_FILE ∈ _)) in Hf by exact Hj.
  rewrite (bool_decide_eq_false_2 (strlen _ = 0%nat)) in Hf by exact Hn.
  rewrite (bool_decide_eq_false_2 (CACHE_TIMESTAMP_FILE ∈ _)) in Hf
    by exact Ht.
  cbn [snd] in Hf. simpl in Hf.
  rewrite loadKnownSequencesFromSDCard_cases. cbn zeta.
  rewrite Hr2. cbn [negb]. rewrite Hf.
  rewrite lookup_insert_ne by (apply not_eq_sym, cache_files_differ).
  rewrite !lookup_insert_eq.
  rewrite (bool_decide_eq_false_2 (strlen _ = 0%nat)) by exact Hn.
  rewrite Hd.
  set (e3 := set_knownSequenceCount 0 _).
  destruct (load_records_fresh root e3) as (H1 & H2 & H3);
    [reflexivity | unfold e3; simpl; mark_fields; exact Hl2 |].
  cbn zeta in H1, H2, H3. cbn [fst snd].
  split; [reflexivity |]. split.
  - rewrite H1, Hrec. unfold registry. rewrite take_take.
    f_equal. lia.
  - destruct (load_records_spec root e3) as [l ->]; [unfold e3; simpl; lia |].
    unfold e3. simpl. reflexivity.
Qed.

(** The outcomes of a refresh. *)
Lemma downloadAudio_cases e :
  downloadAudio deserializeJson serializeJson String_toInt e
    = if negb (wifi_connected e) then (false, e)
      else
        let e1 := snd (isCacheStale String_toInt e) in
        if negb (fst (isCacheStale String_toInt e)) then (true, e1)
        else
          let response := response_of e KNOWN_FILES_URL in
          let e2 :=
            set_http_requests (http_requests e ++ [KNOWN_FILES_URL]) e1 in
          if negb (http_code response =? 200) then (false, e2)
          else if MAX_HTTP_RESPONSE_SIZE
                    <? Z.of_nat (strlen (getString response))
          then (false, e2)
          else
            match deserializeJson (getString response) with
            | None => (false, e2)
            | Some root =>
                (true,
                 snd (saveKnownSequencesToSDCard serializeJson
                        (snd (load_records root
                                (set_knownSequenceCount 0 e2)))))
            end.
Proof.
  unfold downloadAudio, bind, gets, ret, modify. cbn beta.
  destruct (wifi_connected e); simpl; [| reflexivity].
  rewrite isCacheStale_spec. cbn [fst snd].
  set (stale := _ || _). set (e1 := if bool_decide _ then e else _).
  destruct stale; simpl; [| reflexivity].
  unfold http_GET, response_of.
  assert (Hs : http_server e1 = http_server e)
    by (unfold e1; case_bool_decide; [| mark_fields]; reflexivity).
  assert (Hq : http_requests e1 = http_requests e)
    by (unfold e1; case_bool_decide; [| mark_fields]; reflexivity).
  rewrite Hs, Hq.
  destruct (http_code _ =? 200); simpl; [| reflexivity].
  destruct (_ <? _); simpl; [reflexivity |].
  destruct (deserializeJson _) as [root |]; simpl; [| reflexivity].
  destruct (load_records root _) as [[] e3]. simpl.
  destruct (saveKnownSequencesToSDCard serializeJson e3). reflexivity.
Qed.

Lemma isCacheStale_frame {A} (f : Env -> A) e :
  (forall b e0, f (set_sdCardInitialized b e0) = f e0) ->
  f (snd (isCacheStale String_toInt e)) = f e.
Proof.
  intros H. rewrite isCacheStale_spec. cbn [snd].
  case_bool_decide; [reflexivity |]. apply mark_ready_proj, H.
Qed.

(** X7. A refresh that goes to the server and gets a well-formed reply of
    status 200 and at most [MAX_HTTP_RESPONSE_SIZE] bytes makes exactly
    one request, to [KNOWN_FILES_URL], replaces the registry by the first
    [MAX_KNOWN_SEQUENCES] records of the reply and reports success, also
    when the card is missing or the save to it fails; the queue is not
    touched. *)
Theorem refresh_replaces_registry e root :
  wifi_connected e = true ->
  fst (isCacheStale String_toInt e) = true ->
  http_code (response_of e KNOWN_FILES_URL) = 200 ->
  Z.of_nat (strlen (getString (response_of e KNOWN_FILES_URL)))
    <= MAX_HTTP_RESPONSE_SIZE ->
  deserializeJson (getString (response_of e KNOWN_FILES_URL)) = Some root ->
  length (knownFiles e) = MAX_KNOWN_SEQUENCES ->
  let r := downloadAudio deserializeJson serializeJson String_toInt e in
  fst r = true
  /\ registry (snd r) = take MAX_KNOWN_SEQUENCES (records_of root)
  /\ http_requests (snd r) = http_requests e ++ [KNOWN_FILES_URL]
  /\ downloadQueue (snd r) = downloadQueue e
  /\ downloadQueueCount (snd r) = downloadQueueCount e
  /\ downloadQueueIndex (snd r) = downloadQueueIndex e.
Proof.
  intros Hw Hs Hcode Hsize Hparse Hlen. cbn zeta.
  rewrite downloadAudio_cases. cbn zeta.
  rewrite Hw, Hs, Hcode, Hparse. cbn [negb Z.eqb Pos.eqb].
  rewrite (proj2 (Z.ltb_ge _ _)) by exact Hsize. cbn [fst snd].
  set (e2 := set_knownSequenceCount 0 _).
  destruct (load_records_fresh root e2) as (H1 & H2 & H3);
    [reflexivity
    | unfold e2; simpl;
      rewrite (isCacheStale_frame knownFiles) by reflexivity; exact Hlen |].
  cbn zeta in H1, H2, H3.
  destruct (load_records_spec root e2) as [l Hl]; [unfold e2; simpl; lia |].
  pose proof (saveKnownSequencesToSDCard_frame (snd (load_records root e2)))
    as Hsave.
  cbn zeta in Hsave. destruct Hsave as (S1 & S2 & S3 & S4 & S5 & S6).
  split; [reflexivity |].
  split; [unfold registry in *; rewrite S1, S2; exact H1 |].
  rewrite S3, S4, S5, S6, Hl. unfold e2. simpl.
  rewrite (isCacheStale_frame downloadQueue),
    (isCacheStale_frame downloadQueueCount),
    (isCacheStale_frame downloadQueueIndex) by reflexivity.
  auto.
Qed.

(** X8. A refresh that fails leaves the registry and the card as they
    were. Without the network it changes nothing and makes no request.
    With the network and a stale cache, a reply whose status is not 200,
    one longer than [MAX_HTTP_RESPONSE_SIZE] or one that does not parse
    costs exactly one request and reports failure. *)
Theorem refresh_failure_keeps_registry e :
  let r := downloadAudio deserializeJson serializeJson String_toInt e in
  (wifi_connected e = false -> r = (false, e))
  /\ (wifi_connected e = true ->
      fst (isCacheStale String_toInt e) = true ->
      http_code (response_of e KNOWN_FILES_URL) <> 200
      \/ MAX_HTTP_RESPONSE_SIZE
           < Z.of_nat (strlen (getString (response_of e KNOWN_FILES_URL)))
      \/ deserializeJson (getString (response_of e KNOWN_FILES_URL)) = None ->
      fst r = false
      /\ http_requests (snd r) = http_requests e ++ [KNOWN_FILES_URL]
      /\ knownFiles (snd r) = knownFiles e
      /\ knownSequenceCount (snd r) = knownSequenceCount e
      /\ sd_files (snd r) = sd_files e
      /\ lastCacheTime (snd r) = lastCacheTime e).
Proof.
  cbn zeta. rewrite downloadAudio_cases. cbn zeta. split.
  - intros ->. reflexivity.
  - intros Hw Hs Hfail. rewrite Hw, Hs. cbn [negb].
    assert (Hres :
      forall b : bool,
        let r := (b, set_http_requests (http_requests e ++ [KNOWN_FILES_URL])
                       (snd (isCacheStale String_toInt e))) in
        http_requests (snd r) = http_requests e ++ [KNOWN_FILES_URL]
        /\ knownFiles (snd r) = knownFiles e
        /\ knownSequenceCount (snd r) = knownSequenceCount e
        /\ sd_files (snd r) = sd_files e
        /\ lastCacheTime (snd r) = lastCacheTime e).
    { intros b. cbn zeta. simpl.
      rewrite (isCacheStale_frame knownFiles),
        (isCacheStale_frame knownSequenceCount),
        (isCacheStale_frame sd_files), (isCacheStale_frame lastCacheTime)
        by reflexivity.
      auto. }
    destruct (http_code _ =? 200) eqn:Hc; cbn [negb];
      [| split; [reflexivity | apply (Hres false)]].
    destruct (_ <? _) eqn:Hz; [split; [reflexivity | apply (Hres false)] |].
    destruct (deserializeJson _) eqn:Hd;
      [| split; [reflexivity | apply (Hres false)]].
    exfalso. apply Z.eqb_eq in Hc. apply Z.ltb_ge in Hz.
    destruct Hfail as [H | [H | H]]; [contradiction | lia | discriminate].
Qed.

(** ** Clearing the registry *)

Lemma set_sd_files_same e : set_sd_files (sd_files e) e = e.
Proof. destruct e; reflexivity. Qed.

Lemma unlink_absent p e : sd_files e !! p = None -> unlink p e = e.
Proof.
  intros H. unfold unlink. case_bool_decide; [reflexivity |].
  rewrite delete_id by exact H. apply set_sd_files_same.
Qed.

Lemma SD_remove_env p e : snd (SD_remove p e) = unlink p e.
Proof.
  unfold SD_remove. destruct (sd_files e !! p) eqn:H.
  - unfold unlink. case_bool_decide; reflexivity.
  - symmetry. apply unlink_absent, H.
Qed.

Lemma unlink_proj {A} (f : Env -> A) p e :
  (forall v e0, f (set_sd_files v e0) = f e0) ->
  f (unlink p e) = f e.
Proof. intros H. unfold unlink. case_bool_decide; auto. Qed.

Lemma sd_files_unlink p e :
  sd_files (unlink p e)
    = if bool_decide (p ∈ sd_readonly e) then sd_files e
      else delete p (sd_files e).
Proof. unfold unlink. case_bool_decide; reflexivity. Qed.

Lemma remove_if_present p e :
  snd ((if exists_on e p then SD_remove p else ret true) e) = unlink p e.
Proof.
  unfold exists_on, SD_exists, gets. cbn [fst].
  destruct (sd_files e !! p) eqn:Hf.
  - rewrite (bool_decide_eq_true_2 (is_Some (Some _))) by eauto.
    cbn [orb]. apply SD_remove_env.
  - rewrite unlink_absent by exact Hf.
    destruct (_ || _); [| reflexivity].
    unfold SD_remove. rewrite Hf. reflexivity.
Qed.

Lemma clearAudioKeys_spec e :
  clearAudioKeys e
    = (tt,
       if sd_ready e
       then unlink CACHE_TIMESTAMP_FILE
              (unlink AUDIO_JSON_FILE
                 (mark_ready
                    (set_lastCacheTime 0 (set_knownSequenceCount 0 e))))
       else set_lastCacheTime 0 (set_knownSequenceCount 0 e)).
Proof.
  unfold clearAudioKeys, bind, modify, gets. cbn beta.
  rewrite initializeSDCard_spec.
  set (e0 := set_lastCacheTime 0 (set_knownSequenceCount 0 e)).
  assert (Hr : sd_ready e0 = sd_ready e) by reflexivity.
  rewrite Hr. destruct (sd_ready e) eqn:Hre; cbn [fst snd];
    [| unfold mark_ready; rewrite Hr; reflexivity].
  set (e1 := mark_ready e0).
  rewrite SD_exists_spec.
  pose proof (remove_if_present AUDIO_JSON_FILE e1) as H1.
  destruct ((if exists_on e1 AUDIO_JSON_FILE
             then SD_remove AUDIO_JSON_FILE else ret true) e1) as [b1 e2].
  cbn [snd] in H1. subst e2. set (e2 := unlink AUDIO_JSON_FILE e1).
  rewrite SD_exists_spec.
  pose proof (remove_if_present CACHE_TIMESTAMP_FILE e2) as H2.
  destruct ((if exists_on e2 CACHE_TIMESTAMP_FILE
             then SD_remove CACHE_TIMESTAMP_FILE else ret true) e2)
    as [b2 e3].
  cbn [snd] in H2. subst e3. reflexivity.
Qed.

(** X9. Clearing the registry empties it in memory, whatever the card
    does: no key is known or resolves afterwards, the mark in memory is
    zero and the cache counts as stale. The queue, the request trace and
    every file but the two cache files are left alone. With a card, each
    cache file that can be removed is gone; without one, no file is
    touched. *)
Theorem clear_forgets_registry e :
  let e' := snd (clearAudioKeys e) in
  (knownSequenceCount e' = 0%nat /\ lastCacheTime e' = 0
   /\ (forall key, hasAudioKey key e' = false)
   /\ (forall key, processAudioKey key e' = (None, e'))
   /\ fst (isCacheStale String_toInt e') = true)
  /\ (downloadQueue e' = downloadQueue e
      /\ downloadQueueCount e' = downloadQueueCount e
      /\ downloadQueueIndex e' = downloadQueueIndex e
      /\ http_requests e' = http_requests e
      /\ forall p, p <> AUDIO_JSON_FILE -> p <> CACHE_TIMESTAMP_FILE ->
           sd_files e' !! p = sd_files e !! p)
  /\ (sd_ready e = true ->
      forall p, p = AUDIO_JSON_FILE \/ p = CACHE_TIMESTAMP_FILE ->
        p ∉ sd_readonly e -> sd_files e' !! p = None)
  /\ (sd_ready e = false -> sd_files e' = sd_files e).
Proof.
  cbn zeta. rewrite clearAudioKeys_spec. cbn [snd].
  set (e0 := set_lastCacheTime 0 (set_knownSequenceCount 0 e)).
  set (e' := if sd_ready e then _ else _).
  assert (Hc : knownSequenceCount e' = 0%nat).
  { unfold e'. destruct (sd_ready e); [| reflexivity].
    rewrite !(unlink_proj knownSequenceCount) by reflexivity.
    mark_fields. reflexivity. }
  assert (Hro : forall x, sd_readonly (unlink x (mark_ready e0))
                          = sd_readonly e).
  { intros x. rewrite (unlink_proj sd_readonly) by reflexivity.
    mark_fields. reflexivity. }
  split; [| split; [| split]].
  - split; [exact Hc |]. split.
    { unfold e'. destruct (sd_ready e); [| reflexivity].
      rewrite !(unlink_proj lastCacheTime) by reflexivity.
      mark_fields. reflexivity. }
    assert (Hh : forall key, hasAudioKey key e' = false).
    { intros key. unfold hasAudioKey. rewrite Hc. reflexivity. }
    split; [exact Hh |]. split.
    + intros key. unfold processAudioKey, bind, gets, ret.
      destruct (find_key key e') as [f |] eqn:Hf; [| reflexivity].
      assert (hasAudioKey key e' = true) by (apply hasAudioKey_find; eauto).
      rewrite Hh in *. discriminate.
    + rewrite isCacheStale_spec. cbn [fst].
      rewrite bool_decide_eq_true_2 by exact Hc. reflexivity.
  - unfold e'. destruct (sd_ready e).
    + rewrite !(unlink_proj downloadQueue), !(unlink_proj downloadQueueCount),
        !(unlink_proj downloadQueueIndex), !(unlink_proj http_requests)
        by reflexivity.
      mark_fields. repeat (split; [reflexivity |]).
      intros p Hj Ht. rewrite !sd_files_unlink, Hro.
      mark_fields.
      change (sd_readonly e0) with (sd_readonly e).
      change (sd_files e0) with (sd_files e).
      repeat case_bool_decide; rewrite ?lookup_delete_ne by congruence;
        reflexivity.
    + repeat (split; [reflexivity |]). reflexivity.
  - intros Hr p Hp Hw. unfold e'. rewrite Hr.
    rewrite !sd_files_unlink, Hro. mark_fields.
    change (sd_readonly e0) with (sd_readonly e).
    change (sd_files e0) with (sd_files e).
    destruct Hp as [-> | ->].
    + rewrite (bool_decide_eq_false_2 (AUDIO_JSON_FILE ∈ _)) by exact Hw.
      case_bool_decide.
      * apply lookup_delete_eq.
      * rewrite lookup_delete_ne by (apply not_eq_sym, cache_files_differ).
        apply lookup_delete_eq.
    + rewrite (bool_decide_eq_false_2 (CACHE_TIMESTAMP_FILE ∈ _)) by exact Hw.
      apply lookup_delete_eq.
  - intros Hr. unfold e'. rewrite Hr. reflexivity.
Qed.

(** ** Start-up *)

Lemma load_records_proj {A} (f : Env -> A) root e :
  (knownSequenceCount e <= MAX_KNOWN_SEQUENCES)%nat ->
  (forall c l e0, f (set_knownSequenceCount c (set_knownFiles l e0)) = f e0) ->
  f (snd (load_records root e)) = f e.
Proof.
  intros Hc H. destruct (load_records_spec root e Hc) as [l ->]. apply H.
Qed.

Lemma sd_ready_reset e : sd_ready (reset_manager e) = card_present e.
Proof. reflexivity. Qed.

Lemma initializeAudioFileManager_spec e :
  initializeAudioFileManager deserializeJson String_toInt e
    = (tt,
       let r := loadKnownSequencesFromSDCard deserializeJson String_toInt
                  (reset_manager e) in
       if fst r then snd (isCacheStale String_toInt (snd r)) else snd r).
Proof.
  unfold initializeAudioFileManager, bind, modify, ret. cbn beta.
  fold (reset_manager e).
  destruct (loadKnownSequencesFromSDCard _ _ _) as [[|] e1]; cbn [fst snd].
  - destruct (isCacheStale String_toInt e1). reflexivity.
  - reflexivity.
Qed.

(** X10. Start-up makes no request and leaves the card and the queue as
    they are. It forgets the registry in memory and the card flag: with no
    card answering, no registry file, an empty one or one that does not
    parse, the registry is empty afterwards; with a card and a registry
    file that parses, the registry is the first [MAX_KNOWN_SEQUENCES]
    records of the file and the mark in memory is the one read from the
    mark file, zero when there is none. *)
Theorem startup_loads_cache e :
  let e' := snd (initializeAudioFileManager deserializeJson String_toInt e) in
  (http_requests e' = http_requests e /\ sd_files e' = sd_files e
   /\ sd_dirs e' = sd_dirs e
   /\ downloadQueue e' = downloadQueue e
   /\ downloadQueueCount e' = downloadQueueCount e
   /\ downloadQueueIndex e' = downloadQueueIndex e)
  /\ (card_present e = false
      \/ sd_files e !! AUDIO_JSON_FILE = None
      \/ sd_files e !! AUDIO_JSON_FILE = Some ""
      \/ (exists s, sd_files e !! AUDIO_JSON_FILE = Some s
                    /\ deserializeJson s = None) ->
      knownSequenceCount e' = 0%nat)
  /\ (forall s root,
        card_present e = true ->
        sd_files e !! AUDIO_JSON_FILE = Some s ->
        s <> "" ->
        deserializeJson s = Some root ->
        length (knownFiles e) = MAX_KNOWN_SEQUENCES ->
        registry e' = take MAX_KNOWN_SEQUENCES (records_of root)
        /\ lastCacheTime e'
           = match sd_files e !! CACHE_TIMESTAMP_FILE with
             | Some timestampStr => wrap32 (String_toInt timestampStr)
             | None => 0
             end).
Proof.
  cbn zeta. rewrite initializeAudioFileManager_spec. cbn [snd]. cbn zeta.
  rewrite loadKnownSequencesFromSDCard_cases. cbn zeta.
  rewrite sd_ready_reset.
  change (sd_files (reset_manager e)) with (sd_files e).
  set (m := match sd_files e !! CACHE_TIMESTAMP_FILE with
            | Some t => wrap32 (String_toInt t) | None => 0 end).
  set (e1 := set_knownSequenceCount 0
               (set_lastCacheTime m (mark_ready (reset_manager e)))).
  assert (Hload : forall {A} (f : Env -> A) root,
            (forall c l e0,
               f (set_knownSequenceCount c (set_knownFiles l e0)) = f e0) ->
            (forall b e0, f (set_sdCardInitialized b e0) = f e0) ->
            f (snd (isCacheStale String_toInt (snd (load_records root e1))))
              = f e1).
  { intros A f root H1 H2. rewrite (isCacheStale_frame f) by exact H2.
    apply load_records_proj; [unfold e1; simpl; lia | exact H1]. }
  split; [| split].
  - destruct (card_present e); cbn [negb fst snd];
      [| repeat split; reflexivity].
    destruct (sd_files e !! AUDIO_JSON_FILE) as [s |]; cbn [fst snd];
      [| mark_fields; repeat split; reflexivity].
    case_bool_decide; cbn [fst snd];
      [mark_fields; repeat split; reflexivity |].
    destruct (deserializeJson s) as [root |]; cbn [fst snd].
    + rewrite !Hload by reflexivity. unfold e1. simpl. mark_fields.
      repeat split; reflexivity.
    + simpl. mark_fields. repeat split; reflexivity.
  - intros Hcase.
    destruct (card_present e) eqn:Hp; cbn [negb fst snd]; [| reflexivity].
    destruct Hcase as [H | [H | [H | (s & H & Hd)]]];
      [discriminate | rewrite H .. ]; cbn [fst snd].
    + mark_fields. reflexivity.
    + rewrite bool_decide_eq_true_2 by reflexivity. cbn [fst snd].
      mark_fields. reflexivity.
    + case_bool_decide; cbn [fst snd]; [mark_fields; reflexivity |].
      rewrite Hd. cbn [fst snd]. simpl. mark_fields. reflexivity.
  - intros s root Hp Hs Hn Hd Hlen. rewrite Hp, Hs. cbn [negb].
    rewrite bool_decide_eq_false_2
      by (destruct s; [contradiction | discriminate]).
    rewrite Hd. cbn [fst snd]. fold e1.
    destruct (load_records_fresh root e1) as (H1 & H2 & H3);
      [reflexivity | unfold e1; simpl; mark_fields; exact Hlen |].
    cbn zeta in H1, H2, H3. split.
    + unfold registry in *.
      rewrite (isCacheStale_frame knownFiles),
        (isCacheStale_frame knownSequenceCount) by reflexivity.
      exact H1.
    + rewrite (Hload _ lastCacheTime) by reflexivity. reflexivity.
Qed.

End StoreProperties.

(** ** The registry store on the sample card *)

Lemma nothing_readonly p e : sd_readonly e = ∅ -> p ∉ sd_readonly e.
Proof. intros ->. apply not_elem_of_empty. Qed.

Lemma save_outcomes_witness :
  let r := saveKnownSequencesToSDCard sample_serialize env_mark_locked in
  fst r = true
  /\ sd_files (snd r) !! AUDIO_JSON_FILE = Some sample_text
  /\ sd_files (snd r) !! CACHE_TIMESTAMP_FILE = Some "7"
  /\ lastCacheTime (snd r) = 7.
Proof.
  destruct (save_outcomes sample_serialize env_mark_locked)
    as (_ & _ & H).
  destruct H as (H1 & H2 & H3 & _).
  - reflexivity.
  - vm_compute. intros H. discriminate H.
  - vm_compute. discriminate.
  - destruct H3 as [H3 H4].
    + vm_compute. reflexivity.
    + cbn zeta. split; [exact H1 |]. split; [exact H2 |].
      split; [exact H3 | exact H4].
Defined.

Lemma save_then_load_witness :
  let r := loadKnownSequencesFromSDCard sample_deserialize sample_toInt
             (reset_manager env_saved) in
  fst r = true
  /\ registry (snd r) = registry env_one_key
  /\ lastCacheTime (snd r) = 5000.
Proof.
  apply (save_then_load sample_deserialize sample_serialize sample_toInt
           env_one_key (reset_manager env_saved) sample_root).
  - reflexivity.
  - apply nothing_readonly. reflexivity.
  - apply nothing_readonly. reflexivity.
  - vm_compute. lia.
  - vm_compute. discriminate.
  - reflexivity.
  - reflexivity.
  - reflexivity.
  - reflexivity.
  - reflexivity.
Defined.

Lemma refresh_replaces_registry_witness :
  let r := downloadAudio sample_deserialize sample_serialize sample_toInt
             env_refresh in
  fst r = true
  /\ registry (snd r) = [record_of "123" sample_entry]
  /\ http_requests (snd r) = [KNOWN_FILES_URL].
Proof.
  destruct (refresh_replaces_registry sample_deserialize sample_serialize
              sample_toInt env_refresh sample_root)
    as (H1 & H2 & H3 & _).
  - reflexivity.
  - reflexivity.
  - reflexivity.
  - vm_compute. discriminate.
  - reflexivity.
  - reflexivity.
  - cbn zeta. split; [exact H1 |]. split; [exact H2 | exact H3].
Defined.

Lemma refresh_failure_keeps_registry_witness :
  let r := downloadAudio sample_deserialize sample_serialize sample_toInt
             env_refresh_404 in
  fst r = false
  /\ http_requests (snd r) = [KNOWN_FILES_URL]
  /\ registry (snd r) = registry env_one_key
  /\ sd_files (snd r) = ∅.
Proof.
  destruct (proj2 (refresh_failure_keeps_registry sample_deserialize
                     sample_serialize sample_toInt env_refresh_404))
    as (H1 & H2 & H3 & H4 & H5 & _).
  - reflexivity.
  - reflexivity.
  - left. vm_compute. discriminate.
  - cbn zeta. split; [exact H1 |]. split; [exact H2 |].
    split; [| exact H5].
    unfold registry. rewrite H3, H4. reflexivity.
Defined.

Lemma clear_forgets_registry_witness :
  let e' := snd (clearAudioKeys env_saved) in
  sd_files env_saved !! AUDIO_JSON_FILE = Some sample_text
  /\ hasAudioKey "123" env_saved = true
  /\ hasAudioKey "123" e' = false
  /\ sd_files e' !! AUDIO_JSON_FILE = None
  /\ sd_files e' !! CACHE_TIMESTAMP_FILE = None.
Proof.
  destruct (clear_forgets_registry sample_toInt env_saved)
    as ((_ & _ & Hh & _) & _ & Hgone & _).
  cbn zeta. split; [reflexivity |]. split; [reflexivity |].
  split; [apply Hh |]. split.
  - apply Hgone; [reflexivity | left; reflexivity |].
    apply nothing_readonly. reflexivity.
  - apply Hgone; [reflexivity | right; reflexivity |].
    apply nothing_readonly. reflexivity.
Defined.

Lemma startup_loads_cache_witness :
  let e' := snd (initializeAudioFileManager sample_deserialize sample_toInt
                   env_saved) in
  registry e' = [record_of "123" sample_entry]
  /\ lastCacheTime e' = 5000
  /\ knownSequenceCount
       (snd (initializeAudioFileManager sample_deserialize sample_toInt
               env_bad_file)) = 0%nat.
Proof.
  destruct (startup_loads_cache sample_deserialize sample_toInt env_saved)
    as (_ & _ & Hok).
  destruct (Hok sample_text sample_root) as [H1 H2];
    [reflexivity | reflexivity | discriminate | reflexivity | reflexivity |].
  destruct (startup_loads_cache sample_deserialize sample_toInt env_bad_file)
    as (_ & Hbad & _).
  cbn zeta. split; [exact H1 |]. split; [exact H2 |].
  apply Hbad. right. right. right. exists "{123:{descr".
  split; reflexivity.
Defined.


(** ** The download *)

Lemma append_nil_r (s : string) : s +:+ "" = s.
Proof.
  induction s as [| c r IH]; [reflexivity |].
  change (String c (r +:+ "") = String c r). f_equal. exact IH.
Qed.

Lemma append_assoc (s t u : string) : s +:+ (t +:+ u) = (s +:+ t) +:+ u.
Proof.
  induction s as [| c r IH]; [reflexivity |].
  change (String c (r +:+ (t +:+ u)) = String c ((r +:+ t) +:+ u)).
  f_equal. exact IH.
Qed.

Lemma strlen_zero s : strlen s = 0%nat -> s = "".
Proof. destruct s; [reflexivity | discriminate]. Qed.

Lemma download_loop_cons contentLength chunk rest file :
  download_loop contentLength (chunk :: rest) file
  = if (0 <? contentLength) || (contentLength =? -1) then
      if 0 <? Z.of_nat (strlen chunk) then
        download_loop
          (if 0 <? contentLength then contentLength - Z.of_nat (strlen chunk)
           else contentLength)
          rest (file +:+ chunk)
      else download_loop contentLength rest file
    else file.
Proof. reflexivity. Qed.

Lemma download_loop_counted chunks :
  forall file,
    download_loop (Z.of_nat (strlen (fold_right String.append "" chunks)))
      chunks file
    = file +:+ fold_right String.append "" chunks.
Proof.
  induction chunks as [| chunk rest IH]; intros file.
  - symmetry. apply append_nil_r.
  - rewrite download_loop_cons. cbn [fold_right].
    change (String.append chunk) with (String.app chunk).
    rewrite strlen_app.
    set (body := fold_right String.append "" rest) in *.
    destruct (strlen chunk) as [| n] eqn:Hc.
    + apply strlen_zero in Hc. subst chunk.
      change ("" +:+ body) with body. cbn [Nat.add Z.of_nat Z.ltb Z.compare].
      destruct (_ || _) eqn:Ho; [apply IH |].
      apply orb_false_iff in Ho as [Ho _]. apply Z.ltb_ge in Ho.
      assert (Hr : strlen body = 0%nat) by lia.
      apply strlen_zero in Hr. rewrite Hr. symmetry. apply append_nil_r.
    + assert (Hpos : (0 <? Z.of_nat (S n + strlen body)) = true)
        by (apply Z.ltb_lt; lia).
      rewrite Hpos. cbn [orb].
      assert (Hb : (0 <? Z.of_nat (S n)) = true) by (apply Z.ltb_lt; lia).
      rewrite Hb.
      replace (Z.of_nat (S n + strlen body) - Z.of_nat (S n))
        with (Z.of_nat (strlen body)) by lia.
      rewrite IH. symmetry. apply append_assoc.
Qed.

Lemma download_loop_unbounded chunks :
  forall file,
    download_loop (-1) chunks file
    = file +:+ fold_right String.append "" chunks.
Proof.
  induction chunks as [| chunk rest IH]; intros file.
  - symmetry. apply append_nil_r.
  - rewrite download_loop_cons. cbn [fold_right Z.ltb Z.eqb Z.compare orb Pos.eqb].
    change (String.append chunk) with (String.app chunk).
    destruct (0 <? Z.of_nat (strlen chunk)) eqn:Hc.
    + rewrite IH. symmetry. apply append_assoc.
    + apply Z.ltb_ge in Hc.
      assert (H0 : strlen chunk = 0%nat) by lia.
      apply strlen_zero in H0. subst chunk. apply IH.
Qed.

(** X11. The chunk loop writes the whole body, chunk after chunk, when
    the server declares no length (-1) or declares the length of the body;
    with a declared length of zero it writes nothing, whatever
    arrives. *)
Theorem download_loop_whole_body contentLength chunks :
  (contentLength = -1
   \/ contentLength
      = Z.of_nat (strlen (fold_right String.append "" chunks)) ->
   download_loop contentLength chunks ""
   = fold_right String.append "" chunks)
  /\ download_loop 0 chunks "" = "".
Proof.
  split.
  - intros [-> | ->].
    + apply download_loop_unbounded.
    + apply download_loop_counted.
  - destruct chunks; reflexivity.
Qed.

Lemma download_loop_whole_body_witness :
  download_loop 8 ["ID3."; ""; "data"] "" = "ID3.data"
  /\ download_loop (-1) ["ID3."; ""; "data"] "" = "ID3.data".
Proof.
  split.
  - apply (proj1 (download_loop_whole_body 8 ["ID3."; ""; "data"])).
    right. reflexivity.
  - apply (proj1 (download_loop_whole_body (-1) ["ID3."; ""; "data"])).
    left. reflexivity.
Defined.

Lemma finish_attempt (q : list AudioDownloadItem) i :
  <[i := item_set_inProgress false
           (<[i := item_set_inProgress true (q !!! i)]> q !!! i)]>
    (<[i := item_set_inProgress true (q !!! i)]> q)
  = <[i := item_set_inProgress false (q !!! i)]> q.
Proof.
  rewrite list_insert_insert_eq.
  destruct (decide (i < length q)%nat) as [Hlt | Hge].
  - rewrite list_lookup_total_insert_eq by exact Hlt. reflexivity.
  - rewrite !list_insert_ge by lia. reflexivity.
Qed.

(** Everything an attempted download changes and leaves alone. *)
Lemma processDownloadQueue_attempt e :
  attempted e = true ->
  let e' := snd (processDownloadQueue e) in
  let item := cursor_item e in
  let response := response_of e (url item) in
  (knownFiles e' = knownFiles e
   /\ knownSequenceCount e' = knownSequenceCount e
   /\ downloadQueue e'
      = <[downloadQueueIndex e := item_set_inProgress false item]>
          (downloadQueue e)
   /\ downloadQueueCount e' = downloadQueueCount e
   /\ downloadQueueIndex e' = S (downloadQueueIndex e)
   /\ wifi_connected e' = wifi_connected e
   /\ http_server e' = http_server e
   /\ sd_mkdir_ok e' = sd_mkdir_ok e
   /\ sd_readonly e' = sd_readonly e
   /\ sd_ready e' = true)
  /\ (dir_ready e = false ->
      http_requests e' = http_requests e /\ sd_files e' = sd_files e
      /\ sd_dirs e' = sd_dirs e)
  /\ (dir_ready e = true ->
      http_requests e' = http_requests e ++ [url item]
      /\ sd_files e'
         = (if (http_code response =? 200)
               && bool_decide (localPath item ∉ sd_readonly e)
            then <[localPath item :=
                     download_loop (http_size response)
                       (http_chunks response) ""]> (sd_files e)
            else sd_files e)
      /\ sd_dirs e'
         = if exists_on e AUDIO_FILES_DIR then sd_dirs e
           else {[AUDIO_FILES_DIR]} ∪ sd_dirs e)
  /\ fst (processDownloadQueue e)
     = dir_ready e && (http_code response =? 200)
       && bool_decide (localPath item ∉ sd_readonly e).
Proof.
  unfold attempted, dir_ready, cursor_item, response_of. intros Ha.
  apply andb_true_iff in Ha as [Ha Hp]. apply andb_true_iff in Ha as [Ha Hr].
  apply andb_true_iff in Ha as [Hi Hw]. apply negb_true_iff in Hp.
  apply bool_decide_eq_true_1 in Hi.
  cbn zeta. unfold processDownloadQueue, bind, gets, ret. cbn beta iota.
  rewrite bool_decide_eq_false_2 by lia. rewrite Hw. cbn [negb].
  rewrite initializeSDCard_spec. unfold mark_ready. rewrite Hr. simpl.
  rewrite Hp.
  unfold skip_item, bind, modify, SD_mkdir, SD_open_write, SD_store, http_GET,
    gets, modify, ret, update_item, SD_exists, exists_on, gets, modify.
  simpl.
  destruct (bool_decide (is_Some (sd_files e !! AUDIO_FILES_DIR))
            || bool_decide (AUDIO_FILES_DIR ∈ sd_dirs e)); simpl;
    [| destruct (sd_mkdir_ok e) eqn:Hm; simpl];
    try (destruct (http_code _ =? 200); simpl;
         [destruct (bool_decide (_ ∉ sd_readonly e)); simpl |]);
    rewrite finish_attempt;
    (split; [repeat match goal with |- _ /\ _ => split end;
               first [reflexivity | assumption] |]);
    (split; [intros; try discriminate; auto |]);
    (split; [intros; try discriminate; auto |]);
    reflexivity.
Qed.

(** X12. What an attempted download does to the world. The registry is
    never touched and the item at the cursor ends with its in-progress
    mark cleared. If the audio directory is missing and cannot be made, no
    request is sent and no file changes. Otherwise exactly one request is
    sent, to the stored locator; the destination file is written (with
    what the chunk loop read) exactly when the reply is 200 and the file
    can be opened, and no other file changes. *)
Theorem drive_step_effects e :
  attempted e = true ->
  let e' := snd (processDownloadQueue e) in
  let item := cursor_item e in
  let response := response_of e (url item) in
  (knownFiles e' = knownFiles e
   /\ knownSequenceCount e' = knownSequenceCount e
   /\ downloadQueue e'
      = <[downloadQueueIndex e := item_set_inProgress false item]>
          (downloadQueue e))
  /\ (dir_ready e = false ->
      http_requests e' = http_requests e /\ sd_files e' = sd_files e)
  /\ (dir_ready e = true ->
      http_requests e' = http_requests e ++ [url item]
      /\ sd_files e'
         = if (http_code response =? 200)
              && bool_decide (localPath item ∉ sd_readonly e)
           then <[localPath item :=
                    download_loop (http_size response)
                      (http_chunks response) ""]> (sd_files e)
           else sd_files e).
Proof.
  intros Ha. pose proof (processDownloadQueue_attempt e Ha) as H.
  cbn zeta in *. destruct H as ((H1 & H2 & H3 & _) & Hn & Hy & _).
  split; [auto |]. split.
  - intros Hd. destruct (Hn Hd) as (? & ? & _). auto.
  - intros Hd. destruct (Hy Hd) as (? & ? & _). auto.
Qed.

Lemma drive_step_effects_witness :
  let e' := snd (processDownloadQueue env_200) in
  attempted env_200 = true
  /\ http_requests e' = [sample_url 1]
  /\ sd_files e' = {["/audio/1.mp3" := "ID3.data"]}.
Proof.
  assert (Ha : attempted env_200 = true) by reflexivity.
  destruct (drive_step_effects env_200 Ha) as (_ & _ & H).
  destruct H as [H1 H2]; [reflexivity |].
  cbn zeta. split; [exact Ha |]. split; [exact H1 |].
  rewrite H2. vm_compute. reflexivity.
Defined.

(** ** An invariant of the interface *)

Lemma consistent_same e e' :
  downloadQueue e' = downloadQueue e ->
  downloadQueueCount e' = downloadQueueCount e ->
  downloadQueueIndex e' = downloadQueueIndex e ->
  knownFiles e' = knownFiles e ->
  knownSequenceCount e' = knownSequenceCount e ->
  consistent e -> consistent e'.
Proof. unfold consistent. intros -> -> -> -> ->. auto. Qed.

Lemma consistent_booted e : booted e -> consistent e.
Proof.
  intros (Hk & Hkc & _ & _ & Hq & Hc & Hi & _). unfold consistent.
  rewrite Hk, Hkc, Hq, Hc, Hi, !length_replicate.
  repeat split; try (unfold MAX_DOWNLOAD_QUEUE, MAX_KNOWN_SEQUENCES; lia).
  apply Forall_replicate. reflexivity.
Qed.

Lemma consistent_world e e' : same_statics e e' -> consistent e -> consistent e'.
Proof.
  intros (Hk & Hkc & _ & _ & Hq & Hc & Hi & _).
  apply consistent_same; assumption.
Qed.

Lemma consistent_mark e : consistent e -> consistent (mark_ready e).
Proof. apply consistent_same; mark_fields; reflexivity. Qed.

Lemma consistent_enqueue u d e :
  consistent e -> consistent (snd (addToDownloadQueue u d e)).
Proof.
  intros Hc. rewrite addToDownloadQueue_cases.
  case_bool_decide as Hfull; [exact Hc |].
  destruct (url_queued u e); [exact Hc |]. cbn [snd].
  destruct Hc as (Hb & Hl & Hf & Hk & Hkl). unfold consistent.
  rewrite downloadQueueCount_enqueued, downloadQueue_enqueued.
  assert (Hi : downloadQueueIndex (enqueued u d e) = downloadQueueIndex e).
  { unfold enqueued. destruct (has_extension u); simpl;
      [| mark_fields]; reflexivity. }
  assert (Hkf : knownFiles (enqueued u d e) = knownFiles e).
  { unfold enqueued. destruct (has_extension u); simpl;
      [| mark_fields]; reflexivity. }
  assert (Hkc : knownSequenceCount (enqueued u d e) = knownSequenceCount e).
  { unfold enqueued. destruct (has_extension u); simpl;
      [| mark_fields]; reflexivity. }
  rewrite Hi, Hkf, Hkc, length_insert.
  repeat split; try lia; try assumption.
  apply Forall_insert; [exact Hf | reflexivity].
Qed.

Lemma consistent_resolve key e :
  consistent e -> consistent (snd (processAudioKey key e)).
Proof.
  intros Hc. destruct (processAudioKey_branches key e) as [-> | (f & _ & ->)];
    [exact Hc |].
  destruct (sd_ready e && exists_on e (local_path (path f) e)); cbn [snd].
  - apply consistent_mark, Hc.
  - apply consistent_enqueue, consistent_mark, Hc.
Qed.

(** The statics after a drive step. *)
Lemma processDownloadQueue_statics e :
  let e' := snd (processDownloadQueue e) in
  knownFiles e' = knownFiles e
  /\ knownSequenceCount e' = knownSequenceCount e
  /\ downloadQueueCount e' = downloadQueueCount e
  /\ ((downloadQueueIndex e' = downloadQueueIndex e
       /\ downloadQueue e' = downloadQueue e)
      \/ ((downloadQueueIndex e < downloadQueueCount e)%nat
          /\ downloadQueueIndex e' = S (downloadQueueIndex e)
          /\ downloadQueue e'
             = <[downloadQueueIndex e :=
                   item_set_inProgress false (cursor_item e)]>
                 (downloadQueue e))).
Proof.
  cbn zeta. unfold cursor_item.
  unfold processDownloadQueue, bind, gets, ret. cbn beta iota.
  assert (Hidle : forall e0 : Env,
            knownFiles e0 = knownFiles e ->
            knownSequenceCount e0 = knownSequenceCount e ->
            downloadQueueCount e0 = downloadQueueCount e ->
            downloadQueueIndex e0 = downloadQueueIndex e ->
            downloadQueue e0 = downloadQueue e ->
            knownFiles e0 = knownFiles e
            /\ knownSequenceCount e0 = knownSequenceCount e
            /\ downloadQueueCount e0 = downloadQueueCount e
            /\ ((downloadQueueIndex e0 = downloadQueueIndex e
                 /\ downloadQueue e0 = downloadQueue e)
                \/ ((downloadQueueIndex e < downloadQueueCount e)%nat
                    /\ downloadQueueIndex e0 = S (downloadQueueIndex e)
                    /\ downloadQueue e0
                       = <[downloadQueueIndex e :=
                             item_set_inProgress false
                               (downloadQueue e !!! downloadQueueIndex e)]>
                           (downloadQueue e)))) by tauto.
  case_bool_decide as Hidx; [apply Hidle; reflexivity |].
  destruct (wifi_connected e) eqn:Hw; simpl; [| apply Hidle; reflexivity].
  rewrite initializeSDCard_spec. unfold mark_ready.
  destruct (sd_ready e) eqn:Hr; simpl; [| apply Hidle; reflexivity].
  destruct (inProgress (downloadQueue e !!! downloadQueueIndex e)) eqn:Hp;
    simpl; [apply Hidle; reflexivity |].
  clear Hidle.
  unfold skip_item, bind, modify, SD_mkdir, SD_open_write, SD_store, http_GET,
    gets, modify, ret, update_item, SD_exists, exists_on, gets, modify.
  simpl.
  destruct (bool_decide (is_Some (sd_files e !! AUDIO_FILES_DIR))
            || bool_decide (AUDIO_FILES_DIR ∈ sd_dirs e)); simpl;
    [| destruct (sd_mkdir_ok e); simpl];
    try (destruct (http_code _ =? 200); simpl;
         [destruct (bool_decide (_ ∉ sd_readonly e)); simpl |]);
    rewrite finish_attempt;
    (repeat (split; [reflexivity |])); right;
    (split; [lia | split; reflexivity]).
Qed.

Lemma consistent_drive e :
  consistent e -> consistent (snd (processDownloadQueue e)).
Proof.
  intros Hc. pose proof (processDownloadQueue_statics e) as H.
  cbn zeta in H. destruct H as (Hk & Hkc & Hcnt & [[Hi Hq] | (Hlt & Hi & Hq)]).
  - revert Hc. apply consistent_same; assumption.
  - destruct Hc as (Hb & Hl & Hf & Hkb & Hkl). unfold consistent.
    rewrite Hk, Hkc, Hcnt, Hi, Hq, length_insert.
    repeat split; try lia; try assumption.
    apply Forall_insert; [exact Hf | reflexivity].
Qed.

Lemma consistent_tick e :
  consistent e -> consistent (snd (processAudioDownloadQueue e)).
Proof.
  intros Hc. unfold processAudioDownloadQueue, bind, gets, modify, ret.
  cbn beta iota. destruct (wrap32 _ <? _); [exact Hc |]. cbn [snd].
  apply consistent_drive. revert Hc. apply consistent_same; reflexivity.
Qed.

Lemma consistent_clear_queue e :
  consistent e -> consistent (snd (clearDownloadQueue e)).
Proof.
  intros (Hb & Hl & Hf & Hkb & Hkl). unfold consistent. simpl.
  repeat split; try lia; assumption.
Qed.

Lemma consistent_clear_keys e :
  consistent e -> consistent (snd (clearAudioKeys e)).
Proof.
  intros (Hb & Hl & Hf & Hkb & Hkl). rewrite clearAudioKeys_spec. cbn [snd].
  unfold consistent.
  destruct (sd_ready e).
  - rewrite !(unlink_proj downloadQueue), !(unlink_proj downloadQueueCount),
      !(unlink_proj downloadQueueIndex), !(unlink_proj knownFiles),
      !(unlink_proj knownSequenceCount) by reflexivity.
    mark_fields. simpl. repeat split; try lia; assumption.
  - simpl. repeat split; try lia; assumption.
Qed.

Section InterfaceProperties.

Variable deserializeJson : string -> option (list (string * JsonEntry)).
Variable serializeJson : list AudioFile -> string.
Variable String_toInt : string -> Z.

Lemma consistent_stale_check e :
  consistent e -> consistent (snd (isCacheStale String_toInt e)).
Proof.
  apply consistent_same; apply (isCacheStale_frame String_toInt); reflexivity.
Qed.

Lemma consistent_load_records root e :
  knownSequenceCount e = 0%nat ->
  consistent e -> consistent (snd (load_records root e)).
Proof.
  intros H0 (Hb & Hl & Hf & Hkb & Hkl).
  destruct (load_records_fresh root e H0 Hkl) as (_ & H2 & H3).
  cbn zeta in H2, H3. unfold consistent.
  rewrite !(load_records_proj _ root e) by (reflexivity || lia).
  rewrite H2, H3. repeat split; try lia; assumption.
Qed.

Lemma consistent_save e :
  consistent e ->
  consistent (snd (saveKnownSequencesToSDCard serializeJson e)).
Proof.
  pose proof (saveKnownSequencesToSDCard_frame serializeJson e) as H.
  cbn zeta in H. destruct H as (H1 & H2 & H3 & H4 & H5 & _).
  apply consistent_same; assumption.
Qed.

Lemma consistent_refresh e :
  consistent e ->
  consistent
    (snd (downloadAudio deserializeJson serializeJson String_toInt e)).
Proof.
  intros Hc. rewrite downloadAudio_cases. cbn zeta.
  destruct (wifi_connected e); cbn [negb]; [| exact Hc].
  pose proof (consistent_stale_check e Hc) as Hs.
  destruct (fst (isCacheStale String_toInt e)); cbn [negb]; [| exact Hs].
  set (e2 := set_http_requests _ _).
  assert (H2 : consistent e2)
    by (revert Hs; apply consistent_same; reflexivity).
  clearbody e2.
  destruct (negb _); [exact H2 |].
  destruct (_ <? _); [exact H2 |].
  destruct (deserializeJson _) as [root |]; [| exact H2]. cbn [snd].
  apply consistent_save, consistent_load_records; [reflexivity |].
  destruct H2 as (Hb & Hl & Hf & Hkb & Hkl). unfold consistent. simpl.
  repeat split; try lia; assumption.
Qed.

Lemma consistent_load e :
  knownSequenceCount e = 0%nat ->
  consistent e ->
  consistent
    (snd (loadKnownSequencesFromSDCard deserializeJson String_toInt e)).
Proof.
  intros H0 Hc. rewrite loadKnownSequencesFromSDCard_cases. cbn zeta.
  destruct (sd_ready e); cbn [negb]; [| exact Hc].
  pose proof (consistent_mark e Hc) as Hm.
  destruct (sd_files e !! AUDIO_JSON_FILE) as [s |]; [| exact Hm].
  case_bool_decide; [exact Hm |].
  set (e1 := set_lastCacheTime _ _).
  assert (H1 : consistent e1)
    by (revert Hm; apply consistent_same; reflexivity).
  clearbody e1.
  destruct (deserializeJson s) as [root |]; [| exact H1]. cbn [snd].
  apply consistent_load_records; [reflexivity |].
  destruct H1 as (Hb & Hl & Hf & Hkb & Hkl). unfold consistent. simpl.
  repeat split; try lia; assumption.
Qed.

Lemma consistent_startup e :
  consistent e ->
  consistent
    (snd (initializeAudioFileManager deserializeJson String_toInt e)).
Proof.
  intros Hc. rewrite initializeAudioFileManager_spec. cbn [snd]. cbn zeta.
  assert (Hr : consistent (reset_manager e)).
  { destruct Hc as (Hb & Hl & Hf & Hkb & Hkl). unfold consistent. simpl.
    repeat split; try lia; assumption. }
  pose proof (consistent_load (reset_manager e) eq_refl Hr) as Hl.
  destruct (fst _); [apply consistent_stale_check, Hl | exact Hl].
Qed.

Lemma consistent_run c e :
  consistent e ->
  consistent (run deserializeJson serializeJson String_toInt c e).
Proof.
  destruct c; cbn [run].
  - apply consistent_startup.
  - apply consistent_refresh.
  - apply consistent_resolve.
  - apply consistent_clear_keys.
  - apply consistent_tick.
  - apply consistent_clear_queue.
Qed.

Lemma consistent_cursor e :
  consistent e -> inProgress (cursor_item e) = false.
Proof.
  intros (_ & _ & Hf & _). unfold cursor_item.
  destruct (downloadQueue e !! downloadQueueIndex e) as [item |] eqn:Hi.
  - rewrite (list_lookup_total_correct _ _ _ Hi).
    exact (proj1 (Forall_lookup _ _) Hf _ _ Hi).
  - rewrite list_lookup_total_alt, Hi. reflexivity.
Qed.

(** X13. In every environment a program reaches from the zeroed statics
    through the calls of the header, with the world changing in any way
    between the calls, the cursor is at most the count and the count at
    most [MAX_DOWNLOAD_QUEUE], the registry count is at most
    [MAX_KNOWN_SEQUENCES], and no queue entry is left marked in progress.
    So the number of pending downloads is never negative, the queue is
    empty exactly when that number is zero, and the in-progress guard of
    the drive step never stops a download. *)
Theorem interface_invariant e :
  reachable deserializeJson serializeJson String_toInt e ->
  consistent e
  /\ 0 <= getDownloadQueueCount e <= Z.of_nat MAX_DOWNLOAD_QUEUE
  /\ (getTotalDownloadQueueSize e <= MAX_DOWNLOAD_QUEUE)%nat
  /\ (getAudioKeyCount e <= MAX_KNOWN_SEQUENCES)%nat
  /\ isDownloadQueueEmpty e = (getDownloadQueueCount e =? 0)
  /\ attempted e
     = bool_decide (downloadQueueIndex e < downloadQueueCount e)%nat
       && wifi_connected e && sd_ready e.
Proof.
  intros Hr.
  assert (Hc : consistent e).
  { induction Hr as [e Hb | c e _ IH | e e' _ IH Hs].
    - apply consistent_booted, Hb.
    - apply consistent_run, IH.
    - exact (consistent_world e e' Hs IH). }
  split; [exact Hc |].
  pose proof (consistent_cursor e Hc) as Hcur.
  destruct Hc as (Hb & _ & _ & Hk & _).
  unfold getDownloadQueueCount, getTotalDownloadQueueSize, getAudioKeyCount,
    isDownloadQueueEmpty, attempted.
  rewrite Hcur, andb_true_r.
  repeat split; try lia.
  case_bool_decide; symmetry; [apply Z.eqb_eq | apply Z.eqb_neq]; lia.
Qed.

End InterfaceProperties.

Lemma interface_invariant_witness :
  booted env_refresh
  /\ consistent env_session
  /\ 0 <= getDownloadQueueCount env_session <= Z.of_nat MAX_DOWNLOAD_QUEUE
  /\ http_requests env_session = [KNOWN_FILES_URL; "https://x/a.mp3"].
Proof.
  assert (Hb : booted env_refresh) by (repeat split; reflexivity).
  destruct (interface_invariant sample_deserialize sample_serialize
              sample_toInt env_session) as (H1 & H2 & _).
  - unfold env_session, session. cbn [fold_left].
    do 3 apply reachable_call. apply reachable_boot. exact Hb.
  - split; [exact Hb |]. split; [exact H1 |]. split; [exact H2 |].
    vm_compute. reflexivity.
Defined.

(** ** Draining the queue *)

Lemma dir_ready_kept e e' p content :
  dir_ready e = true ->
  sd_mkdir_ok e' = sd_mkdir_ok e ->
  sd_files e' = sd_files e \/ sd_files e' = <[p := content]> (sd_files e) ->
  sd_dirs e'
    = (if exists_on e AUDIO_FILES_DIR then sd_dirs e
       else {[AUDIO_FILES_DIR]} ∪ sd_dirs e) ->
  dir_ready e' = true.
Proof.
  unfold dir_ready, exists_on, SD_exists, gets. cbn [fst].
  intros Hd Hm Hf Hdirs. rewrite Hm.
  destruct (sd_mkdir_ok e); [apply orb_true_r |].
  rewrite orb_false_r in Hd. rewrite Hd in Hdirs. rewrite orb_false_r, Hdirs.
  apply orb_true_iff in Hd as [Hd | Hd]; [| rewrite Hd; apply orb_true_r].
  apply bool_decide_eq_true_1 in Hd.
  rewrite (bool_decide_eq_true_2 (is_Some (sd_files e' !! _)));
    [reflexivity |].
  destruct Hf as [-> | ->]; [exact Hd |].
  apply lookup_insert_is_Some.
  destruct (decide (p = AUDIO_FILES_DIR)); auto.
Qed.

(** One step of a queue whose world is up. *)
Lemma drive_step_up e :
  consistent e ->
  wifi_connected e = true -> sd_ready e = true -> dir_ready e = true ->
  (downloadQueueIndex e < downloadQueueCount e)%nat ->
  let e' := snd (processDownloadQueue e) in
  (consistent e' /\ wifi_connected e' = true /\ sd_ready e' = true
   /\ dir_ready e' = true)
  /\ downloadQueueIndex e' = S (downloadQueueIndex e)
  /\ downloadQueueCount e' = downloadQueueCount e
  /\ url <$> downloadQueue e' = url <$> downloadQueue e
  /\ http_requests e' = http_requests e ++ [url (cursor_item e)].
Proof.
  intros Hc Hw Hr Hd Hlt.
  assert (Ha : attempted e = true).
  { unfold attempted. rewrite Hw, Hr, (consistent_cursor e Hc).
    rewrite bool_decide_eq_true_2 by exact Hlt. reflexivity. }
  pose proof (processDownloadQueue_attempt e Ha) as H.
  pose proof (consistent_drive e Hc) as Hc'.
  cbn zeta in *.
  destruct H
    as ((H1 & H2 & H3 & H4 & H5 & H6 & H7 & H8 & H9 & H10) & _ & Hy & _).
  destruct (Hy Hd) as (Hq & Hf & Hdirs).
  split; [split; [exact Hc' |] |].
  - split; [congruence |]. split; [exact H10 |].
    eapply dir_ready_kept; [exact Hd | exact H8 | | exact Hdirs].
    rewrite Hf. destruct (_ && _); [right | left]; reflexivity.
  - split; [exact H5 |]. split; [exact H4 |]. split; [| exact Hq].
    rewrite H3. apply fmap_url_insert.
Qed.

Lemma drive_requests n :
  forall e,
    consistent e ->
    wifi_connected e = true -> sd_ready e = true -> dir_ready e = true ->
    (downloadQueueIndex e + n <= downloadQueueCount e)%nat ->
    let e' := drive n e in
    (consistent e' /\ wifi_connected e' = true /\ sd_ready e' = true
     /\ dir_ready e' = true)
    /\ downloadQueueIndex e' = (downloadQueueIndex e + n)%nat
    /\ downloadQueueCount e' = downloadQueueCount e
    /\ url <$> downloadQueue e' = url <$> downloadQueue e
    /\ http_requests e'
       = http_requests e
         ++ take n (drop (downloadQueueIndex e) (url <$> downloadQueue e)).
Proof.
  induction n as [| n IH]; intros e Hc Hw Hr Hd Hn.
  - cbn zeta. cbn [drive]. rewrite Nat.add_0_r, take_0, app_nil_r. auto 10.
  - cbn zeta. cbn [drive].
    destruct (drive_step_up e Hc Hw Hr Hd) as ((Hc1 & Hw1 & Hr1 & Hd1)
      & Hi1 & Hn1 & Hu1 & Hq1); [lia |].
    cbn zeta in *.
    destruct (IH (snd (processDownloadQueue e)) Hc1 Hw1 Hr1 Hd1)
      as (HG & Hi2 & Hn2 & Hu2 & Hq2); [lia |].
    cbn zeta in *.
    split; [exact HG |]. split; [lia |]. split; [congruence |].
    split; [congruence |].
    rewrite Hq2, Hq1, Hu1, Hi1, <- app_assoc. f_equal.
    assert (Hlen : (downloadQueueIndex e < length (downloadQueue e))%nat).
    { destruct Hc as (Hb & Hl & _). lia. }
    rewrite (drop_S (url <$> downloadQueue e) (url (cursor_item e))
               (downloadQueueIndex e)).
    + reflexivity.
    + rewrite list_lookup_fmap. unfold cursor_item.
      rewrite (list_lookup_lookup_total_lt _ _ Hlen). reflexivity.
Qed.

(** X14. A queue whose world is up (network, card, audio directory there
    or makeable) is drained by as many drive steps as entries are pending:
    one request per pending entry, in queue order, to the stored locators,
    whatever the replies are. Afterwards the queue counts as empty though
    its count is unchanged, and a further step does nothing. *)
Theorem queue_drains e :
  consistent e ->
  wifi_connected e = true -> sd_ready e = true -> dir_ready e = true ->
  let e' := drive (downloadQueueCount e - downloadQueueIndex e) e in
  http_requests e' = http_requests e ++ (url <$> pending e)
  /\ isDownloadQueueEmpty e' = true
  /\ getDownloadQueueCount e' = 0
  /\ getTotalDownloadQueueSize e' = getTotalDownloadQueueSize e
  /\ processDownloadQueue e' = (false, e').
Proof.
  intros Hc Hw Hr Hd. cbn zeta.
  pose proof Hc as ((Hb1 & Hb2) & Hl & _).
  destruct (drive_requests (downloadQueueCount e - downloadQueueIndex e) e
              Hc Hw Hr Hd) as (_ & Hi & Hn & _ & Hq); [lia |].
  cbn zeta in *.
  assert (Hemp : isDownloadQueueEmpty
                   (drive (downloadQueueCount e - downloadQueueIndex e) e)
                 = true).
  { unfold isDownloadQueueEmpty. apply bool_decide_eq_true_2. lia. }
  split; [| split; [exact Hemp |]].
  - rewrite Hq. f_equal. unfold pending.
    rewrite fmap_drop, fmap_take, take_drop_commute.
    f_equal. f_equal. lia.
  - unfold getDownloadQueueCount, getTotalDownloadQueueSize.
    split; [lia |]. split; [exact Hn |].
    unfold processDownloadQueue, bind, gets, ret. cbn beta iota.
    unfold isDownloadQueueEmpty in Hemp. rewrite Hemp. reflexivity.
Qed.

Lemma queue_drains_witness :
  let e' := drive 20 env_full in
  consistent env_full
  /\ http_requests e' = map sample_url (seq 1 20)
  /\ isDownloadQueueEmpty e' = true
  /\ getTotalDownloadQueueSize e' = 20%nat.
Proof.
  assert (Hc : consistent env_full).
  { unfold consistent.
    split; [vm_compute; lia |]. split; [reflexivity |].
    split; [| split; [vm_compute; lia | reflexivity]].
    vm_compute. repeat constructor. }
  destruct (queue_drains env_full Hc) as (H1 & H2 & _ & H4 & _);
    [reflexivity | reflexivity | reflexivity |].
  cbn zeta. split; [exact Hc |]. split; [| split; [exact H2 | exact H4]].
  change (downloadQueueCount env_full - downloadQueueIndex env_full)%nat
    with 20%nat in H1.
  rewrite H1. vm_compute. reflexivity.
Defined.

(** ** The queue listing *)

Lemma replicate_seq_map {A} (f : nat -> A) (x : A) n start :
  (forall i, (start <= i < start + n)%nat -> f i = x) ->
  map f (seq start n) = replicate n x.
Proof.
  revert start. induction n as [| n IH]; intros start H; [reflexivity |].
  cbn [seq map replicate]. f_equal; [apply H; lia |].
  apply IH. intros i Hi. apply H. lia.
Qed.

(** X28. The queue listing shows one row per stored entry. Between calls
    no row is ever In Progress: the entries before the cursor are shown as
    Downloaded and the others as Pending. An entry is shown as Downloaded
    as soon as its download has been attempted, also when the attempt
    failed. *)
Theorem listing_statuses e :
  consistent e ->
  length (listDownloadQueue e) = downloadQueueCount e
  /\ map fst (listDownloadQueue e)
     = replicate (downloadQueueIndex e) Downloaded
       ++ replicate (downloadQueueCount e - downloadQueueIndex e) Pending
  /\ (attempted e = true ->
      item_status (downloadQueueIndex e) e = Pending
      /\ item_status (downloadQueueIndex e) (snd (processDownloadQueue e))
         = Downloaded).
Proof.
  intros Hc. pose proof Hc as ((Hb1 & Hb2) & Hl & Hf & _).
  unfold listDownloadQueue. split; [| split].
  - case_bool_decide as H0; [rewrite H0; reflexivity |].
    rewrite length_map, length_seq. reflexivity.
  - case_bool_decide as H0.
    + replace (downloadQueueIndex e) with 0%nat by lia. rewrite H0.
      reflexivity.
    + rewrite map_map. cbn [fst].
      replace (downloadQueueCount e)
        with (downloadQueueIndex e
              + (downloadQueueCount e - downloadQueueIndex e))%nat at 1
        by lia.
      rewrite seq_app, map_app. f_equal.
      * apply replicate_seq_map. intros i Hi. unfold item_status.
        rewrite bool_decide_eq_true_2 by lia. reflexivity.
      * apply replicate_seq_map. intros i Hi. unfold item_status.
        rewrite bool_decide_eq_false_2 by lia.
        destruct (downloadQueue e !! i) as [item |] eqn:Hi'.
        -- rewrite (list_lookup_total_correct _ _ _ Hi').
           rewrite (proj1 (Forall_lookup _ _) Hf _ _ Hi'). reflexivity.
        -- rewrite list_lookup_total_alt, Hi'. reflexivity.
  - intros Ha. split.
    + unfold item_status. rewrite bool_decide_eq_false_2 by lia.
      fold (cursor_item e). rewrite (consistent_cursor e Hc). reflexivity.
    + pose proof (processDownloadQueue_attempt e Ha) as H. cbn zeta in H.
      destruct H as ((_ & _ & _ & _ & Hi & _) & _).
      unfold item_status. rewrite Hi.
      rewrite bool_decide_eq_true_2 by lia. reflexivity.
Qed.

Lemma listing_statuses_witness :
  let e' := snd (processDownloadQueue env_404) in
  consistent env_404
  /\ fst (processDownloadQueue env_404) = false
  /\ map fst (listDownloadQueue env_404) = [Pending]
  /\ item_status 0 e' = Downloaded.
Proof.
  assert (Hc : consistent env_404).
  { unfold consistent.
    split; [vm_compute; lia |]. split; [reflexivity |].
    split; [| split; [vm_compute; lia | reflexivity]].
    vm_compute. repeat constructor. }
  destruct (listing_statuses env_404 Hc) as (_ & H2 & H3).
  destruct (H3 eq_refl) as [_ H4].
  cbn zeta. split; [exact Hc |]. split; [reflexivity |].
  split; [rewrite H2; reflexivity | exact H4].
Defined.

(** ** The identifiers of the codec *)

Lemma safe_name_app s t : safe_name (s +:+ t) = safe_name s && safe_name t.
Proof.
  induction s as [| c r IH]; [reflexivity |].
  change (safe_char c && safe_name (r +:+ t)
          = safe_char c && safe_name r && safe_name t).
  rewrite IH. apply andb_assoc.
Qed.

Lemma strtake_cons n c r : strtake (S n) (String c r) = String c (strtake n r).
Proof. reflexivity. Qed.

Lemma safe_name_strtake n s : safe_name s = true -> safe_name (strtake n s) = true.
Proof.
  revert s. induction n as [| n IH]; intros [| c r] H; try reflexivity.
  rewrite strtake_cons. cbn [safe_name] in *.
  apply andb_true_iff in H as [Hc Hr]. rewrite Hc, (IH r Hr). reflexivity.
Qed.

Lemma safe_name_sanitize s : safe_name (sanitize s) = true.
Proof.
  induction s as [| c r IH]; [reflexivity |]. cbn [sanitize].
  fold (safe_char c). destruct (safe_char c) eqn:Hc.
  - cbn [safe_name]. rewrite Hc, IH. reflexivity.
  - destruct (Ascii.eqb c " "); [| exact IH].
    cbn [safe_name]. rewrite IH. reflexivity.
Qed.

Lemma safe_name_clean_loop s j : safe_name (clean_loop s j) = true.
Proof. rewrite clean_loop_take. apply safe_name_strtake, safe_name_sanitize. Qed.

Lemma safe_char_hex_digit n : safe_char (hex_digit n) = true.
Proof.
  unfold hex_digit. generalize (Z.to_nat n). intros k.
  do 16 (destruct k as [| k]; [reflexivity |]). destruct k; reflexivity.
Qed.

Lemma safe_name_hex8 h : safe_name (hex8 h) = true.
Proof.
  unfold hex8. cbn [map string_of_list_ascii safe_name].
  rewrite !safe_char_hex_digit. reflexivity.
Qed.

Lemma safe_name_uint d : safe_name (NilEmpty.string_of_uint d) = true.
Proof.
  induction d; cbn [NilEmpty.string_of_uint safe_name]; try rewrite IHd;
    reflexivity.
Qed.

Lemma safe_name_dec n : safe_name (dec n) = true.
Proof.
  unfold dec, NilZero.string_of_uint.
  destruct (Nat.to_uint n) eqn:H; try reflexivity;
    rewrite <- H; apply safe_name_uint.
Qed.

Lemma safe_name_baseFilename h :
  safe_name (baseFilename h) = true /\ baseFilename h <> "".
Proof.
  unfold baseFilename, snprintf. split.
  - apply safe_name_strtake. rewrite !safe_name_app, safe_name_hex8.
    reflexivity.
  - change (MAX_FILENAME_LENGTH - 1)%nat with 63%nat.
    change ("audio_" +:+ hex8 h +:+ ".mp3")
      with (String "a" ("udio_" +:+ hex8 h +:+ ".mp3")).
    rewrite strtake_cons. discriminate.
Qed.

Lemma safe_name_counterFilename h k :
  safe_name (counterFilename h k) = true /\ counterFilename h k <> "".
Proof.
  unfold counterFilename, snprintf. split.
  - apply safe_name_strtake.
    rewrite !safe_name_app, safe_name_hex8, safe_name_dec. reflexivity.
  - change (MAX_FILENAME_LENGTH - 1)%nat with 63%nat.
    change ("audio_" +:+ hex8 h +:+ "_" +:+ dec k +:+ ".mp3")
      with (String "a" ("udio_" +:+ hex8 h +:+ "_" +:+ dec k +:+ ".mp3")).
    rewrite strtake_cons. discriminate.
Qed.

(** What the collision loop returns. *)
Lemma collision_loop_result h n e :
  match fst (collision_loop h n e) with
  | Some f =>
      exists k, (1000 - n <= k < 1000)%nat /\ f = counterFilename h k
                /\ exists_on e (audioPath f) = false
  | None =>
      forall k, (1000 - n <= k < 1000)%nat ->
                exists_on e (audioPath (counterFilename h k)) = true
  end.
Proof.
  induction n as [| n IH]; [cbn; intros k Hk; lia |].
  rewrite collision_loop_S. unfold bind. rewrite SD_exists_spec.
  destruct (exists_on e (audioPath (counterFilename h (1000 - S n)))) eqn:Hx;
    cbn [negb].
  - destruct (fst (collision_loop h n e)) as [f |].
    + destruct IH as (k & Hk & Hf & Hfree). exists k.
      split; [lia | auto].
    + intros k Hk. destruct (decide (k = 1000 - S n)%nat) as [-> | Hne];
        [exact Hx | apply IH; lia].
  - cbn [fst ret]. exists (1000 - S n)%nat. split; [lia | auto].
Qed.

Lemma filename_of_cases u e :
  (has_extension u = true /\ filename_of u e = clean_loop (urlFilename u) 0)
  \/ (has_extension u = false
      /\ (filename_of u e = baseFilename (url_hash u)
          \/ exists k, filename_of u e = counterFilename (url_hash u) k)).
Proof.
  destruct (has_extension u) eqn:Hx.
  - left. split; [reflexivity | apply filename_of_ext, Hx].
  - right. split; [reflexivity |].
    unfold filename_of, urlToFilename. rewrite Hx.
    unfold hashed_filename, bind. rewrite initializeSDCard_spec.
    destruct (sd_ready e); [| left; reflexivity].
    rewrite SD_exists_spec. destruct (exists_on _ _); [| left; reflexivity].
    rewrite collision_loop_spec.
    pose proof (collision_loop_result (url_hash u) 999 (mark_ready e)) as H.
    destruct (fst (collision_loop _ _ _)) as [f |]; [| left; reflexivity].
    destruct H as (k & _ & -> & _). right. exists k. reflexivity.
Qed.

Lemma safe_name_no_slash s : safe_name s = true -> strchr s "/" = None.
Proof.
  induction s as [| c r IH]; [reflexivity |]. cbn [safe_name strchr].
  intros H. apply andb_true_iff in H as [Hc Hr].
  destruct (Ascii.eqb c "/") eqn:Hs; [| apply IH, Hr].
  apply Ascii.eqb_eq in Hs. subst c. discriminate.
Qed.

(** X15. Whatever the locator and the card, the codec returns an
    identifier, and the identifier is not empty and holds only letters,
    digits, dot, dash and underscore, so no path separator; the local
    path is the audio directory, a separator and the identifier. An
    identifier of dots only is not excluded (Example
    [dots_only_identifier]). *)
Theorem codec_identifier_safe u e :
  let name := filename_of u e in
  fst (urlToFilename u e) = Some name
  /\ name <> ""
  /\ safe_name name = true
  /\ strchr name "/" = None
  /\ fst (getLocalAudioPath u e) = Some (AUDIO_FILES_DIR +:+ "/" +:+ name).
Proof.
  cbn zeta.
  destruct (urlToFilename_spec u e) as [Hu Hl].
  destruct (getLocalAudioPath_spec u e) as [Hg Hp].
  assert (Hs : filename_of u e <> "" /\ safe_name (filename_of u e) = true).
  { destruct (filename_of_cases u e) as [[Hx ->] | [_ [-> | [k ->]]]].
    - split; [| apply safe_name_clean_loop].
      pose proof (has_extension_clean u Hx) as Hn.
      destruct (clean_loop _ _); [cbn in Hn; lia | discriminate].
    - split; apply safe_name_baseFilename.
    - split; apply safe_name_counterFilename. }
  destruct Hs as [Hn Hs].
  rewrite Hu, Hg, Hp. cbn [fst].
  split; [reflexivity |]. split; [exact Hn |]. split; [exact Hs |].
  split; [apply safe_name_no_slash, Hs |].
  rewrite audioPath_fits by exact Hl. reflexivity.
Qed.

(** A final segment of dots only is kept as it is: the local path then
    names the parent of the audio directory. *)
Example dots_only_identifier :
  fst (urlToFilename "http://h/.." env0) = Some ".."
  /\ fst (getLocalAudioPath "http://h/.." env0) = Some "/audio/..".
Proof. split; vm_compute; reflexivity. Qed.

(** The destination of a locator without extension is free on the card
    unless the base name and all 999 suffixed names are taken. *)
Lemma hashed_destination_free u e :
  has_extension u = false ->
  sd_ready e = true ->
  exists_on e (audioPath (baseFilename (url_hash u))) = false
  \/ (exists k, (1 <= k < 1000)%nat
        /\ exists_on e (audioPath (counterFilename (url_hash u) k)) = false) ->
  exists_on e (local_path u e) = false.
Proof.
  intros Hx Hr Hfree.
  destruct (getLocalAudioPath_spec u e) as [_ ->].
  unfold filename_of, urlToFilename. rewrite Hx.
  unfold hashed_filename, bind. rewrite initializeSDCard_spec, Hr.
  rewrite SD_exists_spec.
  assert (Hsame : forall p, exists_on (mark_ready e) p = exists_on e p).
  { intros p. symmetry. apply exists_on_same, same_card_mark. }
  rewrite Hsame.
  destruct (exists_on e (audioPath (baseFilename (url_hash u)))) eqn:Hb;
    [| exact Hb].
  rewrite collision_loop_spec.
  pose proof (collision_loop_result (url_hash u) 999 (mark_ready e)) as H.
  destruct (fst (collision_loop _ _ _)) as [f |]; cbn [fst default].
  - destruct H as (k & _ & _ & H). rewrite <- Hsame. exact H.
  - destruct Hfree as [Hf | (k & Hk & Hf)]; [discriminate |].
    rewrite <- Hsame, H in Hf by lia. discriminate.
Qed.

(** X16. A remote audio record whose locator has no dot in its final
    path segment never resolves to a cached file: as long as the base
    name or one of the 999 suffixed names is free on the card, the
    resolver computes a destination that does not exist and returns no
    path, also right after the download of that record has been
    written. *)
Theorem extensionless_locator_never_cached key f e :
  find_key key e = Some f ->
  type f = "audio" ->
  has_prefix "http://" (path f) || has_prefix "https://" (path f) = true ->
  has_extension (path f) = false ->
  exists_on e (audioPath (baseFilename (url_hash (path f)))) = false
  \/ (exists k, (1 <= k < 1000)%nat
        /\ exists_on e (audioPath (counterFilename (url_hash (path f)) k))
           = false) ->
  fst (audioFileExists (path f) e) = false
  /\ fst (processAudioKey key e) = None.
Proof.
  intros Hk Ht Hp Hx Hfree.
  rewrite audioFileExists_spec, (processAudioKey_remote key f e Hk Ht Hp).
  cbn [fst].
  destruct (sd_ready e) eqn:Hr; cbn [andb]; [| auto].
  rewrite (hashed_destination_free (path f) e Hx Hr Hfree). auto.
Qed.

Lemma extensionless_locator_never_cached_witness :
  let e1 := snd (processAudioKey "456" env_stream) in
  let e2 := snd (processDownloadQueue e1) in
  fst (processDownloadQueue e1) = true
  /\ sd_files e2 !! "/audio/audio_8d0dd443.mp3" = Some "ID3.data"
  /\ fst (processAudioKey "456" e2) = None.
Proof.
  cbn zeta.
  split; [vm_compute; reflexivity |]. split; [vm_compute; reflexivity |].
  apply (extensionless_locator_never_cached "456"
           (record_of "456" stream_entry)).
  - vm_compute. reflexivity.
  - reflexivity.
  - reflexivity.
  - reflexivity.
  - right. exists 1%nat. split; [lia |]. vm_compute. reflexivity.
Defined.

(** ** From the first resolve to the cached file *)

Lemma local_path_ext u e e' :
  has_extension u = true -> local_path u e = local_path u e'.
Proof.
  intros Hx.
  destruct (getLocalAudioPath_spec u e) as [_ ->].
  destruct (getLocalAudioPath_spec u e') as [_ ->].
  rewrite !filename_of_ext by exact Hx. reflexivity.
Qed.

Lemma find_key_same key e e' :
  knownFiles e' = knownFiles e ->
  knownSequenceCount e' = knownSequenceCount e ->
  find_key key e' = find_key key e.
Proof. unfold find_key. intros -> ->. reflexivity. Qed.

Lemma exists_on_file e p content :
  sd_files e !! p = Some content -> exists_on e p = true.
Proof.
  intros H. unfold exists_on, SD_exists, gets. cbn [fst]. rewrite H.
  rewrite bool_decide_eq_true_2 by eauto. reflexivity.
Qed.

(** X17. The whole path of a remote clip: for a registry record whose
    locator has at most 255 bytes and a dot in its final segment, with
    nothing pending in the queue, room in it, the world up and the server
    answering 200, the first resolve returns no path and enqueues the
    clip, one drive step downloads it with a single request, and the next
    resolve returns the local path, where the file holds what the chunk
    loop read. *)
Theorem resolve_download_resolve key f e :
  find_key key e = Some f ->
  type f = "audio" ->
  has_prefix "http://" (path f) || has_prefix "https://" (path f) = true ->
  has_extension (path f) = true ->
  (strlen (path f) <= 255)%nat ->
  downloadQueueIndex e = downloadQueueCount e ->
  (downloadQueueCount e < MAX_DOWNLOAD_QUEUE)%nat ->
  length (downloadQueue e) = MAX_DOWNLOAD_QUEUE ->
  url_queued (path f) e = false ->
  wifi_connected e = true -> sd_ready e = true -> dir_ready e = true ->
  exists_on e (local_path (path f) e) = false ->
  http_code (response_of e (path f)) = 200 ->
  local_path (path f) e ∉ sd_readonly e ->
  let r1 := processAudioKey key e in
  let r2 := processDownloadQueue (snd r1) in
  let r3 := processAudioKey key (snd r2) in
  fst r1 = None
  /\ fst r2 = true
  /\ fst r3 = Some (local_path (path f) e)
  /\ sd_files (snd r3) !! local_path (path f) e
     = Some (download_loop (http_size (response_of e (path f)))
               (http_chunks (response_of e (path f))) "")
  /\ http_requests (snd r3) = http_requests e ++ [path f].
Proof.
  intros Hk Ht Hp Hx Hlen Hidx Hroom Hql Hnq Hw Hr Hd Hnew Hcode Hwr.
  cbn zeta.
  set (u := path f) in *. set (d := description f).
  rewrite (processAudioKey_remote key f e Hk Ht Hp). fold u d.
  rewrite Hr, Hnew. cbn [andb fst snd].
  assert (Hadd : addToDownloadQueue u d (mark_ready e)
                 = (true, enqueued u d (mark_ready e))).
  { apply addToDownloadQueue_new; [mark_fields; exact Hroom |].
    unfold url_queued. mark_fields. exact Hnq. }
  rewrite Hadd. cbn [snd].
  set (e1 := enqueued u d (mark_ready e)).
  assert (He1 : e1 = set_downloadQueueCount (S (downloadQueueCount e))
                       (set_downloadQueue
                          (<[downloadQueueCount e :=
                               new_item u d (mark_ready e)]>
                             (downloadQueue e))
                          (mark_ready e))).
  { unfold e1, enqueued. rewrite Hx. mark_fields. reflexivity. }
  assert (Hcur : cursor_item e1 = new_item u d (mark_ready e)).
  { unfold cursor_item. rewrite He1. simpl. mark_fields. rewrite Hidx.
    apply list_lookup_total_insert_eq. lia. }
  assert (Hurl : url (cursor_item e1) = u).
  { rewrite Hcur. cbn [url new_item]. unfold strncpy_field.
    apply strtake_all. simpl. exact Hlen. }
  assert (Hlp : localPath (cursor_item e1) = local_path u e).
  { rewrite Hcur. cbn [localPath new_item]. apply local_path_ext, Hx. }
  assert (Hr1 : sd_ready e1 = true).
  { rewrite <- Hr, <- (sd_ready_mark e). rewrite He1. reflexivity. }
  assert (Hw1 : wifi_connected e1 = true).
  { rewrite <- Hw. rewrite He1. simpl. mark_fields. reflexivity. }
  assert (Hi1 : downloadQueueIndex e1 = downloadQueueCount e).
  { rewrite <- Hidx. rewrite He1. simpl. mark_fields. reflexivity. }
  assert (Hc1 : downloadQueueCount e1 = S (downloadQueueCount e))
    by (rewrite He1; reflexivity).
  assert (Ha : attempted e1 = true).
  { unfold attempted. rewrite Hcur, Hr1, Hw1, Hi1, Hc1.
    rewrite bool_decide_eq_true_2 by lia. reflexivity. }
  assert (Hd1 : dir_ready e1 = true).
  { rewrite <- Hd. rewrite He1. unfold dir_ready, exists_on, SD_exists, gets.
    simpl. mark_fields. reflexivity. }
  assert (Hresp : forall x, response_of e1 x = response_of e x).
  { intros x. rewrite He1. unfold response_of. simpl. mark_fields.
    reflexivity. }
  assert (Hro : sd_readonly e1 = sd_readonly e)
    by (rewrite He1; simpl; mark_fields; reflexivity).
  assert (Hf1 : sd_files e1 = sd_files e)
    by (rewrite He1; simpl; mark_fields; reflexivity).
  assert (Hq1 : http_requests e1 = http_requests e)
    by (rewrite He1; simpl; mark_fields; reflexivity).
  assert (Hk1 : find_key key e1 = Some f).
  { rewrite <- Hk. apply find_key_same; rewrite He1; simpl; mark_fields;
      reflexivity. }
  pose proof (processDownloadQueue_attempt e1 Ha) as H. cbn zeta in H.
  rewrite Hurl, Hlp, Hresp, Hro, Hf1, Hq1, Hd1, Hcode in H.
  rewrite (bool_decide_eq_true_2 _ Hwr) in H. cbn [andb Z.eqb Pos.eqb] in H.
  destruct H as ((G1 & G2 & _ & _ & _ & _ & _ & _ & _ & G10) & _ & Hy & Hres).
  destruct (Hy eq_refl) as (Hq2 & Hf2 & _).
  set (e2 := snd (processDownloadQueue e1)) in *.
  assert (Hk2 : find_key key e2 = Some f).
  { rewrite <- Hk1. apply find_key_same; assumption. }
  rewrite (processAudioKey_remote key f e2 Hk2 Ht Hp). fold u.
  rewrite (local_path_ext u e2 e Hx), G10.
  assert (Hfile : sd_files e2 !! local_path u e
                  = Some (download_loop (http_size (response_of e u))
                            (http_chunks (response_of e u)) "")).
  { rewrite Hf2. apply lookup_insert_eq. }
  rewrite (exists_on_file e2 _ _ Hfile). cbn [andb fst snd].
  mark_fields.
  split; [reflexivity |]. split; [exact Hres |]. split; [reflexivity |].
  split; [exact Hfile | exact Hq2].
Qed.

Lemma resolve_download_resolve_witness :
  let r1 := processAudioKey "123" env_resolve in
  let r2 := processDownloadQueue (snd r1) in
  let r3 := processAudioKey "123" (snd r2) in
  fst r1 = None
  /\ fst r2 = true
  /\ fst r3 = Some "/audio/a.mp3"
  /\ sd_files (snd r3) !! "/audio/a.mp3" = Some "ID3.data"
  /\ http_requests (snd r3) = ["https://x/a.mp3"].
Proof.
  apply (resolve_download_resolve "123" (record_of "123" sample_entry)
           env_resolve).
  - reflexivity.
  - reflexivity.
  - reflexivity.
  - reflexivity.
  - vm_compute. lia.
  - reflexivity.
  - vm_compute. lia.
  - reflexivity.
  - reflexivity.
  - reflexivity.
  - reflexivity.
  - reflexivity.
  - reflexivity.
  - reflexivity.
  - apply nothing_readonly. reflexivity.
Defined.

(** X18. A failed download is not tried again. Under the conditions of
    the previous property but with a reply other than 200, the drive step
    reports failure and advances; the next resolve finds the locator still
    stored in the queue and enqueues nothing, and the next drive step has
    nothing to do: one request in all, and the key stays without a path
    until the queue is cleared. *)
Theorem failed_download_not_retried key f e :
  find_key key e = Some f ->
  type f = "audio" ->
  has_prefix "http://" (path f) || has_prefix "https://" (path f) = true ->
  (strlen (path f) <= 255)%nat ->
  downloadQueueIndex e = downloadQueueCount e ->
  (downloadQueueCount e < MAX_DOWNLOAD_QUEUE)%nat ->
  length (downloadQueue e) = MAX_DOWNLOAD_QUEUE ->
  url_queued (path f) e = false ->
  wifi_connected e = true -> sd_ready e = true ->
  exists_on e AUDIO_FILES_DIR = true ->
  exists_on e (local_path (path f) e) = false ->
  http_code (response_of e (path f)) <> 200 ->
  let r1 := processAudioKey key e in
  let r2 := processDownloadQueue (snd r1) in
  let r3 := processAudioKey key (snd r2) in
  let r4 := processDownloadQueue (snd r3) in
  fst r1 = None /\ fst r2 = false /\ fst r3 = None /\ fst r4 = false
  /\ http_requests (snd r4) = http_requests e ++ [path f]
  /\ downloadQueueCount (snd r4) = S (downloadQueueCount e)
  /\ isDownloadQueueEmpty (snd r4) = true.
Proof.
  intros Hk Ht Hp Hlen Hidx Hroom Hql Hnq Hw Hr Hdir Hnew Hcode.
  cbn zeta.
  set (u := path f) in *. set (d := description f).
  rewrite (processAudioKey_remote key f e Hk Ht Hp). fold u d.
  rewrite Hr, Hnew. cbn [andb fst snd].
  assert (Hadd : addToDownloadQueue u d (mark_ready e)
                 = (true, enqueued u d (mark_ready e))).
  { apply addToDownloadQueue_new; [mark_fields; exact Hroom |].
    unfold url_queued. mark_fields. exact Hnq. }
  rewrite Hadd. cbn [snd].
  set (e1 := enqueued u d (mark_ready e)).
  assert (He1 : e1 = set_downloadQueueCount (S (downloadQueueCount e))
                       (set_downloadQueue
                          (<[downloadQueueCount e :=
                               new_item u d (mark_ready e)]>
                             (downloadQueue e))
                          (mark_ready e))).
  { unfold e1, enqueued. mark_fields.
    destruct (has_extension u); [| rewrite mark_ready_idem]; reflexivity. }
  assert (Hcur : cursor_item e1 = new_item u d (mark_ready e)).
  { unfold cursor_item. rewrite He1. simpl. mark_fields. rewrite Hidx.
    apply list_lookup_total_insert_eq. lia. }
  assert (Hurl : url (cursor_item e1) = u).
  { rewrite Hcur. cbn [url new_item]. unfold strncpy_field.
    apply strtake_all. simpl. exact Hlen. }
  assert (Hr1 : sd_ready e1 = true).
  { rewrite <- Hr, <- (sd_ready_mark e). rewrite He1. reflexivity. }
  assert (Hw1 : wifi_connected e1 = true).
  { rewrite <- Hw. rewrite He1. simpl. mark_fields. reflexivity. }
  assert (Hi1 : downloadQueueIndex e1 = downloadQueueCount e).
  { rewrite <- Hidx. rewrite He1. simpl. mark_fields. reflexivity. }
  assert (Hc1 : downloadQueueCount e1 = S (downloadQueueCount e))
    by (rewrite He1; reflexivity).
  assert (Ha : attempted e1 = true).
  { unfold attempted. rewrite Hcur, Hr1, Hw1, Hi1, Hc1.
    rewrite bool_decide_eq_true_2 by lia. reflexivity. }
  assert (Hx1 : forall p, exists_on e1 p = exists_on e p).
  { intros p. rewrite He1. unfold exists_on, SD_exists, gets.
    simpl. mark_fields. reflexivity. }
  assert (Hd1 : dir_ready e1 = true).
  { unfold dir_ready. rewrite Hx1, Hdir. reflexivity. }
  assert (Hresp : forall x, response_of e1 x = response_of e x).
  { intros x. rewrite He1. unfold response_of. simpl. mark_fields.
    reflexivity. }
  assert (Hf1 : sd_files e1 = sd_files e)
    by (rewrite He1; simpl; mark_fields; reflexivity).
  assert (Hdirs1 : sd_dirs e1 = sd_dirs e)
    by (rewrite He1; simpl; mark_fields; reflexivity).
  assert (Hq1 : http_requests e1 = http_requests e)
    by (rewrite He1; simpl; mark_fields; reflexivity).
  assert (Hk1 : find_key key e1 = Some f).
  { rewrite <- Hk. apply find_key_same; rewrite He1; simpl; mark_fields;
      reflexivity. }
  assert (Hqd1 : url_queued u e1 = true).
  { unfold e1. apply url_queued_enqueued; [exact Hlen |].
    mark_fields. lia. }
  pose proof (processDownloadQueue_attempt e1 Ha) as H. cbn zeta in H.
  pose proof (drive_step_keeps_urls e1) as Hurls.
  rewrite Hurl, Hresp, Hf1, Hq1, Hd1, Hx1, Hdir, Hdirs1 in H.
  rewrite (proj2 (Z.eqb_neq _ _) Hcode) in H. cbn [andb] in H.
  destruct H as ((G1 & G2 & _ & G4 & G5 & G6 & _ & _ & _ & G10)
                 & _ & Hy & Hres).
  destruct (Hy eq_refl) as (Hq2 & Hf2 & Hdirs2).
  set (e2 := snd (processDownloadQueue e1)) in *.
  assert (Hk2 : find_key key e2 = Some f).
  { rewrite <- Hk1. apply find_key_same; assumption. }
  assert (Hsame : same_card e e2).
  { unfold same_card. rewrite Hf2, Hdirs2, G10, Hr. auto. }
  rewrite (processAudioKey_remote key f e2 Hk2 Ht Hp). fold u d.
  rewrite <- (local_path_same u e e2 Hsame).
  rewrite <- (exists_on_same e e2 _ Hsame), Hnew, andb_false_r.
  cbn [fst snd].
  assert (Hq3 : url_queued u (mark_ready e2) = true).
  { apply url_queued_spec. apply url_queued_spec in Hqd1.
    rewrite <- Hurls in Hqd1. unfold queued_urls in *. mark_fields.
    exact Hqd1. }
  rewrite addToDownloadQueue_cases, Hq3.
  assert (Hsnd : snd (if bool_decide (MAX_DOWNLOAD_QUEUE
                                      <= downloadQueueCount (mark_ready e2))%nat
                      then (false, mark_ready e2)
                      else (true, mark_ready e2)) = mark_ready e2)
    by (destruct (bool_decide _); reflexivity).
  rewrite Hsnd.
  assert (Hidle : processDownloadQueue (mark_ready e2)
                  = (false, mark_ready e2)).
  { unfold processDownloadQueue, bind, gets, ret. cbn beta iota.
    mark_fields. rewrite bool_decide_eq_true_2 by lia. reflexivity. }
  rewrite Hidle. cbn [fst snd]. mark_fields.
  unfold isDownloadQueueEmpty. mark_fields.
  rewrite bool_decide_eq_true_2 by lia.
  repeat (split; [first [reflexivity | assumption | congruence] |]).
  reflexivity.
Qed.

Lemma failed_download_not_retried_witness :
  let e := set_http_server {["https://x/a.mp3" := not_found]} env_one_key in
  let r1 := processAudioKey "123" e in
  let r2 := processDownloadQueue (snd r1) in
  let r3 := processAudioKey "123" (snd r2) in
  let r4 := processDownloadQueue (snd r3) in
  fst r1 = None /\ fst r2 = false /\ fst r3 = None /\ fst r4 = false
  /\ http_requests (snd r4) = ["https://x/a.mp3"]
  /\ downloadQueueCount (snd r4) = 1%nat
  /\ isDownloadQueueEmpty (snd r4) = true.
Proof.
  apply (failed_download_not_retried "123" (record_of "123" sample_entry)
           (set_http_server {["https://x/a.mp3" := not_found]} env_one_key)).
  - reflexivity.
  - reflexivity.
  - reflexivity.
  - vm_compute. lia.
  - reflexivity.
  - vm_compute. lia.
  - reflexivity.
  - reflexivity.
  - reflexivity.
  - reflexivity.
  - reflexivity.
  - reflexivity.
  - vm_compute. discriminate.
Defined.


(** * Player and game *)

Lemma processAudioKey_millis key e :
  millis (snd (processAudioKey key e)) = millis e.
Proof.
  destruct (processAudioKey_branches key e) as [-> | (f & _ & ->)];
    [reflexivity |].
  destruct (sd_ready e && exists_on e (local_path (path f) e)); cbn [snd];
    [mark_fields; reflexivity |].
  rewrite addToDownloadQueue_cases.
  destruct (bool_decide _); cbn [snd]; [mark_fields; reflexivity |].
  destruct (url_queued _ _); cbn [snd]; [mark_fields; reflexivity |].
  unfold enqueued. destruct (has_extension _); simpl; mark_fields;
    reflexivity.
Qed.

(** ** The distance of two clock readings *)

Lemma wrap32_range z : 0 <= wrap32 z < 2 ^ 32.
Proof. unfold wrap32. apply Z.mod_pos_bound. lia. Qed.

Lemma wrap32_opp z :
  wrap32 (- z) = if wrap32 z =? 0 then 0 else 2 ^ 32 - wrap32 z.
Proof.
  unfold wrap32.
  pose proof (Z.mod_pos_bound z (2 ^ 32) ltac:(lia)) as Hr.
  pose proof (Z.div_mod z (2 ^ 32) ltac:(lia)) as Hz.
  destruct (z mod 2 ^ 32 =? 0) eqn:H0.
  - apply Z.eqb_eq in H0. symmetry.
    apply (Z.mod_unique_pos _ _ (- (z / 2 ^ 32))); lia.
  - apply Z.eqb_neq in H0. symmetry.
    apply (Z.mod_unique_pos _ _ (- (z / 2 ^ 32) - 1)); lia.
Qed.

(** The two presses are half the clock circle apart exactly when the
    difference reads as [LONG_MIN]. *)
Lemma clock_distance_half t1 t2 :
  clock_distance t1 t2 = 2 ^ 31 <-> to_long (wrap32 (t1 - t2)) = LONG_MIN.
Proof.
  unfold clock_distance, to_long, LONG_MIN.
  replace (t2 - t1) with (- (t1 - t2)) by lia. rewrite wrap32_opp.
  pose proof (wrap32_range (t1 - t2)) as Hr.
  set (d := wrap32 (t1 - t2)) in *.
  destruct (d <? 2 ^ 31) eqn:Hlt;
    [apply Z.ltb_lt in Hlt | apply Z.ltb_ge in Hlt];
    (destruct (d =? 0) eqn:H0;
       [apply Z.eqb_eq in H0 | apply Z.eqb_neq in H0]); lia.
Qed.

(** [abs((long)(a - b))] has no result when the presses are half the
    clock circle apart, and is the distance on the clock circle, the
    shorter way round, otherwise. *)
Lemma timeDiff_distance t1 t2 :
  timeDiff t1 t2
  = if clock_distance t1 t2 =? 2 ^ 31 then None
    else Some (clock_distance t1 t2).
Proof.
  pose proof (clock_distance_half t1 t2) as Hh.
  unfold timeDiff, abs_long.
  destruct (clock_distance t1 t2 =? 2 ^ 31) eqn:Hd.
  - apply Z.eqb_eq in Hd. apply Hh in Hd. rewrite Hd. reflexivity.
  - apply Z.eqb_neq in Hd.
    destruct (_ =? LONG_MIN) eqn:Hm;
      [apply Z.eqb_eq in Hm; tauto | clear Hm Hh].
    f_equal. revert Hd. unfold clock_distance, to_long.
    replace (t2 - t1) with (- (t1 - t2)) by lia. rewrite wrap32_opp.
    pose proof (wrap32_range (t1 - t2)) as Hr.
    set (d := wrap32 (t1 - t2)) in *. intros Hd.
    destruct (d <? 2 ^ 31) eqn:Hlt.
    + apply Z.ltb_lt in Hlt. rewrite Z.abs_eq by lia.
      rewrite wrap32_small by lia.
      destruct (d =? 0) eqn:H0;
        [apply Z.eqb_eq in H0 | apply Z.eqb_neq in H0]; lia.
    + apply Z.ltb_ge in Hlt.
      destruct (d =? 0) eqn:H0;
        [apply Z.eqb_eq in H0 | apply Z.eqb_neq in H0]; [lia |].
      rewrite Z.abs_neq by lia. rewrite wrap32_small by lia. lia.
Qed.

Section PlayerProperties.

Context {AP : Type}.
Variable playPath : string -> AP -> AP.
Variable copy : AP -> AP.
Variable isActive : AP -> bool.
Variable player_end : AP -> AP.
Variable getKey : Z -> Z.

(** The cases of [playAudioByKey]. *)
Lemma playAudioByKey_cases key (a : App AP) :
  playAudioByKey playPath key a
    = if negb (hasAudioKey key (manager a)) then (false, a)
      else
        let a1 := set_manager (snd (processAudioKey key (manager a))) a in
        match fst (processAudioKey key (manager a)), audioPlayer a with
        | Some p, Some player =>
            if isPlayingAudio a then (false, a1)
            else
              (true,
               set_audioStartTime (millis (manager a))
                 (set_isPlayingAudio true
                    (set_audioPlayer (Some (playPath p player)) a1)))
        | _, _ => (false, a1)
        end.
Proof.
  unfold playAudioByKey.
  destruct (hasAudioKey key (manager a)); cbn [negb]; [| reflexivity].
  pose proof (processAudioKey_millis key (manager a)) as Hm.
  destruct (processAudioKey key (manager a)) as [[p |] e']; cbn [fst snd] in *;
    [| destruct (audioPlayer a); reflexivity].
  unfold startAudioPlayback. cbn [audioPlayer set_manager isPlayingAudio manager].
  destruct (audioPlayer a); [| reflexivity].
  destruct (isPlayingAudio a); [reflexivity |]. rewrite Hm. reflexivity.
Qed.

(** X19. [playAudioByKey] starts a playback exactly when the player
    exists, nothing is playing, the key is known and the resolver returns
    a path; the path is then handed to the player, the playing flag is set
    and the start time is the clock reading. In every other case the
    player object, the flag and the start time are untouched. The game
    statics never change, and the resolver runs whenever the key is known,
    also while something is playing. *)
Theorem playAudioByKey_starts key (a : App AP) :
  let r := playAudioByKey playPath key a in
  (fst r = true <->
     is_Some (audioPlayer a) /\ isPlayingAudio a = false
     /\ hasAudioKey key (manager a) = true
     /\ is_Some (fst (processAudioKey key (manager a))))
  /\ (forall player p,
        fst r = true ->
        audioPlayer a = Some player ->
        fst (processAudioKey key (manager a)) = Some p ->
        audioPlayer (snd r) = Some (playPath p player)
        /\ isPlayingAudio (snd r) = true
        /\ audioStartTime (snd r) = millis (manager a))
  /\ (fst r = false -> same_player a (snd r))
  /\ same_game a (snd r)
  /\ manager (snd r)
     = if hasAudioKey key (manager a)
       then snd (processAudioKey key (manager a)) else manager a.
Proof.
  cbn zeta. rewrite playAudioByKey_cases. unfold same_game, same_player.
  destruct (hasAudioKey key (manager a)); cbn [negb].
  2: { cbn [fst snd].
       split; [split; [discriminate | intros (_ & _ & H & _); discriminate] |].
       split; [intros player p H; discriminate |]. auto 10. }
  cbn zeta.
  destruct (fst (processAudioKey key (manager a))) as [p |].
  2: { cbn [fst snd].
       split; [split; [discriminate
                      | intros (_ & _ & _ & [x H]); discriminate] |].
       split; [intros player p H; discriminate |]. auto 10. }
  destruct (audioPlayer a) as [player |] eqn:Hap.
  2: { cbn [fst snd].
       split; [split; [discriminate | intros ([x H] & _); discriminate] |].
       split; [intros player p' H; discriminate |]. simpl. auto 10. }
  destruct (isPlayingAudio a) eqn:Hp; cbn [fst snd].
  - split; [split; [discriminate | intros (_ & H & _); discriminate] |].
    split; [intros player' p' H; discriminate |]. simpl. auto 10.
  - split; [split; [intros _; repeat split; eauto | reflexivity] |].
    split; [| split; [discriminate | simpl; auto 10]].
    intros player' p' _ [= <-] [= <-]. auto.
Qed.


Lemma playAudioByKey_game key (a : App AP) :
  same_game a (snd (playAudioByKey playPath key a)).
Proof.
  rewrite playAudioByKey_cases. unfold same_game.
  destruct (hasAudioKey _ _); cbn [negb snd]; [| auto]. cbn zeta.
  destruct (fst _); destruct (audioPlayer a);
    try destruct (isPlayingAudio a); cbn [snd]; simpl; auto.
Qed.

(** X20. Once both players have answered, [processGame] hands one key to
    [playAudioByKey] and goes to PLAYING_SOUND with the answers as they
    are, whether or not the sound can be played. The key is the NO sound
    when somebody said no. When both said yes it depends on the distance
    of the two presses on the 32-bit clock, the shorter way round (so also
    across a wraparound of [millis()]): the YES sound up to
    [GAME_TIMEOUT_MS], the NO sound above it, and at a distance of exactly
    2^31 ms the code applies [abs] to [LONG_MIN], which has no defined
    result: nothing is stated about the step then. *)
Theorem both_answered_verdict (a : App AP) :
  gameState a = WAITING_FOR_PLAYERS ->
  hasPressed (player1LastPress a) = true ->
  hasPressed (player2LastPress a) = true ->
  let d := clock_distance (timestamp (player1LastPress a))
                          (timestamp (player2LastPress a)) in
  processGame playPath a
    = match verdict a with
      | Some key =>
          Some (set_gameState PLAYING_SOUND
                  (snd (playAudioByKey playPath key a)))
      | None => None
      end
  /\ (verdict a = None <->
      value (player1LastPress a) = true
      /\ value (player2LastPress a) = true /\ d = 2 ^ 31)
  /\ (verdict a = Some YES_SOUND_KEY <->
      value (player1LastPress a) = true
      /\ value (player2LastPress a) = true /\ d <= GAME_TIMEOUT_MS)
  /\ (verdict a = Some NO_SOUND_KEY <->
      value (player1LastPress a) = false
      \/ value (player2LastPress a) = false
      \/ (GAME_TIMEOUT_MS < d /\ d <> 2 ^ 31))
  /\ (forall a', processGame playPath a = Some a' ->
      gameState a' = PLAYING_SOUND
      /\ player1LastPress a' = player1LastPress a
      /\ player2LastPress a' = player2LastPress a).
Proof.
  intros Hs H1 H2. cbn zeta.
  assert (Heq : processGame playPath a
                = match verdict a with
                  | Some key =>
                      Some (set_gameState PLAYING_SOUND
                              (snd (playAudioByKey playPath key a)))
                  | None => None
                  end).
  { unfold processGame, verdict. rewrite Hs, H1, H2. cbn [andb].
    destruct (negb _ || negb _); [reflexivity |].
    destruct (timeDiff _ _) as [d |]; [| reflexivity].
    destruct (d <=? _); reflexivity. }
  split; [exact Heq |].
  assert (Hgap : GAME_TIMEOUT_MS < 2 ^ 31) by (vm_compute; reflexivity).
  assert (Hkeys : YES_SOUND_KEY <> NO_SOUND_KEY) by discriminate.
  split; [| split; [| split]].
  - unfold verdict. rewrite timeDiff_distance.
    destruct (value (player1LastPress a)), (value (player2LastPress a));
      cbn [negb orb];
      try (split; [discriminate | intros (? & ? & _); discriminate]).
    destruct (_ =? 2 ^ 31) eqn:Hd;
      [apply Z.eqb_eq in Hd | apply Z.eqb_neq in Hd].
    + tauto.
    + split; [discriminate | tauto].
  - unfold verdict. rewrite timeDiff_distance.
    destruct (value (player1LastPress a)), (value (player2LastPress a));
      cbn [negb orb];
      try (split; [intros [= H]; contradiction
                  | intros (? & ? & _); discriminate]).
    destruct (_ =? 2 ^ 31) eqn:Hd;
      [apply Z.eqb_eq in Hd | apply Z.eqb_neq in Hd].
    + split; [discriminate | intros (_ & _ & H); lia].
    + destruct (_ <=? GAME_TIMEOUT_MS) eqn:Hle;
        [apply Z.leb_le in Hle | apply Z.leb_gt in Hle].
      * tauto.
      * split; [intros [= H]; symmetry in H; contradiction
               | intros (_ & _ & H); lia].
  - unfold verdict. rewrite timeDiff_distance.
    destruct (value (player1LastPress a)), (value (player2LastPress a));
      cbn [negb orb]; try tauto.
    destruct (_ =? 2 ^ 31) eqn:Hd;
      [apply Z.eqb_eq in Hd | apply Z.eqb_neq in Hd].
    + split; [discriminate |].
      intros [H | [H | [_ H]]]; [discriminate | discriminate | contradiction].
    + destruct (_ <=? GAME_TIMEOUT_MS) eqn:Hle;
        [apply Z.leb_le in Hle | apply Z.leb_gt in Hle].
      * split; [intros [= H]; contradiction |].
        intros [H | [H | [H _]]]; [discriminate | discriminate | lia].
      * tauto.
  - intros a'. rewrite Heq. destruct (verdict a) as [key |]; [| discriminate].
    intros [= <-].
    destruct (playAudioByKey_game key a) as (G1 & G2 & _).
    simpl. auto.
Qed.

(** X21. The PLAYING_SOUND state. While the playing flag is set,
    [processGame] changes nothing. When the flag is clear it resets the
    game: nobody has pressed, no first press is recorded, the state is
    WAITING_FOR_PLAYERS, manager and player are untouched. When the flag is
    set and the library reports the stream inactive after a copy,
    [processAudioFile] returns false and keeps the copied player, and the
    [processGame] that follows resets the game. Nothing is stated about
    how long a stream stays active. *)
Theorem playing_sound_step (a : App AP) :
  gameState a = PLAYING_SOUND ->
  (isPlayingAudio a = true -> processGame playPath a = Some a)
  /\ (isPlayingAudio a = false ->
      let a' := resetGame a in
      processGame playPath a = Some a'
      /\ gameState a' = WAITING_FOR_PLAYERS
      /\ hasPressed (player1LastPress a') = false
      /\ hasPressed (player2LastPress a') = false
      /\ firstPressTime a' = 0
      /\ manager a' = manager a /\ same_player a a')
  /\ (forall player,
        audioPlayer a = Some player ->
        isPlayingAudio a = true ->
        isActive (copy player) = false ->
        let r := processAudioFile copy isActive player_end a in
        fst r = false
        /\ audioPlayer (snd r) = Some (copy player)
        /\ processGame playPath (snd r) = Some (resetGame (snd r))).
Proof.
  intros Hs. split; [| split].
  - intros Hp. unfold processGame, isAudioPlaying. rewrite Hs, Hp. reflexivity.
  - intros Hp. cbn zeta. unfold processGame, isAudioPlaying.
    rewrite Hs, Hp. cbn [negb]. unfold same_player. simpl. auto 10.
  - intros player Hap Hp Hend. cbn zeta.
    unfold processAudioFile. rewrite Hap, Hp, Hend. cbn [negb fst snd].
    unfold stopAudioPlayback. cbn [audioPlayer set_audioPlayer].
    rewrite Hend. cbn [isPlayingAudio set_audioPlayer]. rewrite Hp.
    cbn [negb]. split; [reflexivity |]. split; [reflexivity |].
    unfold processGame, isAudioPlaying. simpl. rewrite Hs. reflexivity.
Qed.

(** The first press of a round. *)
Lemma buttonPressed_first active pin (a : App AP) :
  gameState a <> PLAYING_SOUND ->
  hasPressed (player1LastPress a) = false ->
  hasPressed (player2LastPress a) = false ->
  pin = getKey PLAYER_1_YES \/ pin = getKey PLAYER_2_YES
  \/ pin = getKey PLAYER_1_NO \/ pin = getKey PLAYER_2_NO ->
  let a' := buttonPressed playPath getKey active pin a in
  firstPressTime a' = millis (manager a)
  /\ xorb (hasPressed (player1LastPress a'))
          (hasPressed (player2LastPress a')) = true
  /\ gameState a' = gameState a
  /\ exists a2,
       a' = snd (playAudioByKey playPath LOCKED_IN_SOUND_KEY a2)
       /\ manager a2 = manager a /\ same_player a a2.
Proof.
  intros Hs H1 H2 Hpin. cbn zeta. unfold buttonPressed.
  rewrite H1, H2. cbn [negb andb].
  set (now := millis (manager a)).
  set (a2 := if getKey PLAYER_1_YES =? pin then _ else _).
  assert (Ha2 : firstPressTime a2 = now
                /\ xorb (hasPressed (player1LastPress a2))
                        (hasPressed (player2LastPress a2)) = true
                /\ gameState a2 = gameState a
                /\ manager a2 = manager a /\ same_player a a2).
  { unfold a2, same_player.
    destruct (getKey PLAYER_1_YES =? pin) eqn:E1;
      [simpl; rewrite H2; auto 10 |].
    destruct (getKey PLAYER_2_YES =? pin) eqn:E2;
      [simpl; rewrite H1; auto 10 |].
    destruct (getKey PLAYER_1_NO =? pin) eqn:E3;
      [simpl; rewrite H2; auto 10 |].
    destruct (getKey PLAYER_2_NO =? pin) eqn:E4;
      [simpl; rewrite H1; auto 10 |].
    apply Z.eqb_neq in E1, E2, E3, E4.
    destruct Hpin as [-> | [-> | [-> | ->]]]; contradiction. }
  destruct Ha2 as (F & X & G & Hm & Hpl).
  assert (Hnb : negb (hasPressed (player1LastPress a2)
                      && hasPressed (player2LastPress a2)) = true).
  { destruct (hasPressed (player1LastPress a2)),
      (hasPressed (player2LastPress a2)); try reflexivity; discriminate. }
  assert (Hres : (match gameState a with
                  | PLAYING_SOUND => a
                  | _ => if negb (hasPressed (player1LastPress a2)
                                  && hasPressed (player2LastPress a2))
                         then snd (playAudioByKey playPath
                                     LOCKED_IN_SOUND_KEY a2)
                         else a2
                  end)
                 = snd (playAudioByKey playPath LOCKED_IN_SOUND_KEY a2)).
  { rewrite Hnb. destruct (gameState a); try reflexivity. contradiction. }
  rewrite Hres.
  destruct (playAudioByKey_game LOCKED_IN_SOUND_KEY a2)
    as (G1 & G2 & G3 & G4).
  rewrite G4, G1, G2, G3. repeat split; try assumption.
  exists a2. auto.
Qed.

(** X22. Button presses. While a sound plays a press changes nothing.
    When somebody has already pressed in the round, a press records an
    answer at most: the first-press time, the manager and the player are
    untouched, so no sound is asked for. The first press of a round by one
    of the four answer keys records the clock reading as first-press time
    and is the only one to ask for the locked-in sound. *)
Theorem press_effects active pin (a : App AP) :
  (gameState a = PLAYING_SOUND -> buttonPressed playPath getKey active pin a = a)
  /\ (gameState a <> PLAYING_SOUND ->
      hasPressed (player1LastPress a) || hasPressed (player2LastPress a) = true ->
      let a' := buttonPressed playPath getKey active pin a in
      firstPressTime a' = firstPressTime a
      /\ manager a' = manager a /\ same_player a a'
      /\ gameState a' = gameState a)
  /\ (gameState a <> PLAYING_SOUND ->
      hasPressed (player1LastPress a) = false ->
      hasPressed (player2LastPress a) = false ->
      pin = getKey PLAYER_1_YES \/ pin = getKey PLAYER_2_YES
      \/ pin = getKey PLAYER_1_NO \/ pin = getKey PLAYER_2_NO ->
      let a' := buttonPressed playPath getKey active pin a in
      firstPressTime a' = millis (manager a)
      /\ xorb (hasPressed (player1LastPress a'))
              (hasPressed (player2LastPress a')) = true
      /\ gameState a' = gameState a
      /\ exists a2,
           a' = snd (playAudioByKey playPath LOCKED_IN_SOUND_KEY a2)
           /\ manager a2 = manager a /\ same_player a a2).
Proof.
  split; [| split].
  - intros Hs. unfold buttonPressed. rewrite Hs. reflexivity.
  - intros Hs Hany. cbn zeta. unfold buttonPressed.
    assert (Hw : negb (hasPressed (player1LastPress a))
                 && negb (hasPressed (player2LastPress a)) = false).
    { destruct (hasPressed (player1LastPress a)),
        (hasPressed (player2LastPress a)); try reflexivity; discriminate. }
    rewrite Hw. cbn [andb]. unfold same_player.
    destruct (gameState a) eqn:Hg; try contradiction;
      repeat (destruct (_ =? pin)); simpl; auto 10.
  - apply buttonPressed_first.
Qed.

(** X23. One answer only. While the other player has not answered, the
    game waits as long as the first press is at most [GAME_TIMEOUT_MS]
    back on the 32-bit clock, and asks for the NO sound and goes to
    PLAYING_SOUND once it is further back. A first press recorded at clock
    reading 0 is taken for no press: such a round never times out,
    whatever the clock shows later. *)
Theorem single_answer_timeout (a : App AP) :
  gameState a = WAITING_FOR_PLAYERS ->
  xorb (hasPressed (player1LastPress a)) (hasPressed (player2LastPress a))
    = true ->
  let elapsed := wrap32 (millis (manager a) - firstPressTime a) in
  (0 < firstPressTime a -> GAME_TIMEOUT_MS < elapsed ->
   processGame playPath a
   = Some (set_gameState PLAYING_SOUND
             (snd (playAudioByKey playPath NO_SOUND_KEY a))))
  /\ (elapsed <= GAME_TIMEOUT_MS -> processGame playPath a = Some a)
  /\ (firstPressTime a = 0 ->
      forall now,
        processGame playPath (set_manager (set_millis now (manager a)) a)
        = Some (set_manager (set_millis now (manager a)) a)).
Proof.
  intros Hs Hx. cbn zeta.
  assert (Hboth : hasPressed (player1LastPress a)
                  && hasPressed (player2LastPress a) = false)
    by (destruct (hasPressed (player1LastPress a)),
          (hasPressed (player2LastPress a)); try reflexivity; discriminate).
  assert (Hany : hasPressed (player1LastPress a)
                 || hasPressed (player2LastPress a) = true)
    by (destruct (hasPressed (player1LastPress a)),
          (hasPressed (player2LastPress a)); try reflexivity; discriminate).
  split; [| split].
  - intros Hf He. unfold processGame. rewrite Hs, Hboth, Hany. cbn [andb].
    rewrite (proj2 (Z.ltb_lt _ _) Hf), (proj2 (Z.ltb_lt _ _) He). reflexivity.
  - intros He. unfold processGame. rewrite Hs, Hboth, Hany. cbn [andb].
    rewrite (proj2 (Z.ltb_ge _ _) He). destruct (0 <? _); reflexivity.
  - intros Hf now. unfold processGame. simpl. rewrite Hs, Hboth, Hany, Hf.
    reflexivity.
Qed.

End PlayerProperties.

(** ** The sample game *)

Lemma playAudioByKey_starts_witness :
  let r := playAudioByKey deck_playPath YES_SOUND_KEY app_fresh in
  fst r = true
  /\ audioPlayer (snd r)
     = Some {| deck_track := Some "/sounds/yes.mp3"; deck_frames := 2 |}
  /\ isPlayingAudio (snd r) = true.
Proof.
  destruct (playAudioByKey_starts deck_playPath YES_SOUND_KEY app_fresh)
    as (H1 & H2 & _).
  assert (Ht : fst (playAudioByKey deck_playPath YES_SOUND_KEY app_fresh)
               = true).
  { apply H1. repeat split; try reflexivity; eexists; reflexivity. }
  destruct (H2 {| deck_track := None; deck_frames := 0 |} "/sounds/yes.mp3" Ht)
    as (G1 & G2 & _); [reflexivity | reflexivity |].
  cbn zeta. auto.
Defined.

Lemma both_answered_verdict_witness :
  clock_distance 4294967000 500 = 796
  /\ verdict app_both_yes = Some YES_SOUND_KEY
  /\ processGame deck_playPath app_both_yes = Some app_yes_playing
  /\ audioPlayer app_yes_playing
     = Some {| deck_track := Some "/sounds/yes.mp3"; deck_frames := 2 |}.
Proof.
  destruct (both_answered_verdict deck_playPath app_both_yes)
    as (H1 & _ & H3 & _); [reflexivity | reflexivity | reflexivity |].
  cbn zeta in H3. split; [reflexivity |].
  assert (Hv : verdict app_both_yes = Some YES_SOUND_KEY).
  { apply H3. repeat split; try reflexivity. vm_compute. discriminate. }
  split; [exact Hv |]. split; [| reflexivity].
  rewrite H1, Hv. reflexivity.
Defined.

(** Two yes answers half the clock circle apart: the step has no defined
    result. *)
Example half_circle_undefined :
  clock_distance 2147484148 500 = 2 ^ 31
  /\ timeDiff 2147484148 500 = None
  /\ verdict app_half_circle = None
  /\ processGame deck_playPath app_half_circle = None.
Proof. repeat split; vm_compute; reflexivity. Qed.

(** One millisecond less and the answer is the NO sound. *)
Example half_circle_less_one :
  timeDiff 2147484147 500 = Some 2147483647
  /\ timeDiff 500 2147484147 = Some 2147483647.
Proof. split; vm_compute; reflexivity. Qed.

Lemma playing_sound_step_witness :
  let a2 := snd (processAudioFile deck_copy deck_isActive deck_end
                   app_yes_playing) in
  let a3 := snd (processAudioFile deck_copy deck_isActive deck_end a2) in
  isPlayingAudio a2 = true
  /\ processGame deck_playPath a2 = Some a2
  /\ isPlayingAudio a3 = false
  /\ processGame deck_playPath a3 = Some (resetGame a3)
  /\ gameState (resetGame a3) = WAITING_FOR_PLAYERS
  /\ hasPressed (player1LastPress (resetGame a3)) = false.
Proof.
  cbn zeta.
  set (a2 := snd (processAudioFile deck_copy deck_isActive deck_end
                    app_yes_playing)).
  set (a3 := snd (processAudioFile deck_copy deck_isActive deck_end a2)).
  destruct (playing_sound_step deck_playPath deck_copy deck_isActive deck_end
              a2) as (H1 & _); [reflexivity |].
  destruct (playing_sound_step deck_playPath deck_copy deck_isActive deck_end
              a3) as (_ & H2 & _); [reflexivity |].
  destruct (H2 eq_refl) as (G0 & G1 & G2 & _).
  split; [reflexivity |]. split; [apply H1; reflexivity |].
  split; [reflexivity |]. split; [exact G0 |]. split; [exact G1 | exact G2].
Defined.

Lemma press_effects_witness :
  let a1 := buttonPressed deck_playPath board_getKey true 31 app_fresh in
  let a2 := buttonPressed deck_playPath board_getKey true 34 a1 in
  firstPressTime a1 = 5000
  /\ audioPlayer a1
     = Some {| deck_track := Some "/sounds/locked.mp3"; deck_frames := 2 |}
  /\ firstPressTime a2 = 5000
  /\ audioPlayer a2 = audioPlayer a1
  /\ player2LastPress a2
     = {| timestamp := 5000; value := false; hasPressed := true |}.
Proof.
  cbn zeta.
  set (a1 := buttonPressed deck_playPath board_getKey true 31 app_fresh).
  destruct (press_effects deck_playPath board_getKey true 31 app_fresh)
    as (_ & _ & H1).
  destruct H1 as (F1 & _); [discriminate | reflexivity | reflexivity
                           | left; reflexivity |].
  destruct (press_effects deck_playPath board_getKey true 34 a1)
    as (_ & H2 & _).
  destruct H2 as (F2 & _ & (P1 & _) & _); [discriminate | reflexivity |].
  split; [exact F1 |]. split; [reflexivity |].
  split; [rewrite F2; exact F1 |]. split; [exact P1 | reflexivity].
Defined.

Lemma single_answer_timeout_witness :
  processGame deck_playPath app_one_late
  = Some (set_gameState PLAYING_SOUND
            (snd (playAudioByKey deck_playPath NO_SOUND_KEY app_one_late)))
  /\ audioPlayer (snd (playAudioByKey deck_playPath NO_SOUND_KEY app_one_late))
     = Some {| deck_track := Some "/sounds/no.mp3"; deck_frames := 2 |}.
Proof.
  destruct (single_answer_timeout deck_playPath app_one_late)
    as (H1 & _); [reflexivity | reflexivity |].
  cbn zeta in H1.
  assert (H := H1 ltac:(reflexivity) ltac:(reflexivity)).
  split; [exact H |]. reflexivity.
Defined.

(** * The log buffer *)

From Stdlib Require Import ZifyNat.

Ltac nat_mod := zify; Z.div_mod_to_equations; lia.

Lemma log_order_length l : length (log_order l) = logCount l.
Proof. unfold log_order. rewrite length_map, length_seq. reflexivity. Qed.

Lemma log_order_lookup l i :
  (i < logCount l)%nat ->
  log_order l !! i
  = Some (logBuffer l
          !!! (((if bool_decide (logCount l < LOG_BUFFER_SIZE)%nat then 0
                 else logIndex l) + logCount l - 1 - i)
               mod LOG_BUFFER_SIZE)%nat).
Proof.
  intros Hi. unfold log_order. cbn zeta.
  change (map ?f ?l) with (f <$> l).
  rewrite list_lookup_fmap, lookup_seq_lt by exact Hi. reflexivity.
Qed.

(** One message more in a ring. *)
Lemma ring_add m l :
  ring_ok l ->
  ring_ok (addMessageToBuffer m l)
  /\ log_order (addMessageToBuffer m l)
     = take LOG_BUFFER_SIZE (m :: log_order l).
Proof.
  intros (Hlen & Hidx & Hcnt & Hfill & Hpos).
  assert (Hc' : logCount (addMessageToBuffer m l)
                = if bool_decide (logCount l < LOG_BUFFER_SIZE)%nat
                  then S (logCount l) else logCount l) by reflexivity.
  assert (Hi' : logIndex (addMessageToBuffer m l)
                = ((logIndex l + 1) mod LOG_BUFFER_SIZE)%nat) by reflexivity.
  assert (Hb' : logBuffer (addMessageToBuffer m l)
                = <[logIndex l := m]> (logBuffer l)) by reflexivity.
  split.
  - unfold ring_ok. rewrite Hc', Hi', Hb', length_insert.
    change (bufferPos (addMessageToBuffer m l)) with (bufferPos l).
    unfold LOG_BUFFER_SIZE in *.
    repeat split; try assumption; case_bool_decide; try nat_mod.
    all: intros; specialize (Hfill ltac:(lia)); nat_mod.
  - apply list_eq. intros i.
    destruct (decide (i < logCount (addMessageToBuffer m l))%nat) as [Hi | Hi].
    + rewrite (log_order_lookup _ i Hi). rewrite Hc', Hi', Hb'.
      rewrite lookup_take_lt
        by (rewrite Hc' in Hi; unfold LOG_BUFFER_SIZE in *;
            case_bool_decide; lia).
      destruct i as [| i].
      * cbn [lookup list_lookup]. f_equal.
        replace ((_ + _ - 1 - 0) mod LOG_BUFFER_SIZE)%nat with (logIndex l).
        -- apply list_lookup_total_insert_eq. lia.
        -- unfold LOG_BUFFER_SIZE in *. rewrite Hc' in Hi.
           repeat case_bool_decide; try specialize (Hfill ltac:(lia));
             nat_mod.
      * change ((m :: log_order l) !! S i) with (log_order l !! i).
        assert (Hlt : (i < logCount l)%nat).
        { rewrite Hc' in Hi. unfold LOG_BUFFER_SIZE in *.
          case_bool_decide; lia. }
        rewrite (log_order_lookup l i Hlt). f_equal.
        rewrite list_lookup_total_insert_ne.
        -- f_equal. unfold LOG_BUFFER_SIZE in *. rewrite Hc' in Hi.
           repeat case_bool_decide; try specialize (Hfill ltac:(lia));
             nat_mod.
        -- unfold LOG_BUFFER_SIZE in *. rewrite Hc' in Hi.
           repeat case_bool_decide; try specialize (Hfill ltac:(lia));
             nat_mod.
    + rewrite lookup_ge_None_2 by (rewrite log_order_length; lia).
      symmetry. apply lookup_ge_None_2.
      rewrite length_take. cbn [length]. rewrite log_order_length.
      rewrite Hc' in Hi. unfold LOG_BUFFER_SIZE in *.
      case_bool_decide; lia.
Qed.

Lemma take_app_take {A} n (k l : list A) :
  take n (k ++ take n l) = take n (k ++ l).
Proof.
  rewrite !take_app, take_take. f_equal. f_equal. lia.
Qed.

Lemma ring_add_all ms :
  forall l,
    ring_ok l ->
    let l' := fold_left (fun l m => addMessageToBuffer m l) ms l in
    ring_ok l'
    /\ log_order l' = take LOG_BUFFER_SIZE (rev ms ++ log_order l)
    /\ logCount l' = Nat.min (length ms + logCount l) LOG_BUFFER_SIZE.
Proof.
  induction ms as [| m ms IH]; intros l Hok; cbn zeta.
  - cbn [fold_left rev app length]. split; [exact Hok |].
    destruct Hok as (_ & _ & Hc & _). split; [| lia].
    rewrite take_ge by (rewrite log_order_length; exact Hc). reflexivity.
  - cbn [fold_left]. destruct (ring_add m l Hok) as [Hok1 Ho1].
    destruct (IH _ Hok1) as (Hok' & Ho' & Hc'). cbn zeta in *.
    split; [exact Hok' |]. split.
    + rewrite Ho', Ho1, take_app_take. cbn [rev]. rewrite <- app_assoc.
      reflexivity.
    + rewrite Hc'. destruct Hok as (_ & _ & Hc & _).
      change (logCount (addMessageToBuffer m l))
        with (if bool_decide (logCount l < LOG_BUFFER_SIZE)%nat
              then S (logCount l) else logCount l).
      cbn [length]. unfold LOG_BUFFER_SIZE in *. case_bool_decide; lia.
Qed.

Lemma ring_ok_clearLogs l :
  length (logBuffer l) = LOG_BUFFER_SIZE ->
  ring_ok (clearLogs l) /\ log_order (clearLogs l) = [].
Proof.
  intros Hl. split; [| reflexivity]. unfold ring_ok, clearLogs, bufferPos.
  simpl. unfold LOG_BUFFER_SIZE, MAX_LOG_MESSAGE_LENGTH in *.
  repeat split; try lia; try exact Hl.
Qed.

(** X24. The ring of messages. After any number of messages the listing
    of [getLogsAsHtml] and [getLogsAsJson] is, newest first, the last
    [LOG_BUFFER_SIZE] of them followed by (what is left of) the older
    listing, and the count is the number of messages capped at
    [LOG_BUFFER_SIZE]. After [clearLogs] the listing is empty and only
    messages added since appear. *)
Theorem log_ring_newest_first ms l :
  ring_ok l ->
  let add := fold_left (fun l m => addMessageToBuffer m l) ms in
  log_order (add l) = take LOG_BUFFER_SIZE (rev ms ++ log_order l)
  /\ getLogCount (add l) = Nat.min (length ms + getLogCount l) LOG_BUFFER_SIZE
  /\ log_order (clearLogs l) = []
  /\ log_order (add (clearLogs l)) = take LOG_BUFFER_SIZE (rev ms).
Proof.
  intros Hok. cbn zeta.
  destruct (ring_add_all ms l Hok) as (_ & H1 & H2). cbn zeta in *.
  split; [exact H1 |]. split; [exact H2 |].
  destruct Hok as (Hl & _).
  destruct (ring_ok_clearLogs l Hl) as [Hokc Hc].
  split; [exact Hc |].
  destruct (ring_add_all ms _ Hokc) as (_ & H3 & _). cbn zeta in H3.
  rewrite H3, Hc, app_nil_r. reflexivity.
Qed.

Lemma ring_ok_new now : ring_ok (Logger_new now).
Proof.
  unfold ring_ok, bufferPos, Logger_new.
  cbn [logBuffer logIndex logCount messageBuffer strlen String.length].
  rewrite length_replicate.
  unfold LOG_BUFFER_SIZE, MAX_LOG_MESSAGE_LENGTH. repeat split; lia.
Qed.

Lemma log_ring_newest_first_witness :
  log_order logger_wrapped = rev (map dec (seq 151 100))
  /\ getLogCount logger_wrapped = 100%nat
  /\ log_order logger_wrapped !! 0%nat = Some "250".
Proof.
  destruct (log_ring_newest_first (numbered 250) (Logger_new 0)
              (ring_ok_new 0)) as (H1 & H2 & _).
  cbn zeta in *. fold logger_wrapped in H1, H2.
  split; [rewrite H1; vm_compute; reflexivity |].
  split; [rewrite H2; reflexivity |].
  rewrite H1. vm_compute. reflexivity.
Defined.

(** ** Writing *)

(** The loop of the block write runs the buffering half of the byte
    write. *)
Lemma write_loop_cons byte rest l :
  write_loop (String byte rest) l = write_loop rest (buffer_byte byte l).
Proof. reflexivity. Qed.

Lemma buffer_byte_serial byte v l :
  buffer_byte byte (set_serialPrint v l)
  = set_serialPrint v (buffer_byte byte l).
Proof.
  unfold buffer_byte, bufferPos.
  cbn [messageBuffer set_serialPrint].
  case_bool_decide; [| reflexivity].
  destruct (is_newline byte); [| reflexivity].
  cbn [messageBuffer set_messageBuffer]. case_bool_decide; reflexivity.
Qed.

Lemma write_loop_serial buffer :
  forall v l,
    write_loop buffer (set_serialPrint v l)
    = set_serialPrint v (write_loop buffer l).
Proof.
  induction buffer as [| byte rest IH]; intros v l; [reflexivity |].
  rewrite !write_loop_cons, buffer_byte_serial. apply IH.
Qed.

Lemma serialPrint_buffer_byte byte l :
  serialPrint (buffer_byte byte l) = serialPrint l.
Proof.
  unfold buffer_byte. case_bool_decide; [| reflexivity].
  destruct (is_newline byte); [| reflexivity].
  cbn [serialPrint set_messageBuffer]. case_bool_decide; reflexivity.
Qed.

Lemma set_serialPrint_twice v w l :
  set_serialPrint v (set_serialPrint w l) = set_serialPrint v l.
Proof. reflexivity. Qed.

Lemma set_serialPrint_same l : set_serialPrint (serialPrint l) l = l.
Proof. destruct l; reflexivity. Qed.

(** X25. A block write leaves the logger exactly as the same bytes
    written one after the other do: same serial output, same message
    buffer, same ring. It answers the number of bytes when a serial object
    is attached and 0 otherwise. *)
Theorem write_block_bytewise buffer l :
  snd (write_block buffer l) = write_each buffer l
  /\ fst (write_block buffer l)
     = match serialPrint l with Some _ => strlen buffer | None => 0%nat end
  /\ serialPrint (write_each buffer l)
     = (fun sent => sent +:+ buffer) <$> serialPrint l.
Proof.
  split; [| split].
  - revert l. induction buffer as [| byte rest IH]; intros l.
    + unfold write_block. cbn [write_each write_loop].
      destruct (serialPrint l) as [sent |] eqn:Hs; cbn [snd];
        [| reflexivity].
      rewrite append_nil_r, <- Hs. apply set_serialPrint_same.
    + cbn [write_each]. rewrite <- IH. unfold write_block, write.
      destruct (serialPrint l) as [sent |] eqn:Hs; cbn [snd].
      * rewrite serialPrint_buffer_byte. cbn [serialPrint set_serialPrint].
        rewrite write_loop_cons, !buffer_byte_serial, !write_loop_serial.
        rewrite set_serialPrint_twice, <- append_assoc. reflexivity.
      * rewrite serialPrint_buffer_byte, Hs. cbn [snd]. reflexivity.
  - unfold write_block. destruct (serialPrint l); reflexivity.
  - revert l. induction buffer as [| byte rest IH]; intros l.
    + cbn [write_each]. destruct (serialPrint l); cbn;
        [rewrite append_nil_r |]; reflexivity.
    + cbn [write_each]. rewrite IH. unfold write.
      destruct (serialPrint l) as [sent |] eqn:Hs; cbn [snd];
        rewrite serialPrint_buffer_byte; cbn [serialPrint set_serialPrint];
        [| rewrite Hs; reflexivity].
      cbn. rewrite <- append_assoc. reflexivity.
Qed.

Lemma strtake_app_exact s t : strtake (strlen s) (s +:+ t) = s.
Proof.
  induction s as [| c r IH]; [destruct t; reflexivity |].
  change (strtake (S (strlen r)) (String c (r +:+ t)) = String c r).
  rewrite strtake_cons, IH. reflexivity.
Qed.

(** Bytes that end no line pile up in the message buffer. *)
Lemma write_loop_text text :
  forall l,
    one_line text = true ->
    (bufferPos l + strlen text < MAX_LOG_MESSAGE_LENGTH)%nat ->
    write_loop text l = set_messageBuffer (messageBuffer l +:+ text) l.
Proof.
  induction text as [| c r IH]; intros l Hone Hfit.
  - cbn [write_loop]. rewrite append_nil_r. destruct l; reflexivity.
  - rewrite write_loop_cons. cbn [one_line] in Hone.
    apply andb_true_iff in Hone as [Hc Hr]. apply negb_true_iff in Hc.
    change (strlen (String c r)) with (S (strlen r)) in Hfit.
    unfold buffer_byte. unfold MAX_LOG_MESSAGE_LENGTH in *.
    rewrite bool_decide_eq_true_2 by lia. cbn zeta. rewrite Hc.
    rewrite IH; [| exact Hr |].
    + cbn [messageBuffer set_messageBuffer]. rewrite <- append_assoc.
      reflexivity.
    + unfold bufferPos. cbn [messageBuffer set_messageBuffer].
      rewrite strlen_app. change (strlen (String c "")) with 1%nat.
      unfold bufferPos in Hfit. lia.
Qed.

(** X26. One line, one message. A text without line ends of 1 to 254
    bytes, written in one block with its newline into an empty message
    buffer, adds exactly one message to the ring: the clock reading in
    decimal, [ms: ], and the text up to its first NUL. The message buffer
    is empty again afterwards. A newline on its own adds nothing. *)
Theorem write_line text l :
  ring_ok l ->
  messageBuffer l = "" ->
  one_line text = true ->
  (strlen text < MAX_LOG_MESSAGE_LENGTH - 1)%nat ->
  let l' := snd (write_block (text +:+ String "010" "") l) in
  messageBuffer l' = ""
  /\ serialPrint l'
     = (fun sent => sent +:+ text +:+ String "010" "") <$> serialPrint l
  /\ log_order l'
     = if bool_decide (text = "") then log_order l
       else take LOG_BUFFER_SIZE
              ((print_ulong (log_millis l) +:+ "ms: " +:+ c_str text)
               :: log_order l).
Proof.
  intros Hok Hb Hone Hlen. cbn zeta.
  assert (Hloop : forall l0,
            messageBuffer l0 = "" ->
            write_loop (text +:+ String "010" "") l0
            = set_messageBuffer ""
                (if bool_decide (text = "") then l0
                 else addMessageToBuffer
                        (timestamped (log_millis l0) text)
                        (set_messageBuffer (text +:+ String "010" "") l0))).
  { intros l0 Hb0.
    assert (Happ : forall (s t : string) l1,
              write_loop (s +:+ t) l1 = write_loop t (write_loop s l1)).
    { induction s as [| c r IHs]; intros t l1; [reflexivity |].
      change (String c r +:+ t) with (String c (r +:+ t)).
      rewrite !write_loop_cons. apply IHs. }
    rewrite Happ.
    rewrite (write_loop_text text l0);
      [| exact Hone
       | unfold bufferPos; rewrite Hb0; unfold MAX_LOG_MESSAGE_LENGTH in *;
         cbn [strlen String.length]; lia].
    rewrite Hb0. change ("" +:+ text) with text.
    rewrite write_loop_cons. cbn [write_loop].
    unfold buffer_byte, bufferPos. cbn [messageBuffer set_messageBuffer].
    unfold MAX_LOG_MESSAGE_LENGTH in *.
    rewrite bool_decide_eq_true_2 by lia. cbn zeta.
    change (is_newline "010") with true. cbn iota.
    rewrite strlen_app. change (strlen (String "010" "")) with 1%nat.
    replace (strlen text + 1 - 1)%nat with (strlen text) by lia.
    rewrite strtake_app_exact.
    destruct text as [| c r].
    - rewrite bool_decide_eq_false_2 by (cbn; lia).
      rewrite bool_decide_eq_true_2 by reflexivity. reflexivity.
    - rewrite bool_decide_eq_true_2
        by (change (strlen (String c r)) with (S (strlen r)); lia).
      rewrite bool_decide_eq_false_2 by discriminate. reflexivity. }
  unfold write_block.
  destruct (serialPrint l) as [sent |] eqn:Hs; cbn [snd fmap option_fmap
    option_map].
  - rewrite write_loop_serial, Hloop by exact Hb.
    split; [reflexivity |].
    split; [cbn [serialPrint set_serialPrint]; rewrite append_assoc;
            reflexivity |].
    case_bool_decide; [reflexivity |].
    destruct (ring_add (timestamped (log_millis l) text)
                (set_messageBuffer (text +:+ String "010" "") l))
      as [_ Hadd].
    + destruct Hok as (H1 & H2 & H3 & H4 & H5). unfold ring_ok, bufferPos.
      cbn [logBuffer logIndex logCount messageBuffer set_messageBuffer].
      rewrite strlen_app. change (strlen (String "010" "")) with 1%nat.
      unfold MAX_LOG_MESSAGE_LENGTH in *. repeat split; try assumption. lia.
    + exact Hadd.
  - rewrite Hloop by exact Hb. split; [reflexivity |].
    split; [cbn [serialPrint set_messageBuffer];
            case_bool_decide; [exact Hs | exact Hs] |].
    case_bool_decide; [reflexivity |].
    destruct (ring_add (timestamped (log_millis l) text)
                (set_messageBuffer (text +:+ String "010" "") l))
      as [_ Hadd].
    + destruct Hok as (H1 & H2 & H3 & H4 & H5). unfold ring_ok, bufferPos.
      cbn [logBuffer logIndex logCount messageBuffer set_messageBuffer].
      rewrite strlen_app. change (strlen (String "010" "")) with 1%nat.
      unfold MAX_LOG_MESSAGE_LENGTH in *. repeat split; try assumption. lia.
    + exact Hadd.
Qed.

Lemma write_line_witness :
  let l' := snd (write_block ("Game reset" +:+ String "010" "")
                   logger_serial) in
  log_order l' = ["1234ms: Game reset"]
  /\ messageBuffer l' = ""
  /\ serialPrint l' = Some ("Game reset" +:+ String "010" "").
Proof.
  destruct (write_line "Game reset" logger_serial) as (H1 & H2 & H3).
  - apply ring_ok_new.
  - reflexivity.
  - reflexivity.
  - vm_compute. lia.
  - cbn zeta. split; [rewrite H3; reflexivity |].
    split; [exact H1 | rewrite H2; reflexivity].
Defined.

Lemma ring_ok_fields l l' :
  logBuffer l' = logBuffer l -> logIndex l' = logIndex l ->
  logCount l' = logCount l ->
  (bufferPos l' < MAX_LOG_MESSAGE_LENGTH)%nat ->
  ring_ok l -> ring_ok l'.
Proof.
  unfold ring_ok. intros -> -> -> Hp (H1 & H2 & H3 & H4 & _). auto.
Qed.

Lemma ring_ok_buffer_byte byte l : ring_ok l -> ring_ok (buffer_byte byte l).
Proof.
  intros Hok. pose proof Hok as (H1 & H2 & H3 & H4 & H5).
  unfold buffer_byte. case_bool_decide as Hroom.
  - cbn zeta.
    assert (Hok1 : ring_ok (set_messageBuffer
                              (messageBuffer l +:+ String byte "") l)).
    { revert Hok. apply ring_ok_fields; try reflexivity.
      unfold bufferPos in *. cbn [messageBuffer set_messageBuffer].
      rewrite strlen_app. change (strlen (String byte "")) with 1%nat.
      unfold MAX_LOG_MESSAGE_LENGTH in *. lia. }
    destruct (is_newline byte); [| exact Hok1].
    case_bool_decide.
    + destruct (ring_add (timestamped (log_millis
                            (set_messageBuffer
                               (messageBuffer l +:+ String byte "") l))
                            (strtake
                               (bufferPos
                                  (set_messageBuffer
                                     (messageBuffer l +:+ String byte "") l)
                                - 1)
                               (messageBuffer
                                  (set_messageBuffer
                                     (messageBuffer l +:+ String byte "") l))))
                  _ Hok1) as [Hok2 _].
      revert Hok2. apply ring_ok_fields; try reflexivity.
      unfold bufferPos, MAX_LOG_MESSAGE_LENGTH. cbn. lia.
    + revert Hok1. apply ring_ok_fields; try reflexivity.
      unfold bufferPos, MAX_LOG_MESSAGE_LENGTH. cbn. lia.
  - destruct (ring_add (timestamped (log_millis l) (messageBuffer l)) l Hok)
      as [Hok2 _].
    revert Hok2. apply ring_ok_fields; try reflexivity.
    unfold bufferPos, MAX_LOG_MESSAGE_LENGTH. cbn. lia.
Qed.

Lemma ring_ok_write_loop buffer :
  forall l, ring_ok l -> ring_ok (write_loop buffer l).
Proof.
  induction buffer as [| byte rest IH]; intros l Hok; [exact Hok |].
  rewrite write_loop_cons. apply IH, ring_ok_buffer_byte, Hok.
Qed.

Lemma ring_ok_serial v l : ring_ok l -> ring_ok (set_serialPrint v l).
Proof.
  intros Hok. apply (ring_ok_fields l); try reflexivity; [apply Hok | exact Hok].
Qed.

Lemma ring_ok_run c l : ring_ok l -> ring_ok (log_run c l).
Proof.
  intros Hok. destruct c; cbn [log_run].
  - apply ring_ok_serial, Hok.
  - unfold write. destruct (serialPrint l); cbn [snd];
      apply ring_ok_buffer_byte; [apply ring_ok_serial |]; exact Hok.
  - unfold write_block. destruct (serialPrint l); cbn [snd];
      apply ring_ok_write_loop; [apply ring_ok_serial |]; exact Hok.
  - apply ring_ok_clearLogs. apply Hok.
  - apply (ring_ok_fields l); try reflexivity; [apply Hok | exact Hok].
Qed.

(** X27. Whatever is written to a logger and whenever it is cleared, from
    its construction on: the write position stays below
    [MAX_LOG_MESSAGE_LENGTH] (the NUL kept after the message fits the
    array), the ring index stays below [LOG_BUFFER_SIZE], and the listing
    holds as many messages as [getLogCount] says, at most
    [LOG_BUFFER_SIZE]. *)
Theorem logger_invariant now calls :
  let l := fold_left (fun l c => log_run c l) calls (Logger_new now) in
  (bufferPos l < MAX_LOG_MESSAGE_LENGTH)%nat
  /\ (logIndex l < LOG_BUFFER_SIZE)%nat
  /\ length (logBuffer l) = LOG_BUFFER_SIZE
  /\ length (log_order l) = getLogCount l
  /\ (getLogCount l <= LOG_BUFFER_SIZE)%nat.
Proof.
  cbn zeta.
  assert (Hok : forall l0, ring_ok l0 ->
                  ring_ok (fold_left (fun l c => log_run c l) calls l0)).
  { induction calls as [| c cs IH]; intros l0 H0; [exact H0 |].
    cbn [fold_left]. apply IH, ring_ok_run, H0. }
  destruct (Hok _ (ring_ok_new now)) as (H1 & H2 & H3 & _ & H5).
  rewrite log_order_length. auto.
Qed.


(** * The WiFi loop *)

(** A loop that finds the connection up and already announced. *)
Lemma handleWiFiLoop_connected w :
  isConfigMode w = false -> radio_mode w = WIFI_STA ->
  radio_connected w = true -> connectionLogged w = true ->
  handleWiFiLoop w = if otaStarted w then emit ev_ota_handle w else w.
Proof.
  intros Hc Hm Hr Hl. unfold handleWiFiLoop.
  rewrite Hc, Hm, Hr, Hl. cbn [andb negb orb]. rewrite Hr. cbn [orb].
  rewrite andb_true_r. reflexivity.
Qed.

(** The loop that finds the connection up for the first time. *)
Lemma handleWiFiLoop_connects w :
  isConfigMode w = false -> radio_mode w = WIFI_STA ->
  radio_connected w = true -> connectionLogged w = false ->
  let w' := handleWiFiLoop w in
  wifi_events w'
  = wifi_events w
    ++ (if wifiConnectedCallback w then [ev_connected_callback] else [])
    ++ (if otaStarted w then [] else [ev_ota_begin])
    ++ [ev_ota_handle]
  /\ connectionLogged w' = true /\ otaStarted w' = true
  /\ isConfigMode w' = false /\ radio_mode w' = WIFI_STA
  /\ radio_connected w' = true
  /\ wifiConnectedCallback w' = wifiConnectedCallback w
  /\ connectionStartTime w' = connectionStartTime w.
Proof.
  intros Hc Hm Hr Hl. cbn zeta. unfold handleWiFiLoop.
  rewrite Hc, Hm, Hr, Hl. cbn [andb negb].
  destruct (wifiConnectedCallback w) eqn:Hcb, (otaStarted w) eqn:Ho;
    do 3 (simpl; rewrite ?Ho, ?Hr, ?Hc, ?Hm, ?Hcb); simpl;
    rewrite <- ?app_assoc; auto 10.
Qed.

(** X29. While the radio stays connected in station mode, the connected
    callback is called once, by the first loop that sees the connection,
    and never again: the trace of any number of loops is the callback (if
    one is set), the start of OTA (if it was not running), and one OTA
    poll per loop. *)
Theorem connected_callback_once clocks w :
  isConfigMode w = false -> radio_mode w = WIFI_STA ->
  connectionLogged w = false ->
  clocks <> [] ->
  let w' := wifi_loops (map (fun now => (true, now)) clocks) w in
  wifi_events w'
  = wifi_events w
    ++ (if wifiConnectedCallback w then [ev_connected_callback] else [])
    ++ (if otaStarted w then [] else [ev_ota_begin])
    ++ replicate (length clocks) ev_ota_handle
  /\ connectionLogged w' = true /\ otaStarted w' = true.
Proof.
  intros Hc Hm Hl Hne. destruct clocks as [| now rest]; [contradiction |].
  cbn zeta. unfold wifi_loops. cbn [map fold_left fst snd].
  set (w0 := radio_step true now w).
  destruct (handleWiFiLoop_connects w0) as (He & H1 & H2 & H3 & H4 & H5 & _);
    try reflexivity; try assumption.
  cbn zeta in *.
  change (wifi_events w0) with (wifi_events w) in He.
  change (wifiConnectedCallback w0) with (wifiConnectedCallback w) in He.
  change (otaStarted w0) with (otaStarted w) in He.
  set (w1 := handleWiFiLoop w0) in *. clearbody w1. clear w0.
  assert (Hrest : forall rest w1,
            connectionLogged w1 = true -> otaStarted w1 = true ->
            isConfigMode w1 = false -> radio_mode w1 = WIFI_STA ->
            let w' := fold_left
                        (fun w r => handleWiFiLoop
                                      (radio_step (fst r) (snd r) w))
                        (map (fun now => (true, now)) rest) w1 in
            wifi_events w'
            = wifi_events w1 ++ replicate (length rest) ev_ota_handle
            /\ connectionLogged w' = true /\ otaStarted w' = true).
  { clear. induction rest as [| t rest IH]; intros w1 G1 G2 G3 G4; cbn zeta.
    - cbn. rewrite app_nil_r. auto.
    - cbn [map fold_left fst snd length replicate].
      rewrite (handleWiFiLoop_connected (radio_step true t w1))
        by (try reflexivity; assumption).
      change (otaStarted (radio_step true t w1)) with (otaStarted w1).
      rewrite G2.
      destruct (IH (emit ev_ota_handle (radio_step true t w1)))
        as (E & L & O); try assumption.
      cbn zeta in *. rewrite E. split; [| auto].
      cbn [wifi_events emit radio_step set_radio_millis set_radio].
      rewrite <- app_assoc. reflexivity. }
  destruct (Hrest rest w1 H1 H2 H3 H4) as (E & L & O). cbn zeta in *.
  rewrite E, He. split; [| auto].
  rewrite <- !app_assoc. reflexivity.
Qed.

Lemma same_link_refl w : same_link w w.
Proof. unfold same_link. auto. Qed.

Lemma same_link_trans w1 w2 w3 :
  same_link w1 w2 -> same_link w2 w3 -> same_link w1 w3.
Proof.
  unfold same_link. intros (A1 & A2 & A3 & A4 & A5) (B1 & B2 & B3 & B4 & B5).
  repeat split; congruence.
Qed.

Lemma mode_AP_loop_spec left :
  forall w,
    let r := mode_AP_loop left w in
    same_link w (snd r)
    /\ isConfigMode (snd r) = isConfigMode w
    /\ radio_connected (snd r) = radio_connected w
    /\ wifi_events (snd r) = wifi_events w
    /\ radio_mode (snd r) = (if fst r then WIFI_AP else radio_mode w).
Proof.
  induction left as [| left IH]; intros w; cbn zeta.
  - cbn. unfold same_link. auto 10.
  - cbn [mode_AP_loop]. destruct (mode_AP_answers w) as [| [|] answers].
    + specialize (IH (delay 1000 w)). cbn zeta in IH. exact IH.
    + cbn. unfold same_link. auto 10.
    + specialize (IH (delay 1000 (set_answers answers (softAP_answers w) w))).
      cbn zeta in IH. exact IH.
Qed.

Lemma softAP_loop_spec left :
  forall w,
    let r := softAP_loop left w in
    same_link w (snd r)
    /\ isConfigMode (snd r) = (if fst r then true else isConfigMode w)
    /\ radio_connected (snd r) = radio_connected w
    /\ wifi_events (snd r) = wifi_events w
    /\ radio_mode (snd r) = radio_mode w.
Proof.
  induction left as [| left IH]; intros w; cbn zeta.
  - cbn. unfold same_link. auto 10.
  - cbn [softAP_loop]. destruct (softAP_answers w) as [| [|] answers].
    + specialize (IH (delay 1000 w)). cbn zeta in IH. exact IH.
    + cbn. unfold same_link. auto 10.
    + specialize (IH (delay 1000 (set_answers (mode_AP_answers w) answers w))).
      cbn zeta in IH. exact IH.
Qed.

(** A start of the portal. *)
Lemma startConfigPortalSafe_spec w :
  let r := startConfigPortalSafe w in
  same_link w (snd r)
  /\ isConfigMode (snd r) = (if fst r then true else isConfigMode w)
  /\ radio_connected (snd r) = false
  /\ radio_mode (snd r) <> WIFI_STA
  /\ wifi_events (snd r)
     = wifi_events w ++ (if fst r then [ev_server_begin] else []).
Proof.
  cbn zeta. unfold startConfigPortalSafe.
  set (w1 := delay 2000 (set_radio WIFI_OFF false w)).
  pose proof (mode_AP_loop_spec 3 w1) as H1. cbn zeta in H1.
  destruct (mode_AP_loop 3 w1) as [mode_ok w2]. cbn [fst snd] in H1.
  destruct H1 as (L1 & C1 & R1 & E1 & M1).
  destruct mode_ok; cbn [negb].
  - pose proof (softAP_loop_spec 3 (delay 1000 w2)) as H2. cbn zeta in H2.
    destruct (softAP_loop 3 (delay 1000 w2)) as [ap_ok w3].
    cbn [fst snd] in H2. destruct H2 as (L2 & C2 & R2 & E2 & M2).
    assert (L : same_link w w3).
    { eapply same_link_trans; [| exact L2].
      eapply same_link_trans; [exact L1 |]. unfold same_link. auto. }
    destruct ap_ok; cbn [negb fst snd].
    + split; [revert L; unfold same_link; simpl; auto |].
      split; [simpl; exact C2 |].
      split; [simpl; rewrite R2; simpl; exact R1 |].
      split; [simpl; rewrite M2; simpl; rewrite M1; discriminate |].
      simpl. rewrite E2. simpl. rewrite E1. reflexivity.
    + split; [exact L |].
      split; [rewrite C2; simpl; exact C1 |].
      split; [rewrite R2; simpl; exact R1 |].
      split; [rewrite M2; simpl; rewrite M1; discriminate |].
      rewrite E2. simpl. rewrite E1, app_nil_r. reflexivity.
  - cbn [fst snd]. split; [exact L1 |].
    split; [exact C1 |]. split; [exact R1 |].
    split; [rewrite M1; discriminate |].
    rewrite E1, app_nil_r. reflexivity.
Qed.

(** An idle loop stays idle whatever the world does. *)
Lemma wifi_idle_forever readings :
  forall w,
    wifi_idle w ->
    let w' := wifi_loops readings w in
    wifi_idle w' /\ wifi_events w' = wifi_events w
    /\ radio_mode w' = radio_mode w.
Proof.
  induction readings as [| [connected now] rest IH]; intros w Hi; cbn zeta.
  - cbn. auto.
  - unfold wifi_loops. cbn [fold_left fst snd].
    assert (Hstep : handleWiFiLoop (radio_step connected now w)
                    = radio_step connected now w).
    { destruct Hi as (Hc & Hm & Ho). unfold handleWiFiLoop.
      change (isConfigMode (radio_step connected now w))
        with (isConfigMode w).
      change (radio_mode (radio_step connected now w)) with (radio_mode w).
      rewrite Hc.
      destruct (radio_mode w) eqn:Hmode; try contradiction;
        change (otaStarted (radio_step connected now w)) with (otaStarted w);
        rewrite Ho; reflexivity. }
    rewrite Hstep.
    destruct (IH (radio_step connected now w)) as (I & E & M);
      [exact Hi |].
    cbn zeta in *. unfold wifi_loops in *. auto.
Qed.

(** X30. The connection deadline. In station mode and not connected, the
    first loop records the clock as the start of the attempt; the loops of
    the next 30 seconds change nothing; the first loop after that gives
    the connection up: OTA is stopped, the radio leaves station mode and
    the portal is started. The start of the attempt is not cleared when
    the connection comes up, so this holds also for a connection that was
    announced and is lost later: it gets no new 30 seconds. If the portal
    cannot be started, no later loop does anything at all. *)
Theorem connection_deadline w :
  isConfigMode w = false -> radio_mode w = WIFI_STA ->
  radio_connected w = false ->
  let elapsed := wrap32 (radio_millis w - connectionStartTime w) in
  (connectionStartTime w = 0 ->
   handleWiFiLoop w = set_connectionStartTime (radio_millis w) w)
  /\ (0 < connectionStartTime w -> elapsed <= 30000 -> handleWiFiLoop w = w)
  /\ (0 < connectionStartTime w -> 30000 < elapsed ->
      let w' := handleWiFiLoop w in
      connectionStartTime w' = 0 /\ connectionLogged w' = false
      /\ otaStarted w' = false
      /\ radio_connected w' = false /\ radio_mode w' <> WIFI_STA
      /\ wifi_events w'
         = wifi_events w
           ++ (if otaStarted w then [ev_ota_end] else [])
           ++ (if isConfigMode w' then [ev_server_begin] else [])
      /\ (isConfigMode w' = false ->
          forall readings,
            wifi_events (wifi_loops readings w') = wifi_events w'
            /\ isConfigMode (wifi_loops readings w') = false
            /\ radio_mode (wifi_loops readings w') <> WIFI_STA)).
Proof.
  intros Hc Hm Hr. cbn zeta. split; [| split].
  - intros H0. unfold handleWiFiLoop. rewrite Hc, Hm, Hr, H0.
    cbn [andb negb Z.eqb]. simpl. rewrite Hr, Hc, andb_false_r. reflexivity.
  - intros Hpos He. unfold handleWiFiLoop. rewrite Hc, Hm, Hr.
    cbn [andb negb].
    rewrite (proj2 (Z.eqb_neq _ _)) by lia.
    rewrite (proj2 (Z.ltb_lt _ _) Hpos), (proj2 (Z.ltb_ge _ _) He).
    cbn [andb]. rewrite Hr, Hc, andb_false_r. reflexivity.
  - intros Hpos He. unfold handleWiFiLoop. rewrite Hc, Hm, Hr.
    cbn [andb negb].
    rewrite (proj2 (Z.eqb_neq _ _)) by lia.
    rewrite (proj2 (Z.ltb_lt _ _) Hpos), (proj2 (Z.ltb_lt _ _) He).
    cbn [andb].
    set (w3 := set_connectionLogged false (set_connectionStartTime 0 _)).
    assert (H3 : connectionStartTime w3 = 0 /\ connectionLogged w3 = false
                 /\ otaStarted w3 = false /\ isConfigMode w3 = false
                 /\ wifi_events w3
                    = wifi_events w
                      ++ (if otaStarted w then [ev_ota_end] else [])).
    { unfold w3. destruct (otaStarted w) eqn:Ho; simpl;
        rewrite ?Ho, ?Hc, ?app_nil_r; auto. }
    clearbody w3. destruct H3 as (S3 & L3 & O3 & C3 & E3).
    pose proof (startConfigPortalSafe_spec w3) as Hp. cbn zeta in Hp.
    destruct (startConfigPortalSafe w3) as [started w4]. cbn [fst snd] in Hp.
    destruct Hp as ((P1 & P2 & P3 & P4 & P5) & Cp & Rp & Mp & Ep).
    set (w5 := if started then set_portalStartTime (radio_millis w4) w4
               else w4).
    assert (H5 : connectionStartTime w5 = 0 /\ connectionLogged w5 = false
                 /\ otaStarted w5 = false /\ radio_connected w5 = false
                 /\ radio_mode w5 <> WIFI_STA
                 /\ isConfigMode w5 = started
                 /\ wifi_events w5
                    = wifi_events w3
                      ++ (if started then [ev_server_begin] else [])).
    { unfold w5. destruct started; simpl;
        rewrite ?P5, ?P3, ?P4, ?Cp, ?C3; auto 10. }
    clearbody w5. destruct H5 as (S5 & L5 & O5 & R5 & M5 & C5 & E5).
    rewrite O5. cbn [andb].
    split; [exact S5 |]. split; [exact L5 |]. split; [exact O5 |].
    split; [exact R5 |]. split; [exact M5 |].
    split; [rewrite E5, E3, C5, <- app_assoc; reflexivity |].
    intros Hidle readings.
    destruct (wifi_idle_forever readings w5) as ((I1 & I2 & _) & E & _);
      [unfold wifi_idle; auto |].
    cbn zeta in *. auto.
Qed.

Lemma connected_callback_once_witness :
  wifi_events
    (wifi_loops (map (fun now => (true, now)) [6000; 7000; 8000]) wifi_boot)
  = [ev_wifi_begin "home"; ev_connected_callback; ev_ota_begin;
     ev_ota_handle; ev_ota_handle; ev_ota_handle].
Proof.
  destruct (connected_callback_once [6000; 7000; 8000] wifi_boot)
    as (H & _); [reflexivity | reflexivity | reflexivity | discriminate |].
  exact H.
Defined.

Lemma connection_deadline_witness :
  let w' := handleWiFiLoop wifi_dropped in
  connectionLogged wifi_dropped = true
  /\ connectionStartTime wifi_dropped = 6000
  /\ isConfigMode w' = true
  /\ radio_mode w' = WIFI_AP
  /\ wifi_events w'
     = [ev_wifi_begin "home"; ev_connected_callback; ev_ota_begin;
        ev_ota_handle; ev_ota_end; ev_server_begin].
Proof.
  destruct (connection_deadline wifi_dropped) as (_ & _ & H);
    [reflexivity | reflexivity | reflexivity |].
  destruct H as (_ & _ & _ & _ & _ & He & _);
    [reflexivity | reflexivity |].
  cbn zeta. split; [reflexivity |]. split; [reflexivity |].
  split; [reflexivity |]. split; [reflexivity |].
  rewrite He. reflexivity.
Defined.
